(** * DegreePath tutor: the retrieval subsystem ([backend/rag.py])

  A shallow embedding of [RAGSystem]: document identity, query
  expansion, score normalisation, the three ingestion operations and
  the query pipeline, together with the properties of the retrieval
  specification.

  Conventions of the embedding.
  - A Python [str] is a Rocq [string]; a character stands for the code
    point of the same number (0..255), and [encode] is UTF-8.
  - A Python [float] is an IEEE-754 binary64 value, see [Module Float].
  - [hashlib.md5] is the MD5 function of RFC 1321, see [Module MD5].
  - The vector store (Chroma) is an external collaborator: its content is
    a finite map from document id to document, [add_documents] upserts by
    id, and [similarity_search_with_score] is a parameter of [query].

  Around the retrieval system the development covers the unit database
  ([backend/database.py]: the content of the three SQLite tables), the
  prerequisite check ([backend/logic.py]) and the endpoints of
  [backend/main.py] that read and feed it; there the web search of
  [backend/unit_search.py] is a parameter with a state of its own. *)

From Stdlib Require Import ZArith Lia List String Ascii Bool.
From stdpp Require Import gmap strings list sorting.

Local Open Scope Z_scope.

(* ===================================================================== *)
(** ** Python strings *)
(* ===================================================================== *)

Module PyStr.

Definition code (c : ascii) : Z := Z.of_nat (nat_of_ascii c).
Definition chr (n : Z) : ascii := ascii_of_nat (Z.to_nat n).

(** [str.lower], one code point at a time: on the code points below 256
    it maps a character to one character of that range. *)
Definition lower_char (c : ascii) : ascii :=
  let n := code c in
  if (65 <=? n) && (n <=? 90) then chr (n + 32)
  else if (192 <=? n) && (n <=? 222) && negb (n =? 215) then chr (n + 32)
  else c.

Definition is_ascii_lower (c : ascii) : bool :=
  let n := code c in (97 <=? n) && (n <=? 122).

(** [str.upper] on ASCII text: it is only applied to the keys of
    [QUERY_EXPANSIONS]. *)
Definition upper_char (c : ascii) : ascii :=
  if is_ascii_lower c then chr (code c - 32) else c.

Fixpoint map_chars (f : ascii -> ascii) (s : string) : string :=
  match s with
  | EmptyString => EmptyString
  | String c r => String (f c) (map_chars f r)
  end.

Definition lower : string -> string := map_chars lower_char.
Definition upper : string -> string := map_chars upper_char.

(** [s.startswith(p)] *)
Fixpoint startswith (p s : string) : bool :=
  match p, s with
  | EmptyString, _ => true
  | String a p', String b s' => if Ascii.eqb a b then startswith p' s' else false
  | String _ _, EmptyString => false
  end.

(** [p in s] *)
Fixpoint contains (p s : string) : bool :=
  startswith p s ||
  match s with
  | EmptyString => false
  | String _ r => contains p r
  end.

(** [s[:n]] *)
Fixpoint slice (n : nat) (s : string) : string :=
  match n, s with
  | O, _ => EmptyString
  | S n', String c r => String c (slice n' r)
  | S _, EmptyString => EmptyString
  end.

(** [s.replace(old, new)]: the occurrences of a non-empty [old] are found
    from left to right, without overlap.  [skip] counts the characters
    of the occurrence being stepped over. *)
Fixpoint replace_go (old new : string) (skip : nat) (s : string) : string :=
  match s with
  | EmptyString => EmptyString
  | String c r =>
      match skip with
      | S k => replace_go old new k r
      | O =>
          if startswith old s
          then new ++ replace_go old new (String.length old - 1) r
          else String c (replace_go old new O r)
      end
  end.

(** [s.replace("", new)] puts [new] before every character and at the
    end. *)
Fixpoint intersperse (new s : string) : string :=
  match s with
  | EmptyString => new
  | String c r => new ++ String c (intersperse new r)
  end.

Definition replace (s old new : string) : string :=
  match old with
  | EmptyString => intersperse new s
  | _ => replace_go old new O s
  end.

(** [sep.join(l)] *)
Fixpoint join (sep : string) (l : list string) : string :=
  match l with
  | [] => EmptyString
  | [x] => x
  | x :: r => x ++ sep ++ join sep r
  end.

(** [str(n)] for an integer. *)
Definition digit (n : Z) : ascii := chr (48 + n).

Fixpoint digits_go (fuel : nat) (n : Z) (acc : string) : string :=
  match fuel with
  | O => acc
  | S f =>
      let acc' := String (digit (n mod 10)) acc in
      if n <? 10 then acc' else digits_go f (n / 10) acc'
  end.

Definition str_of_Z (n : Z) : string :=
  if n <? 0
  then String "-"%char (digits_go (S (Z.to_nat (Z.log2 (- n)))) (- n) EmptyString)
  else digits_go (S (Z.to_nat (Z.log2 n))) n EmptyString.

(** [s.encode()]: UTF-8 of the code points below 256. *)
Fixpoint encode (s : string) : list Z :=
  match s with
  | EmptyString => []
  | String c r =>
      let n := code c in
      if n <? 128 then n :: encode r
      else (192 + n / 64) :: (128 + n mod 64) :: encode r
  end.

(** [s * n] *)
Fixpoint times (s : string) (n : nat) : string :=
  match n with
  | O => EmptyString
  | S k => s ++ times s k
  end.

(** The line feed of the f-strings. *)
Definition nl : string := String (chr 10) EmptyString.

End PyStr.

(* ===================================================================== *)
(** ** MD5 (RFC 1321), as [hashlib.md5(data).hexdigest()] *)
(* ===================================================================== *)

Module MD5.

Definition w32 (x : Z) : Z := x mod 2 ^ 32.

Definition rotl (x c : Z) : Z :=
  w32 (Z.lor (Z.shiftl x c) (Z.shiftr x (32 - c))).

Definition not32 (x : Z) : Z := Z.lxor x 0xffffffff.

Definition shifts : list Z :=
  [7; 12; 17; 22; 7; 12; 17; 22; 7; 12; 17; 22; 7; 12; 17; 22;
   5; 9; 14; 20; 5; 9; 14; 20; 5; 9; 14; 20; 5; 9; 14; 20;
   4; 11; 16; 23; 4; 11; 16; 23; 4; 11; 16; 23; 4; 11; 16; 23;
   6; 10; 15; 21; 6; 10; 15; 21; 6; 10; 15; 21; 6; 10; 15; 21].

Definition sines : list Z :=
  [0xd76aa478; 0xe8c7b756; 0x242070db; 0xc1bdceee;
   0xf57c0faf; 0x4787c62a; 0xa8304613; 0xfd469501;
   0x698098d8; 0x8b44f7af; 0xffff5bb1; 0x895cd7be;
   0x6b901122; 0xfd987193; 0xa679438e; 0x49b40821;
   0xf61e2562; 0xc040b340; 0x265e5a51; 0xe9b6c7aa;
   0xd62f105d; 0x02441453; 0xd8a1e681; 0xe7d3fbc8;
   0x21e1cde6; 0xc33707d6; 0xf4d50d87; 0x455a14ed;
   0xa9e3e905; 0xfcefa3f8; 0x676f02d9; 0x8d2a4c8a;
   0xfffa3942; 0x8771f681; 0x6d9d6122; 0xfde5380c;
   0xa4beea44; 0x4bdecfa9; 0xf6bb4b60; 0xbebfbc70;
   0x289b7ec6; 0xeaa127fa; 0xd4ef3085; 0x04881d05;
   0xd9d4d039; 0xe6db99e5; 0x1fa27cf8; 0xc4ac5665;
   0xf4292244; 0x432aff97; 0xab9423a7; 0xfc93a039;
   0x655b59c3; 0x8f0ccc92; 0xffeff47d; 0x85845dd1;
   0x6fa87e4f; 0xfe2ce6e0; 0xa3014314; 0x4e0811a1;
   0xf7537e82; 0xbd3af235; 0x2ad7d2bb; 0xeb86d391].

(** Padding: a 1 bit, zeros up to 56 mod 64, the bit length on 64 bits,
    little endian. *)
Fixpoint le_bytes (n : nat) (x : Z) : list Z :=
  match n with
  | O => []
  | S k => (x mod 256) :: le_bytes k (x / 256)
  end.

Definition pad (msg : list Z) : list Z :=
  let len := Z.of_nat (List.length msg) in
  let zeros := (55 - len) mod 64 in
  msg ++ [128] ++ List.repeat 0 (Z.to_nat zeros) ++ le_bytes 8 (8 * len).

Fixpoint le_word (bs : list Z) : Z :=
  match bs with
  | [] => 0
  | b :: r => b + 256 * le_word r
  end.

Fixpoint words (n : nat) (bs : list Z) : list Z :=
  match n with
  | O => []
  | S k => le_word (firstn 4 bs) :: words k (skipn 4 bs)
  end.

Record regs := Regs { rA : Z; rB : Z; rC : Z; rD : Z }.

Definition round (M : list Z) (r : regs) (i : Z) : regs :=
  let '(Regs A B C D) := r in
  let '(F, g) :=
    if i <? 16 then (Z.lor (Z.land B C) (Z.land (not32 B) D), i)
    else if i <? 32 then (Z.lor (Z.land D B) (Z.land (not32 D) C), (5 * i + 1) mod 16)
    else if i <? 48 then (Z.lxor (Z.lxor B C) D, (3 * i + 5) mod 16)
    else (Z.lxor C (Z.lor B (not32 D)), (7 * i) mod 16) in
  let F' := w32 (F + A + nth (Z.to_nat i) sines 0 + nth (Z.to_nat g) M 0) in
  Regs D (w32 (B + rotl F' (nth (Z.to_nat i) shifts 0))) B C.

Definition block (r : regs) (chunk : list Z) : regs :=
  let M := words 16 chunk in
  let r' := fold_left (round M) (map Z.of_nat (seq 0 64)) r in
  Regs (w32 (rA r + rA r')) (w32 (rB r + rB r'))
       (w32 (rC r + rC r')) (w32 (rD r + rD r')).

Fixpoint blocks (n : nat) (r : regs) (bs : list Z) : regs :=
  match n with
  | O => r
  | S k => blocks k (block r (firstn 64 bs)) (skipn 64 bs)
  end.

Definition init : regs := Regs 0x67452301 0xefcdab89 0x98badcfe 0x10325476.

Definition digest (msg : list Z) : list Z :=
  let p := pad msg in
  let r := blocks (List.length p / 64)%nat init p in
  le_bytes 4 (rA r) ++ le_bytes 4 (rB r) ++ le_bytes 4 (rC r) ++ le_bytes 4 (rD r).

Definition hex_digit (n : Z) : ascii :=
  if n <? 10 then PyStr.chr (48 + n) else PyStr.chr (87 + n).

Fixpoint hex (bs : list Z) : string :=
  match bs with
  | [] => EmptyString
  | b :: r => String (hex_digit (b / 16)) (String (hex_digit (b mod 16)) (hex r))
  end.

(** [hashlib.md5(s.encode()).hexdigest()] *)
Definition hexdigest (s : string) : string := hex (digest (PyStr.encode s)).

End MD5.

(* ===================================================================== *)
(** ** Python floats: IEEE-754 binary64, round to nearest, ties to even *)
(* ===================================================================== *)

(** Every finite binary64 value is an integer multiple of 2^-1074, the
  smallest subnormal: [Fin m] is the value [m * 2^-1074].  An operation
  returns the exact result rounded to the nearest representable value,
  ties to even, and an infinity when that exceeds the largest finite
  value.  [-0.0] is identified with [0.0]: the two compare equal and no
  operation of [rag.py] tells them apart.  The operations are defined
  for every integer [m] and return the [Fin] of a representable one. *)

Module Float.

Inductive float : Type :=
| Fin (m : Z)
| PInf
| NInf
| NaN.

(** The integer nearest to [n / d] (for [0 < d]), ties to even. *)
Definition rhe (n d : Z) : Z :=
  let q := n / d in
  let r := n mod d in
  match 2 * r ?= d with
  | Lt => q
  | Gt => q + 1
  | Eq => if Z.even q then q else q + 1
  end.

(** [n / d >= 0] rounded to 53 significant bits: below 2^53 units the
    spacing is one unit (subnormals and the first binade), above it the
    spacing is [2^j] with [j = log2 (n / d) - 52]. *)
Definition rn_pos (n d : Z) : Z :=
  let j := Z.max 0 (Z.log2 (n / d) - 52) in
  rhe n (d * 2 ^ j) * 2 ^ j.

Definition overflow : Z := 2 ^ 2098.

(** The binary64 nearest to [n / d] units, [0 < d]. *)
Definition rn (n d : Z) : float :=
  if 0 <=? n then
    let m := rn_pos n d in if overflow <=? m then PInf else Fin m
  else
    let m := rn_pos (- n) d in if overflow <=? m then NInf else Fin (- m).

Definition one_unit : Z := 2 ^ 1074.

(** [float(z)] for an integer literal. *)
Definition of_Z (z : Z) : float := rn (z * one_unit) 1.

(** [x < y] *)
Definition flt (x y : float) : bool :=
  match x, y with
  | Fin a, Fin b => a <? b
  | Fin _, PInf => true
  | NInf, Fin _ => true
  | NInf, PInf => true
  | _, _ => false
  end.

(** [x <= y] *)
Definition fle (x y : float) : bool :=
  match x, y with
  | Fin a, Fin b => a <=? b
  | Fin _, PInf => true
  | NInf, Fin _ => true
  | NInf, PInf => true
  | PInf, PInf => true
  | NInf, NInf => true
  | _, _ => false
  end.

(** [x - y] *)
Definition fsub (x y : float) : float :=
  match x, y with
  | NaN, _ | _, NaN => NaN
  | Fin a, Fin b => rn (a - b) 1
  | PInf, PInf | NInf, NInf => NaN
  | PInf, _ => PInf
  | NInf, _ => NInf
  | Fin _, PInf => NInf
  | Fin _, NInf => PInf
  end.

Definition signed_inf (negative : bool) : float :=
  if negative then NInf else PInf.

Definition is_neg (x : float) : bool :=
  match x with
  | Fin m => m <? 0
  | NInf => true
  | _ => false
  end.

Definition is_zero (x : float) : bool :=
  match x with
  | Fin 0 => true
  | _ => false
  end.

(** [x * y] *)
Definition fmul (x y : float) : float :=
  match x, y with
  | NaN, _ | _, NaN => NaN
  | Fin a, Fin b => rn (a * b) one_unit
  | _, _ =>
      if is_zero x || is_zero y then NaN
      else signed_inf (xorb (is_neg x) (is_neg y))
  end.

(** [x / y].  Python raises [ZeroDivisionError] for a zero divisor; the
    only divisor in [rag.py] is the literal [2.0], and the model returns
    [NaN] in that unused case. *)
Definition fdiv (x y : float) : float :=
  match x, y with
  | NaN, _ | _, NaN => NaN
  | _, Fin 0 => NaN
  | Fin a, Fin b => if 0 <? b then rn (a * one_unit) b else rn (- a * one_unit) (- b)
  | Fin _, _ => Fin 0
  | _, Fin _ => signed_inf (xorb (is_neg x) (is_neg y))
  | _, _ => NaN
  end.

(** [min(x, y)]: the first argument unless the second is smaller. *)
Definition pymin (x y : float) : float := if flt y x then y else x.

(** [max(x, y)]: the first argument unless the second is greater. *)
Definition pymax (x y : float) : float := if flt x y then y else x.

(** [round(x, ndigits)] for [0 <= ndigits]: the value is rounded to
    [ndigits] decimals, ties to even on its exact value, and the decimal
    result is converted back to the nearest binary64.  Infinities and
    NaN round to themselves. *)
Definition pyround (x : float) (ndigits : Z) : float :=
  match x with
  | Fin m =>
      let p := 10 ^ ndigits in
      if 0 <=? m
      then rn (rhe (m * p) one_unit * one_unit) p
      else rn (- (rhe (- m * p) one_unit * one_unit)) p
  | _ => x
  end.

End Float.

(* ===================================================================== *)
(** ** [backend/rag.py] *)
(* ===================================================================== *)

Module Rag.

Import PyStr Float.
Local Open Scope string_scope.

(** The scalar values found in records and metadata: [None], a string,
    an integer.  [fmt v] is what an f-string prints for [v]. *)
Inductive pyval : Type :=
| PNone
| PStr (s : string)
| PInt (z : Z).

#[global] Instance pyval_eq_dec : EqDecision pyval.
Proof. solve_decision. Defined.

Definition fmt (v : pyval) : string :=
  match v with
  | PNone => "None"
  | PStr s => s
  | PInt z => str_of_Z z
  end.

(** [langchain_core.documents.Document] *)
Record Document : Type := mkDocument {
  page_content : string;
  doc_metadata : gmap string pyval;
  doc_id : string
}.

(** The state of a [RAGSystem] object: the persisted collection of the
    vector store, by document id, and the process-local [indexed_ids]. *)
Record RAGSystem : Type := mkRAG {
  vector_store : gmap string Document;
  indexed_ids : gset string
}.

(** [RAGSystem.__init__] of a process that opens the persisted
    collection [store]. *)
Definition init (store : gmap string Document) : RAGSystem :=
  mkRAG store ∅.

(** [Chroma.add_documents]: an upsert by id, in batch order. *)
Definition add_documents (documents : list Document)
    (store : gmap string Document) : gmap string Document :=
  fold_left (fun m d => <[doc_id d := d]> m) documents store.

(** [_add_documents_async], awaited: the call of [add_documents] on the
    vector store. *)
Definition _add_documents_async (documents : list Document)
    (store : gmap string Document) : gmap string Document :=
  add_documents documents store.

Definition QUERY_EXPANSIONS : list (string * string) :=
  [("oop", "object-oriented programming");
   ("db", "database");
   ("ai", "artificial intelligence");
   ("ml", "machine learning");
   ("ds", "data science");
   ("fe", "frontend");
   ("be", "backend")].

(** *** Document identity *)

(** [metadata.get(k, '')] as printed by the f-string. *)
Definition meta_get (metadata : gmap string pyval) (k : string) : string :=
  fmt (default (PStr "") (metadata !! k)).

(** The string that is hashed. *)
Definition doc_key (content : string) (metadata : gmap string pyval) : string :=
  meta_get metadata "unit_code" +:+ ":" +:+ meta_get metadata "type" +:+ ":"
    +:+ slice 100 content.

Definition _generate_doc_id (content : string) (metadata : gmap string pyval)
    : string :=
  MD5.hexdigest (doc_key content metadata).

(** *** Query expansion *)

(** One iteration of the loop over [QUERY_EXPANSIONS.items()]. *)
Definition expand_step (query_lower : string) (query : string)
    (entry : string * string) : string :=
  let '(abbrev, full) := entry in
  if contains abbrev query_lower
  then replace (replace query abbrev full) (upper abbrev) full
  else query.



Definition _expand_query (query : string) : string :=
  fold_left (expand_step (lower query)) QUERY_EXPANSIONS query.

(** *** Score normalisation *)

Definition _normalize_score (distance : float) : float :=
  let clamped := pymin distance (of_Z 2) in
  let similarity :=
    pymax (Fin 0) (fmul (of_Z 100) (fsub (of_Z 1) (fdiv clamped (of_Z 2)))) in
  pyround similarity 2.

(** *** Ingestion *)

Inductive exn : Type :=
| KeyError (key : string).

Inductive result (A : Type) : Type :=
| Ok (a : A)
| Raise (e : exn).
Arguments Ok {A} a.
Arguments Raise {A} e.

Definition bind {A B : Type} (r : result A) (f : A -> result B) : result B :=
  match r with
  | Ok a => f a
  | Raise e => Raise e
  end.

Notation "'do' x <- r ; k" := (bind r (fun x => k))
  (at level 10, x name, r at level 100, k at level 200).

(** [item[key]] *)
Definition getitem {A : Type} (key : string) (field : option A) : result A :=
  match field with
  | Some v => Ok v
  | None => Raise (KeyError key)
  end.

(** The local variables of an ingestion loop: the [documents] batch and
    [self.indexed_ids]. *)
Definition pending : Type := list Document * gset string.

(** [if doc_id not in self.indexed_ids: documents.append(...);
     self.indexed_ids.add(doc_id)] *)
Definition offer (content : string) (metadata : gmap string pyval)
    (p : pending) : pending :=
  let id := _generate_doc_id content metadata in
  if decide (id ∈ p.2) then p
  else ((p.1 ++ [mkDocument content metadata id])%list, {[id]} ∪ p.2).

(** [if documents: await self._add_documents_async(documents)], and what
    is left of a loop that raised: the ids already added stay in
    [indexed_ids], the batch is dropped. *)
Definition finish (self : RAGSystem) (r : pending * option exn)
    : RAGSystem * option exn :=
  match r with
  | ((documents, ids), None) =>
      (mkRAG (match documents with
              | [] => vector_store self
              | _ => _add_documents_async documents (vector_store self)
              end) ids, None)
  | ((_, ids), Some e) => (mkRAG (vector_store self) ids, Some e)
  end.

(** A loop [for item in items: body], where [body] may raise. *)
Fixpoint for_each {A : Type} (body : A -> pending -> result pending)
    (items : list A) (p : pending) : pending * option exn :=
  match items with
  | [] => (p, None)
  | item :: rest =>
      match body item p with
      | Ok p' => for_each body rest p'
      | Raise e => (p, Some e)
      end
  end.

(** A unit as [get_all_units] returns it: a dict in which a key may be
    missing ([None] below) and a column may be NULL ([PNone]). *)
Record Unit : Type := mkUnit {
  unit_title : option pyval;
  unit_description : option pyval;
  unit_prerequisites : option (list string);
  unit_raw_prerequisites : option pyval;
  unit_credit_points : option pyval;
  unit_learning_outcomes : option (list pyval)
}.

Definition unit_meta (unit_code : string) : gmap string pyval :=
  {[ "source" := PStr "unit_guide"; "type" := PStr "description";
     "unit_code" := PStr unit_code ]}.

Definition outcome_meta (unit_code : string) (i : Z) : gmap string pyval :=
  {[ "source" := PStr "unit_guide"; "type" := PStr "learning_outcome";
     "unit_code" := PStr unit_code; "outcome_index" := PInt i ]}.

Definition lo_text (unit_code : string) (i : Z) (outcome : pyval) : string :=
  "Unit Code: " +:+ unit_code +:+ nl +:+ "Learning Outcome "
    +:+ str_of_Z (i + 1) +:+ ": " +:+ fmt outcome.

(** [for i, outcome in enumerate(...)], from index [i]. *)
Fixpoint outcomes_loop (unit_code : string) (i : Z) (outcomes : list pyval)
    (p : pending) : pending :=
  match outcomes with
  | [] => p
  | outcome :: rest =>
      outcomes_loop unit_code (i + 1) rest
        (offer (lo_text unit_code i outcome) (outcome_meta unit_code i) p)
  end.

Definition prereq_text (unit : Unit) : string :=
  let prereq_list := default [] (unit_prerequisites unit) in
  match prereq_list with
  | [] => fmt (default (PStr "None") (unit_raw_prerequisites unit))
  | _ => join ", " prereq_list
  end.

Definition desc_text (unit_code : string) (unit : Unit) (title description : pyval)
    : string :=
  "Unit Code: " +:+ unit_code +:+ nl +:+ "Title: " +:+ fmt title +:+ nl
    +:+ "Description: " +:+ fmt description +:+ nl
    +:+ "Prerequisites: " +:+ prereq_text unit +:+ nl
    +:+ "Credit Points: " +:+ fmt (default (PStr "N/A") (unit_credit_points unit)).

Definition unit_body (entry : string * Unit) (p : pending) : result pending :=
  let '(unit_code, unit) := entry in
  do title <- getitem "title" (unit_title unit);
  do description <- getitem "description" (unit_description unit);
  let p1 := offer (desc_text unit_code unit title description) (unit_meta unit_code) p in
  Ok (outcomes_loop unit_code 0 (default [] (unit_learning_outcomes unit)) p1).

(** [ingest_units], where [units] is what [get_all_units()] returns, in
    the order of [units.items()]. *)
Definition ingest_units (units : list (string * Unit)) (self : RAGSystem)
    : RAGSystem * option exn :=
  finish self (for_each unit_body units ([], indexed_ids self)).

(** An entry of [skills_roles.json]. *)
Record Skill : Type := mkSkill {
  skill_skill : option pyval;
  skill_roles : option (list string);
  skill_description : option pyval;
  skill_certifications : option (list string)
}.

Definition skill_text (item : Skill) (skill : pyval) (roles : list string)
    (description : pyval) : string :=
  "Skill: " +:+ fmt skill +:+ nl +:+ "Roles: " +:+ join ", " roles +:+ nl
    +:+ "Description: " +:+ fmt description +:+ nl
    +:+ "Certifications: " +:+ join ", " (default [] (skill_certifications item)).

Definition skill_meta (skill : pyval) : gmap string pyval :=
  {[ "source" := PStr "skills_mapping"; "type" := PStr "skill";
     "skill_name" := skill ]}.

Definition skill_body (item : Skill) (p : pending) : result pending :=
  do skill <- getitem "skill" (skill_skill item);
  do roles <- getitem "roles" (skill_roles item);
  do description <- getitem "description" (skill_description item);
  Ok (offer (skill_text item skill roles description) (skill_meta skill) p).

(** [ingest_skills]; [skills_data] is [None] when [SKILLS_FILE] does not
    exist, and the parsed JSON array otherwise. *)
Definition ingest_skills (skills_data : option (list Skill)) (self : RAGSystem)
    : RAGSystem * option exn :=
  match skills_data with
  | None => (self, None)
  | Some items => finish self (for_each skill_body items ([], indexed_ids self))
  end.

(** An entry of [learning_materials.json]. *)
Record Material : Type := mkMaterial {
  material_title : option pyval;
  material_type : option pyval;
  material_description : option pyval;
  material_url : option pyval;
  material_tags : option (list string)
}.

Definition material_text (item : Material) (title type description url : pyval)
    : string :=
  "Title: " +:+ fmt title +:+ nl +:+ "Type: " +:+ fmt type +:+ nl
    +:+ "Description: " +:+ fmt description +:+ nl
    +:+ "URL: " +:+ fmt url +:+ nl
    +:+ "Tags: " +:+ join ", " (default [] (material_tags item)).

Definition material_meta (title : pyval) : gmap string pyval :=
  {[ "source" := PStr "public_resource"; "type" := PStr "material";
     "title" := title ]}.

Definition material_body (item : Material) (p : pending) : result pending :=
  do title <- getitem "title" (material_title item);
  do type <- getitem "type" (material_type item);
  do description <- getitem "description" (material_description item);
  do url <- getitem "url" (material_url item);
  Ok (offer (material_text item title type description url) (material_meta title) p).

Definition ingest_materials (materials_data : option (list Material))
    (self : RAGSystem) : RAGSystem * option exn :=
  match materials_data with
  | None => (self, None)
  | Some items => finish self (for_each material_body items ([], indexed_ids self))
  end.

(** The candidate documents of a record, as text and metadata, in the
    order in which its loop body offers them. *)
Definition candidate : Type := string * gmap string pyval.

Definition candidate_id (c : candidate) : string := _generate_doc_id c.1 c.2.

Definition ids (l : list candidate) : gset string :=
  list_to_set (candidate_id <$> l).

Definition offers (l : list candidate) (p : pending) : pending :=
  fold_left (fun q c => offer c.1 c.2 q) l p.

Fixpoint outcome_docs (unit_code : string) (i : Z) (outcomes : list pyval)
    : list candidate :=
  match outcomes with
  | [] => []
  | outcome :: rest =>
      (lo_text unit_code i outcome, outcome_meta unit_code i)
        :: outcome_docs unit_code (i + 1) rest
  end.

Definition unit_docs (entry : string * Unit) : result (list candidate) :=
  let '(unit_code, unit) := entry in
  do title <- getitem "title" (unit_title unit);
  do description <- getitem "description" (unit_description unit);
  Ok ((desc_text unit_code unit title description, unit_meta unit_code)
        :: outcome_docs unit_code 0 (default [] (unit_learning_outcomes unit))).

Definition skill_docs (item : Skill) : result (list candidate) :=
  do skill <- getitem "skill" (skill_skill item);
  do roles <- getitem "roles" (skill_roles item);
  do description <- getitem "description" (skill_description item);
  Ok [(skill_text item skill roles description, skill_meta skill)].

Definition material_docs (item : Material) : result (list candidate) :=
  do title <- getitem "title" (material_title item);
  do type <- getitem "type" (material_type item);
  do description <- getitem "description" (material_description item);
  do url <- getitem "url" (material_url item);
  Ok [(material_text item title type description url, material_meta title)].

(** The candidates of a batch up to the first record that raises, and
    the exception of that record. *)
Fixpoint gather {A : Type} (docs : A -> result (list candidate)) (items : list A)
    : list candidate * option exn :=
  match items with
  | [] => ([], None)
  | item :: rest =>
      match docs item with
      | Ok l => let '(l', e) := gather docs rest in ((l ++ l')%list, e)
      | Raise e => ([], Some e)
      end
  end.

(** An ingestion that offers the candidates [l] and then raises [e], if
    any. *)
Definition run (l : list candidate) (e : option exn) (self : RAGSystem)
    : RAGSystem * option exn :=
  finish self (offers l ([], indexed_ids self), e).

(** A record with all its required fields. *)
Definition skill_complete (item : Skill) : bool :=
  bool_decide (is_Some (skill_skill item)) && bool_decide (is_Some (skill_roles item))
    && bool_decide (is_Some (skill_description item)).

Definition material_complete (item : Material) : bool :=
  bool_decide (is_Some (material_title item)) && bool_decide (is_Some (material_type item))
    && bool_decide (is_Some (material_description item))
    && bool_decide (is_Some (material_url item)).

(** *** Query *)

(** An entry of the list that [query] returns. *)
Record QueryResult : Type := mkResult {
  content : string;
  metadata : gmap string pyval;
  distance : float;
  similarity_percent : float
}.

(** [if filter_x:] is the truth value of an [Optional[str]]: [None] and
    the empty string are false. *)
Definition truthy (o : option string) : bool :=
  match o with
  | Some s => negb (String.eqb s "")
  | None => false
  end.

Definition set_if (key : string) (o : option string)
    (w : gmap string string) : gmap string string :=
  match o with
  | Some s => if truthy o then <[key := s]> w else w
  | None => w
  end.

Definition where_filter (filter_source filter_type filter_unit_code : option string)
    : gmap string string :=
  set_if "unit_code" filter_unit_code
    (set_if "type" filter_type (set_if "source" filter_source ∅)).

(** [Chroma.similarity_search_with_score(query, k=n, filter=f)] on the
    collection [store]; the [filter] argument is [None] when it is not
    passed. *)
Definition index : Type :=
  gmap string Document -> string -> Z -> option (gmap string string)
  -> list (Document * float).

Definition format_result (doc : Document) (dist : float) : QueryResult :=
  mkResult (page_content doc) (doc_metadata doc) (pyround dist 4)
           (_normalize_score dist).

Definition formatted (c : Document * float) : QueryResult :=
  format_result c.1 c.2.

Definition content_hash (c : Document * float) : string :=
  MD5.hexdigest (page_content c.1).

(** The loop [for doc, distance in results], with its [break]. *)
Fixpoint dedup_loop (k : Z) (results : list (Document * float))
    (seen_content : gset string) (formatted_results : list QueryResult)
    : list QueryResult :=
  match results with
  | [] => formatted_results
  | (doc, dist) :: rest =>
      let content_hash := MD5.hexdigest (page_content doc) in
      let '(seen', formatted') :=
        if decide (content_hash ∈ seen_content)
        then (seen_content, formatted_results)
        else ({[content_hash]} ∪ seen_content,
              (formatted_results ++ [format_result doc dist])%list) in
      if (k <=? Z.of_nat (length formatted'))%Z
      then formatted'
      else dedup_loop k rest seen' formatted'
  end.

(** The candidates that [query] asks the index for. *)
Definition candidates (search : index) (self : RAGSystem) (query_text : string)
    (k : Z) (filter_source filter_type filter_unit_code : option string)
    : list (Document * float) :=
  let expanded_query := _expand_query query_text in
  let w := where_filter filter_source filter_type filter_unit_code in
  if decide (w = ∅)
  then search (vector_store self) expanded_query (k * 2) None
  else search (vector_store self) expanded_query (k * 2) (Some w).

(** [query] returns its list and the object it was called on. *)
Definition query (search : index) (self : RAGSystem) (query_text : string)
    (k : Z) (filter_source filter_type filter_unit_code : option string)
    : list QueryResult * RAGSystem :=
  let results :=
    candidates search self query_text k filter_source filter_type filter_unit_code in
  (dedup_loop k results ∅ [], self).

(** The contract of a filtered search: a document is eligible when its
    metadata has every key of the filter with the filter's value. *)
Definition matches (w : gmap string string) (m : gmap string pyval) : Prop :=
  map_Forall (fun key v => m !! key = Some (PStr v)) w.

(** A test double for the index: it answers every search from a fixed
    ranking [rows], keeps the rows that match the filter and returns the
    first [n] of them. *)
Definition table_index (rows : list (Document * float)) : index :=
  fun _ _ n f =>
    take (Z.to_nat n)
      (match f with
       | None => rows
       | Some w => filter (fun r => matches w (doc_metadata r.1)) rows
       end).

(** The contract of the index on filtered searches. *)
Definition honours_filter (search : index) : Prop :=
  forall store q n w c,
    c ∈ search store q n (Some w) -> matches w (doc_metadata c.1).

End Rag.

(* ===================================================================== *)
(** ** Sample data *)
(* ===================================================================== *)

Module Demo.

Import Float Rag.
Local Open Scope string_scope.

Definition doc (source type content : string) : Document :=
  let m : gmap string pyval := {[ "source" := PStr source; "type" := PStr type ]} in
  mkDocument content m (_generate_doc_id content m).

Definition skill_python : Document := doc "skills_mapping" "skill" "Skill: Python".
Definition skill_sql : Document := doc "skills_mapping" "skill" "Skill: SQL".
Definition material_python : Document :=
  doc "public_resource" "material" "Skill: Python".
Definition outcome_loops : Document := doc "unit_guide" "learning_outcome" "Write loops".

(** Distances 0.5, 0.5 + 2^-20, 1.0 and 1.5. *)
Definition ranking : list (Document * float) :=
  [(skill_python, Fin (2 ^ 1073));
   (outcome_loops, Fin (2 ^ 1073 + 2 ^ 1054));
   (material_python, Fin (2 ^ 1074));
   (skill_sql, Fin (3 * 2 ^ 1073))].

(** The unit record of the specification's ingestion scenario. *)
Definition comp1000 : Unit :=
  mkUnit (Some (PStr "Intro")) (Some (PStr "...")) (Some []) None None
    (Some [PStr "Write basic programs"]).


Definition comp1000_outcome : Document :=
  mkDocument
    ("Unit Code: COMP1000" +:+ PyStr.nl +:+ "Learning Outcome 1: Write basic programs")
    (outcome_meta "COMP1000" 0) "614c4a12cc8184b0fd738d910ff7f346".

(** Two skills whose texts agree on their first 100 characters. *)
Definition skill_long (ending : string) : Skill :=
  mkSkill (Some (PStr "Python")) (Some ["Developer"])
    (Some (PStr (PyStr.times "a" 100 +:+ ending))) None.

Definition long_text (ending : string) : string :=
  skill_text (skill_long ending) (PStr "Python") ["Developer"]
    (PStr (PyStr.times "a" 100 +:+ ending)).

(** A batch of skills whose second record has no description. *)
Definition skill_ok (name : string) : Skill :=
  mkSkill (Some (PStr name)) (Some ["Developer"]) (Some (PStr "A skill")) None.

Definition skill_broken : Skill :=
  mkSkill (Some (PStr "SQL")) (Some ["Analyst"]) None None.

Definition skills_batch : list Skill :=
  [skill_ok "Python"; skill_broken; skill_ok "Rust"].

Definition material_ok (name : string) : Material :=
  mkMaterial (Some (PStr name)) (Some (PStr "video")) (Some (PStr "A course"))
    (Some (PStr "https://example.org")) None.

Definition material_broken : Material :=
  mkMaterial (Some (PStr "Notes")) (Some (PStr "pdf")) (Some (PStr "Lecture notes"))
    None None.

Definition materials_batch : list Material :=
  [material_ok "Intro"; material_broken; material_ok "Advanced"].

(** What [query] makes of the second row. *)
Definition second_result : QueryResult :=
  mkResult "Write loops" (doc_metadata outcome_loops) (Fin (2 ^ 1073))
    (_normalize_score (Fin (2 ^ 1073 + 2 ^ 1054))).

End Demo.

(* ===================================================================== *)
(** ** The specification's own formulations *)
(* ===================================================================== *)

Module Spec.

Import Float.

Definition D_max : float := of_Z 2.

(** [similarity = round(max(0, 100 * (1 - min(distance, D_max) / D_max)), 2)] *)
Definition similarity (dist : float) : float :=
  pyround
    (pymax (Fin 0)
       (fmul (of_Z 100) (fsub (of_Z 1) (fdiv (pymin dist D_max) D_max))))
    2.

(** Content dedup: the candidates are walked in the order returned, and
    a candidate is skipped when its content hash was already accepted. *)
Fixpoint accepted (results : list (Rag.Document * float)) (seen : gset string)
    : list (Rag.Document * float) :=
  match results with
  | [] => []
  | c :: rest =>
      let h := MD5.hexdigest (Rag.page_content c.1) in
      if decide (h ∈ seen) then accepted rest seen
      else c :: accepted rest ({[h]} ∪ seen)
  end.

(** Non-decreasing distances: adjacent ([ascending]) and pairwise
    ([ascending_all]). *)
Definition le_float (x y : float) : Prop := fle x y = true.
Definition ascending (l : list float) : Prop := Sorted le_float l.
Definition ascending_all (l : list float) : Prop := StronglySorted le_float l.



End Spec.

Arguments MD5.hexdigest : simpl never.

(* ===================================================================== *)
(** ** The three ingestions as one operation *)
(* ===================================================================== *)

Module Ops.

Import Rag.

(** What an ingestion reads: the result of [get_all_units()], or the
    content of a JSON file ([None] when the file does not exist). *)
Inductive source : Type :=
| Units (units : list (string * Unit))
| Skills (skills_data : option (list Skill))
| Materials (materials_data : option (list Material)).

Definition ingest (src : source) (self : RAGSystem) : RAGSystem * option exn :=
  match src with
  | Units units => ingest_units units self
  | Skills skills_data => ingest_skills skills_data self
  | Materials materials_data => ingest_materials materials_data self
  end.

(** The candidates of a source up to its first record that raises, and
    the exception of that record. *)
Definition plan (src : source) : list candidate * option exn :=
  match src with
  | Units units => gather unit_docs units
  | Skills (Some items) => gather skill_docs items
  | Materials (Some items) => gather material_docs items
  | Skills None | Materials None => ([], None)
  end.

(** A document stored under its own id, which is the id of its content
    and metadata. *)
Definition keyed (d : Document) : Prop :=
  doc_id d = _generate_doc_id (page_content d) (doc_metadata d).

Definition well_keyed (store : gmap string Document) : Prop :=
  forall id d, store !! id = Some d -> doc_id d = id /\ keyed d.

(** The characters of [hexdigest]. *)
Definition is_hex (c : ascii) : bool :=
  let n := PyStr.code c in
  ((48 <=? n) && (n <=? 57)) || ((97 <=? n) && (n <=? 102)).

(** [x >= y] as a relation. *)
Definition ge_float (x y : Float.float) : Prop := Float.fle y x = true.

End Ops.

(* ===================================================================== *)
(** ** [backend/database.py] and [backend/logic.py] *)
(* ===================================================================== *)

(** The SQLite database is the content of its three tables.  [units] has
    the primary key [unit_code]; the rows of [learning_outcomes] are kept
    in the order of their autoincremented ids, the order in which a scan
    of the table returns them; [prerequisites] has the primary key
    [(unit_code, prerequisite_code)].  The rows of [units] and of
    [prerequisites] are read through the index of their primary key, in
    the order of the key: text compares byte by byte in UTF-8, which is
    the order of the code points.  An integer outside 64 bits is not
    stored: binding it raises [OverflowError]. *)

Module Database.

Import PyStr Rag.
Local Open Scope string_scope.

Record UnitRow : Type := mkRow {
  row_title : pyval;
  row_description : pyval;
  row_credit_points : pyval;
  row_year_level : pyval;
  row_raw_prerequisites : pyval;
  row_raw_corequisites : pyval
}.

Record DB : Type := mkDB {
  units : gmap string UnitRow;
  learning_outcomes : list (string * string);
  prerequisites : gset (string * string)
}.

(** [init_db] on a new file. *)
Definition init_db : DB := mkDB ∅ [] ∅.

(** A Python [int] that SQLite stores: a signed integer of 64 bits. *)
Definition sqlite_int (n : Z) : bool := ((- 2 ^ 63 <=? n) && (n <? 2 ^ 63))%Z.

(** The order in which an index on text returns its keys. *)
Definition text_le (a b : string) : Prop := String.leb a b = true.

#[global] Instance text_le_dec : RelDecision text_le.
Proof. intros a b. unfold text_le. apply _. Defined.

Definition by_key (keys : list string) : list string := merge_sort text_le keys.

(** [re.findall(r"([A-Z]{4}\d{4})", text)]: the matches from left to
    right, without overlap. *)
Definition is_upper (c : ascii) : bool :=
  let n := code c in (65 <=? n)%Z && (n <=? 90)%Z.

Definition is_digit (c : ascii) : bool :=
  let n := code c in (48 <=? n)%Z && (n <=? 57)%Z.

Definition code_at (s : string) : option string :=
  match s with
  | String a (String b (String c (String d
      (String e (String f (String g (String h _))))))) =>
      if is_upper a && is_upper b && is_upper c && is_upper d
         && is_digit e && is_digit f && is_digit g && is_digit h
      then Some (slice 8 s) else None
  | _ => None
  end.

Fixpoint findall_go (skip : nat) (s : string) : list string :=
  match s with
  | EmptyString => []
  | String _ r =>
      match skip with
      | S k => findall_go k r
      | O =>
          match code_at s with
          | Some m => m :: findall_go 7 r
          | None => findall_go 0 r
          end
      end
  end.

Definition findall_codes (text : string) : list string := findall_go 0 text.

(** The [unit_data] dict of [save_unit]; [None] is a missing key. *)
Record UnitData : Type := mkUnitData {
  ud_unit_code : option string;
  ud_title : option string;
  ud_description : option string;
  ud_credit_points : option Z;
  ud_year_level : option Z;
  ud_raw_prerequisites : option string;
  ud_raw_corequisites : option string;
  ud_learning_outcomes : option (list string)
}.

Definition placeholder : UnitRow :=
  mkRow (PStr "Placeholder Unit") PNone PNone PNone PNone PNone.

(** One iteration of [for p_code in found_prereqs]. *)
Definition add_prereq (unit_code : string)
    (st : gmap string UnitRow * gset (string * string)) (p_code : string)
    : gmap string UnitRow * gset (string * string) :=
  let units1 :=
    match st.1 !! p_code with
    | Some _ => st.1
    | None => <[p_code := placeholder]> st.1
    end in
  (units1, {[(unit_code, p_code)]} ∪ st.2).

(** The statements of the [try] block, once the three required keys are
    read. *)
Definition save_rows (unit_code title description : string) (unit_data : UnitData)
    (db : DB) : DB :=
  let row :=
    mkRow (PStr title) (PStr description)
      (PInt (default 10%Z (ud_credit_points unit_data)))
      (PInt (default 1%Z (ud_year_level unit_data)))
      (PStr (default "" (ud_raw_prerequisites unit_data)))
      (PStr (default "" (ud_raw_corequisites unit_data))) in
  let units1 := <[unit_code := row]> (units db) in
  let outcomes1 :=
    (filter (fun r => r.1 <> unit_code) (learning_outcomes db)
       ++ ((fun outcome => (unit_code, outcome))
             <$> default [] (ud_learning_outcomes unit_data)))%list in
  let raw_prereqs := default "" (ud_raw_prerequisites unit_data) in
  let found_prereqs : gset string :=
    list_to_set (findall_codes raw_prereqs) ∖ {[unit_code]} in
  let prereqs1 := filter (fun r => r.1 <> unit_code) (prerequisites db) in
  let st := fold_left (add_prereq unit_code) (elements found_prereqs)
              (units1, prereqs1) in
  mkDB st.1 outcomes1 st.2.

(** The integers of the first [INSERT] are stored as they are. *)
Definition storable (unit_data : UnitData) : bool :=
  sqlite_int (default 10%Z (ud_credit_points unit_data))
  && sqlite_int (default 1%Z (ud_year_level unit_data)).

(** [save_unit]: a missing key, or an integer that SQLite does not store
    in the first [INSERT], raises inside the [try]; the handler prints,
    and the connection is closed without commit. *)
Definition save_unit (unit_data : UnitData) (db : DB) : DB :=
  match
    (do unit_code <- getitem "unit_code" (ud_unit_code unit_data);
     do title <- getitem "title" (ud_title unit_data);
     do description <- getitem "description" (ud_description unit_data);
     Ok (unit_code, title, description))
  with
  | Ok (unit_code, title, description) =>
      if storable unit_data
      then save_rows unit_code title description unit_data db
      else db
  | Raise _ => db
  end.

(** The dict that [get_unit] returns. *)
Record UnitDict : Type := mkUnitDict {
  d_unit_code : string;
  d_row : UnitRow;
  d_learning_outcomes : list string;
  d_prerequisites : list string;
  d_corequisites : list string;
  d_incompatible_units : list string
}.

Definition get_unit (unit_code : string) (db : DB) : option UnitDict :=
  match units db !! unit_code with
  | None => None
  | Some row =>
      let outcomes :=
        snd <$> filter (fun r => r.1 = unit_code) (learning_outcomes db) in
      let prereqs :=
        by_key
          (snd <$> elements (filter (fun r => r.1 = unit_code) (prerequisites db))) in
      Some (mkUnitDict unit_code row outcomes prereqs [] [])
  end.

(** [get_all_units]: the dict, as the list of its items in the order of
    the rows of [SELECT unit_code FROM units]. *)
Definition get_all_units (db : DB) : list (string * UnitDict) :=
  omap (fun unit_code =>
          match get_unit unit_code db with
          | Some unit => Some (d_unit_code unit, unit)
          | None => None
          end)
       (by_key (map_to_list (units db)).*1).

(** A dict of [get_unit] as [ingest_units] reads it: every key is there. *)
Definition as_unit (unit : UnitDict) : Unit :=
  mkUnit (Some (row_title (d_row unit))) (Some (row_description (d_row unit)))
    (Some (d_prerequisites unit)) (Some (row_raw_prerequisites (d_row unit)))
    (Some (row_credit_points (d_row unit)))
    (Some (PStr <$> d_learning_outcomes unit)).

(** [RAGSystem.ingest_units] on the database [db]. *)
Definition ingest_units_from (db : DB) (self : RAGSystem) : RAGSystem * option exn :=
  ingest_units ((fun item => (item.1, as_unit item.2)) <$> get_all_units db) self.

(** The codes that [save_unit] links to [unit_code]. *)
Definition found_in (unit_code raw : string) : gset string :=
  list_to_set (findall_codes raw) ∖ {[unit_code]}.

(** Referential integrity of the prerequisite table: both ends of every
    link are rows of [units], and no unit is linked to itself.  The
    schema declares the two foreign keys; SQLite does not enforce them
    unless asked to. *)
Definition integrity (db : DB) : Prop :=
  forall c q, (c, q) ∈ prerequisites db ->
              is_Some (units db !! c) /\ is_Some (units db !! q) /\ c <> q.

End Database.

Module Logic.

Import Rag Database.
Local Open Scope string_scope.

(** The dict that [check_prereqs] returns. *)
Record Eligibility : Type := mkEligibility {
  eligible : bool;
  missing : list string;
  error : option string
}.

Definition check_prereqs (completed_units : list string) (target_unit : string)
    (db : DB) : Eligibility :=
  match get_unit target_unit db with
  | None => mkEligibility false [] (Some ("Unit " +:+ target_unit +:+ " not found"))
  | Some unit_data =>
      let potential_prereqs :=
        filter (fun p => p <> target_unit) (d_prerequisites unit_data) in
      let missing := filter (fun p => p ∉ completed_units) potential_prereqs in
      mkEligibility (bool_decide (length missing = 0%nat)) missing None
  end.

Definition check_incompatibles (completed_units : list string) (target_unit : string)
    (db : DB) : list string :=
  match get_unit target_unit db with
  | None => []
  | Some _ => []
  end.

End Logic.

(* ===================================================================== *)
(** ** [backend/main.py]: the endpoints over the retrieval system *)
(* ===================================================================== *)

(** The web search of [backend/unit_search.py] is an external
    collaborator: [search_unit] is a parameter that reads and changes a
    state of its own (the pages it can reach, its cache).  The upper case
    of a string can have code points above 255, so [str.upper] returns
    code points, and the strings handed to the web search are lists of
    code points. *)

Module Api.

Import PyStr Float Rag Database.
Local Open Scope string_scope.

(** [str.upper], one code point at a time, on the code points below 256
    and on their upper cases. *)
Definition upper_point (n : Z) : list Z :=
  if ((97 <=? n) && (n <=? 122))%Z then [n - 32]
  else if (n =? 181)%Z then [924]
  else if (n =? 223)%Z then [83; 83]
  else if (n =? 255)%Z then [376]
  else if ((224 <=? n) && (n <=? 254) && negb (n =? 247))%Z then [n - 32]
  else [n].

Definition points (s : string) : list Z := code <$> list_ascii_of_string s.

Definition upper_points (l : list Z) : list Z := l ≫= upper_point.

Definition str_upper (s : string) : list Z := upper_points (points s).

(** The string of a list of code points, when all are below 256. *)
Fixpoint latin1 (l : list Z) : option string :=
  match l with
  | [] => Some ""
  | n :: r =>
      if ((0 <=? n) && (n <? 256))%Z then String (chr n) <$> latin1 r else None
  end.

(** [re.findall(r'[A-Z]{4}\d{4}', text)] on code points. *)
Definition in_A_Z (n : Z) : bool := ((65 <=? n) && (n <=? 90))%Z.
Definition in_d (n : Z) : bool := ((48 <=? n) && (n <=? 57))%Z.

Definition code_at_points (l : list Z) : option string :=
  match l with
  | a :: b :: c :: d :: e :: f :: g :: h :: _ =>
      if in_A_Z a && in_A_Z b && in_A_Z c && in_A_Z d
         && in_d e && in_d f && in_d g && in_d h
      then Some (string_of_list_ascii (chr <$> [a; b; c; d; e; f; g; h]))
      else None
  | _ => None
  end.

Fixpoint findall_points_go (skip : nat) (l : list Z) : list string :=
  match l with
  | [] => []
  | _ :: r =>
      match skip with
      | S k => findall_points_go k r
      | O =>
          match code_at_points l with
          | Some m => m :: findall_points_go 7 r
          | None => findall_points_go 0 r
          end
      end
  end.

Definition findall_points (text : list Z) : list string :=
  findall_points_go 0 text.

(** The dict that [unit_search.search_unit] returns for a unit it found:
    [unit_search] takes credit points between 1 and 60 only (10
    otherwise), and as year level a digit of the unit code (1
    otherwise). *)
Record LiveData : Type := mkLive {
  live_unit_code : string;
  live_title : string;
  live_description : string;
  live_credit_points : Z;
  live_year_level : Z;
  live_prerequisites : list string;
  live_corequisites : list string;
  live_raw_prerequisites : string;
  live_raw_corequisites : string;
  live_learning_outcomes : list string;
  live_offering_period : string;
  live_source_url : string;
  live_bounded :
    ((1 <=? live_credit_points) && (live_credit_points <=? 60)
     && (0 <=? live_year_level) && (live_year_level <=? 9))%Z = true
}.

(** [search_unit(unit_code)] in the state [w] of the web search. *)
Definition web (W : Type) : Type := list Z -> W -> option LiveData * W.

(** The truth value of a scalar. *)
Definition truthy_value (v : pyval) : bool :=
  match v with
  | PNone => false
  | PStr s => negb (String.eqb s "")
  | PInt z => negb (z =? 0)%Z
  end.

(** [get_unit] for a code given by its code points: the database holds
    strings of code points below 256. *)
Definition get_unit_points (unit_code : list Z) (db : DB) : option UnitDict :=
  match latin1 unit_code with
  | Some c => get_unit c db
  | None => None
  end.

(** [unit_data and unit_data.get("title") and
     unit_data["title"] != "Placeholder Unit"] *)
Definition titled (unit_data : option UnitDict) : option UnitDict :=
  match unit_data with
  | Some d =>
      if truthy_value (row_title (d_row d))
         && negb (bool_decide (row_title (d_row d) = PStr "Placeholder Unit"))
      then Some d else None
  | None => None
  end.

(** The dict that [get_unit_with_live_first] returns: the keys of a
    [get_unit] dict, and ["source"] when it is set. *)
Record Found : Type := mkFound {
  found_unit : UnitDict;
  found_source : option string
}.

Definition live_unit_data (live_data : LiveData) : UnitData :=
  mkUnitData (Some (live_unit_code live_data)) (Some (live_title live_data))
    (Some (live_description live_data)) (Some (live_credit_points live_data))
    (Some (live_year_level live_data)) (Some (live_raw_prerequisites live_data))
    (Some (live_raw_corequisites live_data))
    (Some (live_learning_outcomes live_data)).

Definition live_dict (live_data : LiveData) : UnitDict :=
  mkUnitDict (live_unit_code live_data)
    (mkRow (PStr (live_title live_data)) (PStr (live_description live_data))
       (PInt (live_credit_points live_data)) (PInt (live_year_level live_data))
       (PStr (live_raw_prerequisites live_data))
       (PStr (live_raw_corequisites live_data)))
    (live_learning_outcomes live_data) (live_prerequisites live_data)
    (live_corequisites live_data) [].

(** The part of [get_unit_with_live_first] after the cache. *)
Definition live_then_database {W : Type} (search_unit : web W)
    (unit_code : list Z) (w : W) (db : DB) : option Found * (W * DB) :=
  let '(live_data, w1) := search_unit unit_code w in
  let fallback :=
    match titled (get_unit_points unit_code db) with
    | Some unit_data => (Some (mkFound unit_data (Some "database_fallback")), (w1, db))
    | None => (None, (w1, db))
    end in
  match live_data with
  | Some live =>
      if String.eqb (live_unit_code live) "" then fallback
      else (Some (mkFound (live_dict live) (Some "live_web")),
            (w1, save_unit (live_unit_data live) db))
  | None => fallback
  end.

Definition get_unit_with_live_first {W : Type} (search_unit : web W)
    (unit_code : list Z) (use_cache : bool) (st : W * DB)
    : option Found * (W * DB) :=
  let unit_code := upper_points unit_code in
  match (if use_cache then titled (get_unit_points unit_code st.2) else None) with
  | Some unit_data => (Some (mkFound unit_data None), st)
  | None => live_then_database search_unit unit_code st.1 st.2
  end.

(** *** [/eligibility] *)

Record EligibilityRequest : Type := mkEligibilityRequest {
  er_degree : string;
  er_completed_units : list string;
  er_query_units : list string
}.

(** The response; the error messages are built from upper-cased text. *)
Record EligibilityResponse : Type := mkEligibilityResponse {
  ev_eligible : bool;
  ev_missing_prerequisites : list string;
  ev_incompatible_units : list string;
  ev_errors : list (list Z)
}.

(** [check_incompatibles(completed_units, target_unit)] for a target
    given by its code points. *)
Definition check_incompatibles_points (completed_units : list string)
    (target_unit : list Z) (db : DB) : list string :=
  match latin1 target_unit with
  | Some c => Logic.check_incompatibles completed_units c db
  | None => []
  end.

Definition check_eligibility {W : Type} (search_unit : web W)
    (request : EligibilityRequest) (st : W * DB)
    : EligibilityResponse * (W * DB) :=
  match er_query_units request with
  | [] =>
      (mkEligibilityResponse false [] [] [points "No query units provided"], st)
  | first :: _ =>
      let target_unit := str_upper first in
      let '(unit_data, st1) :=
        get_unit_with_live_first search_unit target_unit false st in
      match unit_data with
      | None =>
          (mkEligibilityResponse false [] []
             [(points "Unit " ++ target_unit ++ points " not found")%list], st1)
      | Some d =>
          let prerequisites := d_prerequisites (found_unit d) in
          let completed_upper := str_upper <$> er_completed_units request in
          let missing :=
            filter (fun p => str_upper p ∉ completed_upper) prerequisites in
          let incompatibles :=
            check_incompatibles_points (er_completed_units request) target_unit st1.2 in
          (mkEligibilityResponse
             (bool_decide (length missing = 0%nat)
              && bool_decide (length incompatibles = 0%nat))
             missing incompatibles [], st1)
      end
  end.

(** *** [/rag/query] *)

(** A number of the JSON response: an [int] or a [float]. *)
Inductive number : Type :=
| Int (z : Z)
| Flt (x : float).

(** An entry of ["results"]. *)
Record Entry : Type := mkEntry {
  e_content : string;
  e_metadata : gmap string pyval;
  e_distance : number;
  e_similarity_percent : number
}.

Definition of_result (r : QueryResult) : Entry :=
  mkEntry (content r) (metadata r) (Flt (distance r)) (Flt (similarity_percent r)).

(** [x or 'None'] *)
Definition or_None (s : string) : string :=
  if String.eqb s "" then "None" else s.

Definition live_entry (code : string) (live_data : LiveData) : Entry :=
  mkEntry
    ("Unit: " +:+ live_unit_code live_data +:+ " - " +:+ live_title live_data
       +:+ nl +:+ "Description: " +:+ live_description live_data
       +:+ nl +:+ "Prerequisites: "
       +:+ or_None (join ", " (live_prerequisites live_data)))
    (<["source" := PStr "live_web"]>
       (<["type" := PStr "unit_info"]> (<["unit_code" := PStr code]> ∅)))
    (Int 0) (Int 100).

(** One iteration of [for code in unit_codes[:3]]. *)
Definition live_step {W : Type} (search_unit : web W)
    (st : list Entry * W) (code : string) : list Entry * W :=
  let '(live_data, w1) := search_unit (points code) st.2 in
  match live_data with
  | Some live => ((st.1 ++ [live_entry code live])%list, w1)
  | None => (st.1, w1)
  end.

Record RAGQueryRequest : Type := mkRAGQueryRequest {
  rq_query : string;
  rq_k : Z;
  rq_filter_source : option string;
  rq_filter_type : option string;
  rq_filter_unit_code : option string;
  rq_include_live : bool
}.

Record RAGQueryResponse : Type := mkRAGQueryResponse {
  rr_query : string;
  rr_filters : option string * option string * option string;
  rr_results : list Entry;
  rr_count : Z;
  rr_live_count : Z
}.

Definition query_rag {W : Type} (search : index) (search_unit : web W)
    (request : RAGQueryRequest) (rag_system : RAGSystem) (w : W)
    : RAGQueryResponse * RAGSystem * W :=
  let '(results, rag_system1) :=
    query search rag_system (rq_query request) (rq_k request)
      (rq_filter_source request) (rq_filter_type request)
      (rq_filter_unit_code request) in
  let '(live_results, w1) :=
    if rq_include_live request
    then
      let unit_codes := findall_points (str_upper (rq_query request)) in
      fold_left (live_step search_unit) (take 3 unit_codes) ([], w)
    else ([], w) in
  (mkRAGQueryResponse (rq_query request)
     (rq_filter_source request, rq_filter_type request, rq_filter_unit_code request)
     (live_results ++ (of_result <$> results))%list
     (Z.of_nat (length live_results) + Z.of_nat (length results))
     (Z.of_nat (length live_results)),
   rag_system1, w1).

(** *** [/search/smart] *)

Inductive failure : Type :=
| TypeError.

Record UnitSummary : Type := mkUnitSummary {
  s_unit_code : string;
  s_title : pyval;
  s_description : string;
  s_prerequisites : list string;
  s_year_level : pyval;
  s_credit_points : pyval
}.

Record Chain : Type := mkChain {
  c_unit : string;
  c_chain : list string;
  c_description : string
}.

Record SmartResults : Type := mkSmartResults {
  sr_query : string;
  sr_units : list UnitSummary;
  sr_rag_results : list QueryResult;
  sr_prerequisite_chains : list Chain
}.

Record SmartSearchRequest : Type := mkSmartSearchRequest {
  sq_query : string;
  sq_include_prerequisites : bool;
  sq_include_rag : bool;
  sq_max_results : Z
}.

(** [unit_data.get("description", "")[:300]]: a value that is not a
    string has no slice. *)
Definition description_300 (v : pyval) : option string :=
  match v with
  | PStr s => Some (slice 300 s)
  | _ => None
  end.

(** One iteration of [for prereq in prereqs]: the state is [chain],
    [next_prereqs] and the state of the web search and the database. *)
Definition visit {W : Type} (search_unit : web W)
    (st : list string * list string * (W * DB)) (prereq : string)
    : list string * list string * (W * DB) :=
  let '(chain, next_prereqs, s) := st in
  if decide (prereq ∈ chain) then st
  else
    let '(prereq_data, s1) := get_unit_with_live_first search_unit (points prereq) true s in
    match prereq_data with
    | Some d =>
        ((chain ++ [prereq])%list,
         (next_prereqs ++ d_prerequisites (found_unit d))%list, s1)
    | None => ((chain ++ [prereq])%list, next_prereqs, s1)
    end.

(** [for _ in range(n)], with its [break]. *)
Fixpoint levels {W : Type} (search_unit : web W) (n : nat)
    (chain prereqs : list string) (s : W * DB) : list string * (W * DB) :=
  match n with
  | O => (chain, s)
  | S n' =>
      let '(chain1, next_prereqs, s1) :=
        fold_left (visit search_unit) prereqs (chain, [], s) in
      match next_prereqs with
      | [] => (chain1, s1)
      | _ => levels search_unit n' chain1 next_prereqs s1
      end
  end.

Definition chain_description (code : string) (chain : list string) : string :=
  "To take " +:+ code +:+ ", you need: " +:+ join " -> " (rev chain).

(** The state of the loop [for code in unit_codes[:5]]. *)
Record Progress (W : Type) : Type := mkProgress {
  p_units : list UnitSummary;
  p_chains : list Chain;
  p_state : W * DB
}.
Arguments mkProgress {W} _ _ _.
Arguments p_units {W} _.
Arguments p_chains {W} _.
Arguments p_state {W} _.

(** One iteration; [inr] is the state in which the iteration raised. *)
Definition unit_step {W : Type} (search_unit : web W) (include_prerequisites : bool)
    (p : Progress W) (code : string) : Progress W + (failure * (W * DB)) :=
  let '(unit_data, s1) := get_unit_with_live_first search_unit (points code) true (p_state p) in
  match unit_data with
  | None => inl (mkProgress (p_units p) (p_chains p) s1)
  | Some d =>
      let unit := found_unit d in
      match description_300 (row_description (d_row unit)) with
      | None => inr (TypeError, s1)
      | Some description =>
          let units1 :=
            (p_units p ++
               [mkUnitSummary code (row_title (d_row unit)) description
                  (d_prerequisites unit) (row_year_level (d_row unit))
                  (row_credit_points (d_row unit))])%list in
          match include_prerequisites, d_prerequisites unit with
          | true, _ :: _ =>
              let '(chain, s2) :=
                levels search_unit 3 [code] (d_prerequisites unit) s1 in
              inl (mkProgress units1
                     (p_chains p ++ [mkChain code chain (chain_description code chain)])%list
                     s2)
          | _, _ => inl (mkProgress units1 (p_chains p) s1)
          end
      end
  end.

Fixpoint units_loop {W : Type} (search_unit : web W) (include_prerequisites : bool)
    (codes : list string) (p : Progress W) : Progress W + (failure * (W * DB)) :=
  match codes with
  | [] => inl p
  | code :: rest =>
      match unit_step search_unit include_prerequisites p code with
      | inl p1 => units_loop search_unit include_prerequisites rest p1
      | inr e => inr e
      end
  end.

Definition smart_search {W : Type} (search : index) (search_unit : web W)
    (request : SmartSearchRequest) (rag_system : RAGSystem) (st : W * DB)
    : (SmartResults + failure) * RAGSystem * (W * DB) :=
  let unit_codes := findall_points (str_upper (sq_query request)) in
  match units_loop search_unit (sq_include_prerequisites request)
          (take 5 unit_codes) (mkProgress [] [] st) with
  | inr (e, st1) => (inr e, rag_system, st1)
  | inl p =>
      if sq_include_rag request
      then
        let '(rag_results, rag_system1) :=
          query search rag_system (sq_query request) (sq_max_results request)
            None None None in
        (inl (mkSmartResults (sq_query request) (p_units p) rag_results (p_chains p)),
         rag_system1, p_state p)
      else
        (inl (mkSmartResults (sq_query request) (p_units p) [] (p_chains p)),
         rag_system, p_state p)
  end.

(** What [query_rag] puts before the results of the retrieval. *)
Definition live_result (codes : list string) (e : Entry) : Prop :=
  e_distance e = Int 0 /\ e_similarity_percent e = Int 100 /\
  e_metadata e !! "source" = Some (PStr "live_web") /\
  e_metadata e !! "type" = Some (PStr "unit_info") /\
  exists code, code ∈ codes /\ e_metadata e !! "unit_code" = Some (PStr code).

(** A chain of the response: it starts with its unit and names no unit
    twice. *)
Definition well_formed (ch : Chain) : Prop :=
  NoDup (c_chain ch) /\ exists rest, c_chain ch = c_unit ch :: rest.

(** What holds of the units and chains collected after the codes [done]. *)
Definition collected {W : Type} (done : list string) (p : Progress W) : Prop :=
  (s_unit_code <$> p_units p) `sublist_of` done /\
  (c_unit <$> p_chains p) `sublist_of` (s_unit_code <$> p_units p) /\
  Forall well_formed (p_chains p).

(** A string that is a unit code: four letters of [A-Z] and four digits. *)
Definition is_unit_code (s : string) : Prop := code_at s = Some s.

(** Every row with a title that is not the placeholder's has a string as
    description: what [save_unit] writes. *)
Definition described (db : DB) : Prop :=
  forall c row, units db !! c = Some row ->
    row_title row <> PStr "Placeholder Unit" -> truthy_value (row_title row) = true ->
    exists s, row_description row = PStr s.

End Api.

(** Sample data for the endpoints. *)
Module Sample.

Import Rag Database Api.
Local Open Scope string_scope.

Definition comp2000 : LiveData :=
  mkLive "COMP2000" "Data Structures" "Lists and trees" 10 2
    ["COMP1000"; "COMP1010"] [] "COMP1000 or COMP1010" "None" ["Use lists"]
    "2025" "https://unitguides.mq.edu.au/unit_offerings/1/unit_guide" eq_refl.

(** A web search that finds COMP2000 only; its state counts the calls. *)
Definition web_comp2000 : web nat :=
  fun unit_code calls =>
    (if decide (unit_code = points "COMP2000") then Some comp2000 else None,
     S calls).

(** A database with a titled unit that has no description. *)
Definition untitled_db : DB :=
  mkDB {[ "COMP3000" := mkRow (PStr "Project") PNone PNone PNone PNone PNone ]}
    [] ∅.

End Sample.

(* ===================================================================== *)
(** ** Rounding facts *)
(* ===================================================================== *)

Section Rounding.

Import Float.

Lemma rhe_mono (d n1 n2 : Z) :
  0 < d -> n1 <= n2 -> rhe n1 d <= rhe n2 d.
Proof.
  intros Hd Hn. unfold rhe.
  pose proof (Z.div_mod n1 d ltac:(lia)) as E1.
  pose proof (Z.div_mod n2 d ltac:(lia)) as E2.
  pose proof (Z.mod_pos_bound n1 d Hd) as B1.
  pose proof (Z.mod_pos_bound n2 d Hd) as B2.
  pose proof (Z.div_le_mono n1 n2 d Hd Hn) as Hq.
  set (q1 := n1 / d) in *. set (q2 := n2 / d) in *.
  set (r1 := n1 mod d) in *. set (r2 := n2 mod d) in *.
  assert (Hcase : q1 < q2 \/ (q1 = q2 /\ r1 <= r2)) by nia.
  destruct (Z.compare_spec (2 * r1) d), (Z.compare_spec (2 * r2) d);
    destruct (Z.even q1) eqn:Ev1, (Z.even q2) eqn:Ev2;
    destruct Hcase as [Hlt | [Heq Hr]];
    try lia; try (subst q2; congruence).
  all: assert (q1 + 1 <> q2)
    by (intros <-; rewrite Z.add_1_r, Z.even_succ, <- Z.negb_even in Ev2;
        rewrite Ev1 in Ev2; discriminate).
  all: lia.
Qed.

Lemma rhe_exact (d k : Z) : 0 < d -> rhe (k * d) d = k.
Proof.
  intros Hd. unfold rhe.
  rewrite Z.div_mul, Z.mod_mul by lia.
  destruct (Z.compare_spec (2 * 0) d); lia.
Qed.

Lemma rhe_lower (d n k : Z) : 0 < d -> k * d <= n -> k <= rhe n d.
Proof.
  intros Hd H. rewrite <- (rhe_exact d k Hd). now apply rhe_mono.
Qed.

Lemma rhe_upper (d n k : Z) : 0 < d -> n <= k * d -> rhe n d <= k.
Proof.
  intros Hd H. etransitivity; [apply (rhe_mono d n (k * d)); lia |].
  rewrite rhe_exact; lia.
Qed.

Lemma rn_pos_nonneg (n d : Z) : 0 < d -> 0 <= n -> 0 <= rn_pos n d.
Proof.
  intros Hd Hn. unfold rn_pos.
  set (j := Z.max 0 (Z.log2 (n / d) - 52)).
  assert (0 < 2 ^ j) by (apply Z.pow_pos_nonneg; lia).
  apply Z.mul_nonneg_nonneg; [| lia].
  apply rhe_lower; nia.
Qed.

(** Below [2 ^ (53 + j)] the quotient has exponent at most [j]. *)
Lemma quotient_below (f j : Z) :
  0 <= f -> Z.max 0 (Z.log2 f - 52) <= j -> 0 <= j -> f < 2 ^ (53 + j).
Proof.
  intros Hf Hj Hj0.
  destruct (Z.eq_dec f 0) as [-> | Hne].
  - apply Z.pow_pos_nonneg; lia.
  - pose proof (Z.log2_spec f ltac:(lia)) as [_ Hup].
    eapply Z.lt_le_trans; [exact Hup |].
    apply Z.pow_le_mono_r; lia.
Qed.

Lemma rn_pos_mono (d n1 n2 : Z) :
  0 < d -> 0 <= n1 -> n1 <= n2 -> rn_pos n1 d <= rn_pos n2 d.
Proof.
  intros Hd H0 Hn. unfold rn_pos.
  pose proof (Z.div_le_mono n1 n2 d Hd Hn) as Hq.
  pose proof (Z.div_pos n1 d H0 Hd) as Hf1.
  set (f1 := n1 / d) in *. set (f2 := n2 / d) in *.
  pose proof (Z.log2_le_mono f1 f2 Hq) as Hlog.
  set (j1 := Z.max 0 (Z.log2 f1 - 52)).
  set (j2 := Z.max 0 (Z.log2 f2 - 52)).
  assert (Hj1 : 0 <= j1) by lia.
  assert (Hj : j1 <= j2) by lia.
  assert (Hp1 : 0 < 2 ^ j1) by (apply Z.pow_pos_nonneg; lia).
  assert (Hp2 : 0 < 2 ^ j2) by (apply Z.pow_pos_nonneg; lia).
  destruct (Z.eq_dec j1 j2) as [E | Hne].
  - rewrite <- E. apply Z.mul_le_mono_nonneg_r; [lia |].
    apply rhe_mono; nia.
  - (* the second quotient lies in a higher binade *)
    assert (Hlt : j1 + 1 <= j2) by lia.
    transitivity (2 ^ 53 * 2 ^ j1).
    + apply Z.mul_le_mono_nonneg_r; [lia |].
      apply rhe_upper; [nia |].
      pose proof (quotient_below f1 j1 Hf1 ltac:(lia) Hj1) as Hb.
      rewrite Z.pow_add_r in Hb by lia.
      pose proof (Z.div_mod n1 d ltac:(lia)) as E1.
      pose proof (Z.mod_pos_bound n1 d Hd) as B1.
      fold f1 in E1. nia.
    + transitivity (2 ^ 52 * 2 ^ j2).
      * rewrite <- !Z.pow_add_r by lia. apply Z.pow_le_mono_r; lia.
      * apply Z.mul_le_mono_nonneg_r; [lia |].
        apply rhe_lower; [nia |].
        assert (Hf2 : 0 < f2) by
          (destruct (Z.eq_dec f2 0) as [Ez | ?]; [| lia];
           exfalso; subst j2; rewrite Ez in *; simpl in *; lia).
        pose proof (Z.log2_spec f2 Hf2) as [Hlow _].
        assert (El : Z.log2 f2 = 52 + j2) by lia.
        rewrite El, Z.pow_add_r in Hlow by lia.
        pose proof (Z.div_mod n2 d ltac:(lia)) as E2.
        pose proof (Z.mod_pos_bound n2 d Hd) as B2.
        fold f2 in E2. nia.
Qed.

Lemma rn_le_pinf (n d : Z) : fle (rn n d) PInf = true.
Proof.
  unfold rn. destruct (0 <=? n);
    match goal with |- context [overflow <=? ?m] => destruct (overflow <=? m) end;
    reflexivity.
Qed.

Lemma ninf_le_rn (n d : Z) : fle NInf (rn n d) = true.
Proof.
  unfold rn. destruct (0 <=? n);
    match goal with |- context [overflow <=? ?m] => destruct (overflow <=? m) end;
    reflexivity.
Qed.

Lemma rn_mono (d n1 n2 : Z) :
  0 < d -> n1 <= n2 -> fle (rn n1 d) (rn n2 d) = true.
Proof.
  intros Hd Hn. unfold rn.
  destruct (Z.leb_spec 0 n1) as [H1 | H1], (Z.leb_spec 0 n2) as [H2 | H2];
    try lia.
  - pose proof (rn_pos_mono d n1 n2 Hd H1 Hn) as Hm.
    destruct (Z.leb_spec overflow (rn_pos n1 d)),
             (Z.leb_spec overflow (rn_pos n2 d)); cbn [fle]; try reflexivity;
      [lia | apply Z.leb_le; lia].
  - pose proof (rn_pos_nonneg (- n1) d Hd ltac:(lia)) as Hm1.
    pose proof (rn_pos_nonneg n2 d Hd H2) as Hm2.
    destruct (Z.leb_spec overflow (rn_pos (- n1) d)),
             (Z.leb_spec overflow (rn_pos n2 d)); cbn [fle]; try reflexivity.
    apply Z.leb_le; lia.
  - pose proof (rn_pos_mono d (- n2) (- n1) Hd ltac:(lia) ltac:(lia)) as Hm.
    destruct (Z.leb_spec overflow (rn_pos (- n1) d)),
             (Z.leb_spec overflow (rn_pos (- n2) d)); cbn [fle]; try reflexivity;
      [lia | apply Z.leb_le; lia].
Qed.

(** The order on the values that are not NaN. *)
Lemma fle_refl_rn (n d : Z) : fle (rn n d) (rn n d) = true.
Proof.
  unfold rn. destruct (0 <=? n);
    match goal with |- context [overflow <=? ?m] => destruct (overflow <=? m) end;
    cbn [fle]; try reflexivity; apply Z.leb_refl.
Qed.

Lemma flt_fle (x y : float) : flt x y = true -> fle x y = true.
Proof.
  destruct x, y; cbn [flt fle]; try congruence.
  intros H. apply Z.leb_le. apply Z.ltb_lt in H. lia.
Qed.

Lemma pymin_mono (c : Z) (x y : float) :
  fle x y = true -> fle (pymin x (Fin c)) (pymin y (Fin c)) = true.
Proof.
  unfold pymin. destruct x as [a | | |], y as [b | | |];
    cbn [flt fle]; try congruence; intros H;
    repeat match goal with
           | |- context [?u <? ?v] => destruct (Z.ltb_spec u v)
           end; cbn [fle]; try reflexivity; try apply Z.leb_le;
    try apply Z.leb_le in H; lia.
Qed.

Lemma pymax_mono (c : Z) (x y : float) :
  fle x y = true -> fle (pymax (Fin c) x) (pymax (Fin c) y) = true.
Proof.
  unfold pymax. destruct x as [a | | |], y as [b | | |];
    cbn [flt fle]; try congruence; intros H;
    repeat match goal with
           | |- context [?u <? ?v] => destruct (Z.ltb_spec u v)
           end; cbn [fle]; try reflexivity; try apply Z.leb_le;
    try apply Z.leb_le in H; lia.
Qed.

Lemma fdiv_mono (b : Z) (x y : float) :
  0 < b -> fle x y = true -> fle (fdiv x (Fin b)) (fdiv y (Fin b)) = true.
Proof.
  intros Hb. assert (Hu : 0 < one_unit) by (apply Z.pow_pos_nonneg; lia).
  destruct b as [| b | b]; try lia.
  destruct x as [a | | |], y as [c | | |]; cbn [fdiv fle is_neg xorb signed_inf];
    try congruence; intros H; try reflexivity;
    try apply rn_le_pinf; try apply ninf_le_rn.
  apply Z.leb_le in H. apply rn_mono; [lia | nia].
Qed.

Lemma fsub_anti (a : Z) (x y : float) :
  fle x y = true -> fle (fsub (Fin a) y) (fsub (Fin a) x) = true.
Proof.
  destruct x as [b | | |], y as [c | | |]; cbn [fsub fle];
    try congruence; intros H; try reflexivity;
    try apply rn_le_pinf; try apply ninf_le_rn.
  apply Z.leb_le in H. apply rn_mono; lia.
Qed.

Lemma fmul_mono (a : Z) (x y : float) :
  0 < a -> fle x y = true -> fle (fmul (Fin a) x) (fmul (Fin a) y) = true.
Proof.
  intros Ha. assert (Hu : 0 < one_unit) by (apply Z.pow_pos_nonneg; lia).
  destruct a as [| a | a]; try lia.
  destruct x as [b | | |], y as [c | | |];
    cbn [fmul fle is_zero is_neg orb xorb signed_inf];
    try congruence; intros H; try reflexivity;
    try apply rn_le_pinf; try apply ninf_le_rn.
  apply Z.leb_le in H. apply rn_mono; [lia | nia].
Qed.

Lemma pyround_mono (nd : Z) (x y : float) :
  0 <= nd -> fle x y = true -> fle (pyround x nd) (pyround y nd) = true.
Proof.
  intros Hnd.
  assert (Hu : 0 < one_unit) by (apply Z.pow_pos_nonneg; lia).
  assert (Hp : 0 < 10 ^ nd) by (apply Z.pow_pos_nonneg; lia).
  destruct x as [a | | |], y as [b | | |]; cbn [pyround fle];
    try congruence; intros H; try reflexivity;
    try (destruct (0 <=? a); (apply rn_le_pinf || apply ninf_le_rn));
    try (destruct (0 <=? b); (apply rn_le_pinf || apply ninf_le_rn)).
  apply Z.leb_le in H.
  destruct (Z.leb_spec 0 a) as [Ha | Ha], (Z.leb_spec 0 b) as [Hb | Hb];
    try lia; apply rn_mono; try lia.
  - apply Z.mul_le_mono_nonneg_r; [lia |]. apply rhe_mono; nia.
  - pose proof (rhe_lower one_unit (- a * 10 ^ nd) 0 Hu ltac:(nia)).
    pose proof (rhe_lower one_unit (b * 10 ^ nd) 0 Hu ltac:(nia)).
    nia.
  - pose proof (rhe_mono one_unit (- b * 10 ^ nd) (- a * 10 ^ nd) Hu ltac:(nia)).
    nia.
Qed.

End Rounding.

(* ===================================================================== *)
(** ** Score normalisation *)
(* ===================================================================== *)

Section NormalizeScore.

Import Float Rag.

Lemma float_two : of_Z 2 = Fin (2 ^ 1075).
Proof. vm_compute. reflexivity. Qed.

Lemma float_one : of_Z 1 = Fin (2 ^ 1074).
Proof. vm_compute. reflexivity. Qed.

Lemma float_hundred : of_Z 100 = Fin (100 * 2 ^ 1074).
Proof. vm_compute. reflexivity. Qed.

(** The score never increases with the distance, over all floats that
    are ordered. *)
Lemma normalize_score_antitone (d1 d2 : float) :
  fle d1 d2 = true ->
  fle (_normalize_score d2) (_normalize_score d1) = true.
Proof.
  intros H. unfold _normalize_score.
  rewrite float_two, float_one, float_hundred.
  apply pyround_mono; [lia |]. apply pymax_mono, fmul_mono;
    [apply Z.mul_pos_pos; [lia | apply Z.pow_pos_nonneg; lia] |].
  apply fsub_anti, fdiv_mono; [apply Z.pow_pos_nonneg; lia |].
  now apply pymin_mono.
Qed.

Lemma clamp_at_two (d : float) :
  fle (of_Z 2) d = true -> pymin d (of_Z 2) = of_Z 2.
Proof.
  rewrite float_two. unfold pymin.
  destruct d as [m | | |]; cbn [fle flt]; try congruence; intros H.
  apply Z.leb_le in H.
  destruct (Z.ltb_spec (2 ^ 1075) m); [reflexivity | f_equal; lia].
Qed.

Lemma score_of_clamped :
  pyround
    (pymax (Fin 0)
       (fmul (of_Z 100) (fsub (of_Z 1) (fdiv (of_Z 2) (of_Z 2))))) 2 = Fin 0.
Proof. vm_compute. reflexivity. Qed.

Lemma score_of_zero : _normalize_score (Fin 0) = of_Z 100.
Proof. vm_compute. reflexivity. Qed.

(** C2. For every distance the score is
    [round(max(0, 100 * (1 - min(d, 2.0) / 2.0)), 2)]; the score of
    distance 0 is 100.0; the score of every distance [d >= 2.0] is 0.0;
    and for [0 <= d1 < d2 <= 2.0] the score of [d1] is at least the score
    of [d2]. *)
Theorem normalize_score_spec :
  (forall d, _normalize_score d = Spec.similarity d) /\
  _normalize_score (Fin 0) = of_Z 100 /\
  (forall d, fle Spec.D_max d = true -> _normalize_score d = Fin 0) /\
  (forall d1 d2,
      fle (Fin 0) d1 = true -> flt d1 d2 = true -> fle d2 Spec.D_max = true ->
      fle (_normalize_score d2) (_normalize_score d1) = true).
Proof.
  split; [intros d; unfold _normalize_score, Spec.similarity, Spec.D_max; reflexivity |].
  split; [exact score_of_zero |].
  split.
  - intros d H. unfold Spec.D_max in H. unfold _normalize_score.
    rewrite (clamp_at_two d H). exact score_of_clamped.
  - intros d1 d2 _ H _. apply normalize_score_antitone. now apply flt_fle.
Qed.

Lemma normalize_score_spec_witness :
  _normalize_score (Fin (2 ^ 1076)) = Fin 0 /\
  fle (_normalize_score (Fin (3 * 2 ^ 1073))) (_normalize_score (Fin (2 ^ 1073)))
    = true.
Proof.
  split.
  - apply (proj1 (proj2 (proj2 normalize_score_spec))). vm_compute. reflexivity.
  - apply (proj2 (proj2 (proj2 normalize_score_spec)));
      vm_compute; reflexivity.
Defined.

End NormalizeScore.

(* ===================================================================== *)
(** ** The query loop *)
(* ===================================================================== *)

Section QueryLoop.

Import Float Rag.

Lemma dedup_loop_accepted (k : Z) (results : list (Document * float))
    (seen : gset string) (acc : list QueryResult) :
  Z.of_nat (length acc) < k ->
  dedup_loop k results seen acc =
    acc ++ (formatted <$> take (Z.to_nat k - length acc) (Spec.accepted results seen)).
Proof.
  revert seen acc. induction results as [| [doc dist] rest IH]; intros seen acc Hk.
  - cbn. now rewrite take_nil, app_nil_r.
  - cbn [dedup_loop Spec.accepted fst]. destruct (decide (_ ∈ seen)) as [Hin | Hin].
    + destruct (Z.leb_spec k (Z.of_nat (length acc))); [lia |]. now apply IH.
    + rewrite length_app. cbn [length].
      destruct (Z.to_nat k - length acc)%nat as [| n] eqn:En; [lia |].
      destruct (Z.leb_spec k (Z.of_nat (length acc + 1))) as [Hle | Hgt].
      * assert (n = 0%nat) as -> by lia. reflexivity.
      * rewrite IH by (rewrite length_app; cbn [length]; lia).
        rewrite length_app. cbn [length take fmap list_fmap].
        rewrite <- app_assoc. cbn [app].
        replace (Z.to_nat k - (length acc + 1))%nat with n by lia. reflexivity.
Qed.

(** The loop returns the first [max(1, k)] accepted candidates. *)
Lemma dedup_loop_take (k : Z) (results : list (Document * float)) :
  dedup_loop k results ∅ [] =
    formatted <$> take (Z.to_nat (Z.max 1 k)) (Spec.accepted results ∅).
Proof.
  destruct (Z.le_gt_cases k 0) as [Hk | Hk].
  - replace (Z.max 1 k) with 1 by lia.
    destruct results as [| [doc dist] rest]; [reflexivity |].
    cbn [dedup_loop Spec.accepted fst].
    destruct (decide (_ ∈ ∅)) as [Hin | _]; [now apply elem_of_empty in Hin |].
    cbn [app length]. destruct (Z.leb_spec k (Z.of_nat 1)); [| lia].
    reflexivity.
  - rewrite dedup_loop_accepted by (cbn; lia).
    cbn [app length]. rewrite Nat.sub_0_r.
    replace (Z.max 1 k) with k by lia. reflexivity.
Qed.

Lemma accepted_sublist (results : list (Document * float)) (seen : gset string) :
  Spec.accepted results seen `sublist_of` results.
Proof.
  revert seen. induction results as [| c rest IH]; intros seen; cbn.
  - constructor.
  - destruct (decide _); [apply sublist_cons | apply sublist_skip]; apply IH.
Qed.

(** An accepted candidate is the first one with its content hash. *)
Lemma accepted_first (results : list (Document * float)) (seen : gset string)
    (c : Document * float) :
  c ∈ Spec.accepted results seen ->
  (content_hash c ∉ seen) /\
  (exists before after,
    results = before ++ c :: after /\
    Forall (fun b => content_hash b <> content_hash c) before).
Proof.
  revert seen. induction results as [| x rest IH]; intros seen; cbn.
  - intros H. inversion H.
  - fold (content_hash x). destruct (decide _) as [Hin | Hin].
    + intros H. destruct (IH _ H) as (Hc & before & after & -> & Hall).
      split; [exact Hc |]. exists (x :: before), after. split; [reflexivity |].
      constructor; [| exact Hall]. intros E. apply Hc. now rewrite <- E.
    + intros [-> | H]%elem_of_cons.
      * split; [exact Hin |]. exists [], rest. split; [reflexivity | constructor].
      * destruct (IH _ H) as (Hc & before & after & -> & Hall).
        split; [intros Hs; apply Hc, elem_of_union; now right |].
        exists (x :: before), after.
        split; [reflexivity |]. constructor; [| exact Hall].
        intros E. apply Hc, elem_of_union. left. now apply elem_of_singleton.
Qed.

Lemma accepted_NoDup (results : list (Document * float)) (seen : gset string) :
  NoDup (content_hash <$> Spec.accepted results seen).
Proof.
  revert seen. induction results as [| x rest IH]; intros seen; cbn.
  - constructor.
  - fold (content_hash x). destruct (decide _) as [Hin | Hin]; [apply IH |].
    cbn. constructor; [| apply IH].
    intros (c & E & Hc)%list_elem_of_fmap.
    apply accepted_first in Hc as [Hc _].
    apply Hc, elem_of_union. left. now apply elem_of_singleton.
Qed.

Lemma fle_trans (x y z : float) :
  fle x y = true -> fle y z = true -> fle x z = true.
Proof.
  destruct x, y, z; cbn [fle]; try congruence.
  rewrite !Z.leb_le. lia.
Qed.

#[local] Instance le_float_trans : Transitive Spec.le_float.
Proof. intros x y z. apply fle_trans. Qed.

Lemma StronglySorted_sublist {A : Type} (R : relation A) (l1 l2 : list A) :
  l1 `sublist_of` l2 -> StronglySorted R l2 -> StronglySorted R l1.
Proof.
  induction 1 as [| x l1 l2 Hsub IH | x l1 l2 Hsub IH]; intros Hs.
  - constructor.
  - apply StronglySorted_inv in Hs as [Hs Hall]. constructor; [now apply IH |].
    rewrite Forall_forall in Hall |- *. intros y Hy. apply Hall.
    now apply (elem_of_sublist l1 l2).
  - apply StronglySorted_inv in Hs as [Hs _]. now apply IH.
Qed.

Lemma query_results (search : index) (self : RAGSystem) (query_text : string)
    (k : Z) (fs ft fu : option string) :
  (query search self query_text k fs ft fu).1 =
    formatted <$> take (Z.to_nat (Z.max 1 k))
      (Spec.accepted (candidates search self query_text k fs ft fu) ∅).
Proof. unfold query. cbn [fst]. apply dedup_loop_take. Qed.

(** With an index that returns at most the [2 * k] entries it is asked
    for, [max(1, k)] is [k]. *)
Lemma query_results_capped (search : index) (self : RAGSystem)
    (query_text : string) (k : Z) (fs ft fu : option string) :
  Z.of_nat (length (candidates search self query_text k fs ft fu)) <= k * 2 ->
  (query search self query_text k fs ft fu).1 =
    formatted <$> take (Z.to_nat k)
      (Spec.accepted (candidates search self query_text k fs ft fu) ∅).
Proof.
  intros Hlen. rewrite query_results.
  destruct (Z.le_gt_cases 1 k) as [Hk | Hk].
  - now replace (Z.max 1 k) with k by lia.
  - destruct (candidates search self query_text k fs ft fu) as [| c rest].
    + cbn. now rewrite !take_nil.
    + cbn [length] in Hlen. lia.
Qed.

(** C4. With an index that returns at most the [2 * k] entries asked for,
    in ascending distance, [query] returns at most [k] results, their
    distances do not decrease, and they are candidates of the index in
    the index's own order. *)
Theorem query_cap_and_order (search : index) (self : RAGSystem)
    (query_text : string) (k : Z) (fs ft fu : option string) :
  let cands := candidates search self query_text k fs ft fu in
  let res := (query search self query_text k fs ft fu).1 in
  Z.of_nat (length cands) <= k * 2 ->
  Spec.ascending (cands.*2) ->
  Z.of_nat (length res) <= k /\
  Spec.ascending_all (distance <$> res) /\
  exists kept, kept `sublist_of` cands /\ res = formatted <$> kept.
Proof.
  intros cands res Hlen Hasc.
  assert (Hres : res = formatted <$> take (Z.to_nat k) (Spec.accepted cands ∅))
    by (now apply query_results_capped).
  assert (Hsub : take (Z.to_nat k) (Spec.accepted cands ∅) `sublist_of` cands).
  { etransitivity; [apply sublist_take | apply accepted_sublist]. }
  split; [| split].
  - rewrite Hres, length_fmap, length_take.
    destruct (Z.le_gt_cases 0 k); [lia |].
    pose proof (Nat2Z.is_nonneg (length cands)). lia.
  - rewrite Hres, <- list_fmap_compose.
    change (distance ∘ formatted) with ((fun d => pyround d 4) ∘ @snd Document float).
    rewrite list_fmap_compose.
    apply (StronglySorted_fmap _ Spec.le_float).
    + intros x y. apply pyround_mono. lia.
    + apply (StronglySorted_sublist _ _ (cands.*2)).
      * now apply fmap_sublist.
      * now apply Sorted_StronglySorted; [apply le_float_trans |].
  - eauto.
Qed.

Lemma query_cap_and_order_witness :
  let res := (query (table_index Demo.ranking) (init ∅) "python" 2 None None None).1 in
  Z.of_nat (length res) <= 2 /\
  Spec.ascending_all (distance <$> res) /\
  exists kept,
    kept `sublist_of`
      candidates (table_index Demo.ranking) (init ∅) "python" 2 None None None /\
    res = formatted <$> kept.
Proof.
  apply (query_cap_and_order (table_index Demo.ranking) (init ∅) "python" 2).
  - vm_compute. congruence.
  - vm_compute. repeat constructor.
Defined.

(** C6. The contents of the results of a query are pairwise distinct;
    every result is the candidate at the earliest position among the
    candidates with its content; and the results are the first [k]
    candidates accepted by a walk in the index's order that skips a
    content hash already accepted. *)
Theorem query_dedup_by_content (search : index) (self : RAGSystem)
    (query_text : string) (k : Z) (fs ft fu : option string) :
  let cands := candidates search self query_text k fs ft fu in
  let res := (query search self query_text k fs ft fu).1 in
  NoDup (content <$> res) /\
  (forall r, r ∈ res ->
     exists before c after,
       cands = before ++ c :: after /\ r = formatted c /\
       Forall (fun b => page_content b.1 <> page_content c.1) before) /\
  (Z.of_nat (length cands) <= k * 2 ->
     res = formatted <$> take (Z.to_nat k) (Spec.accepted cands ∅)).
Proof.
  intros cands res.
  assert (Hres : res = formatted <$> take (Z.to_nat (Z.max 1 k)) (Spec.accepted cands ∅))
    by apply query_results.
  split; [| split].
  - rewrite Hres, <- list_fmap_compose.
    change (content ∘ formatted) with (page_content ∘ @fst Document float).
    apply (NoDup_fmap_1 MD5.hexdigest). rewrite <- list_fmap_compose.
    change (MD5.hexdigest ∘ (page_content ∘ @fst Document float)) with content_hash.
    apply (sublist_NoDup _ (content_hash <$> Spec.accepted cands ∅));
      [apply accepted_NoDup | apply fmap_sublist, sublist_take].
  - intros r Hr. rewrite Hres in Hr.
    apply list_elem_of_fmap in Hr as (c & -> & Hc).
    apply (elem_of_sublist _ (Spec.accepted cands ∅)) in Hc; [| apply sublist_take].
    apply accepted_first in Hc as (_ & before & after & E & Hall).
    exists before, c, after. split; [exact E |]. split; [reflexivity |].
    eapply Forall_impl; [exact Hall |].
    intros b Hb Eb. apply Hb. unfold content_hash. now rewrite Eb.
  - apply query_results_capped.
Qed.

Lemma query_dedup_by_content_witness :
  let cands := candidates (table_index Demo.ranking) (init ∅) "python" 3 None None None in
  let res := (query (table_index Demo.ranking) (init ∅) "python" 3 None None None).1 in
  res = formatted <$> take 3 (Spec.accepted cands ∅) /\
  content <$> res = ["Skill: Python"; "Write loops"; "Skill: SQL"]%string.
Proof.
  split.
  - apply (query_dedup_by_content (table_index Demo.ranking) (init ∅) "python" 3).
    vm_compute. congruence.
  - vm_compute. reflexivity.
Defined.

(** C9, as the code has it. In every query result the distance field is
    the metric that the index returned for that document, rounded to 4
    decimals; content and metadata are the document's. *)
Theorem query_distance_rounded (search : index) (self : RAGSystem)
    (query_text : string) (k : Z) (fs ft fu : option string) (r : QueryResult) :
  r ∈ (query search self query_text k fs ft fu).1 ->
  exists doc dist,
    (doc, dist) ∈ candidates search self query_text k fs ft fu /\
    distance r = pyround dist 4 /\
    content r = page_content doc /\
    metadata r = doc_metadata doc /\
    similarity_percent r = _normalize_score dist.
Proof.
  rewrite query_results. intros (c & -> & Hc)%list_elem_of_fmap.
  destruct c as [doc dist]. exists doc, dist. split; [| now repeat split].
  eapply elem_of_sublist; [exact Hc |].
  etransitivity; [apply sublist_take | apply accepted_sublist].
Qed.

Lemma query_distance_rounded_witness :
  exists doc dist,
    (doc, dist) ∈ candidates (table_index Demo.ranking) (init ∅) "python" 2
                    None None None /\
    distance Demo.second_result = pyround dist 4 /\
    content Demo.second_result = page_content doc /\
    metadata Demo.second_result = doc_metadata doc /\
    similarity_percent Demo.second_result = _normalize_score dist.
Proof.
  apply (query_distance_rounded (table_index Demo.ranking) (init ∅) "python" 2
           None None None Demo.second_result).
  vm_compute. right. left.
Defined.

(** The index returns distance 0.5 + 2^-20 for a document; the result
    carries 0.5. *)
Lemma query_distance_not_raw :
  let raw := Fin (2 ^ 1073 + 2 ^ 1054) in
  let search := table_index [(Demo.outcome_loops, raw)] in
  candidates search (init ∅) "loops" 5 None None None = [(Demo.outcome_loops, raw)] /\
  distance <$> (query search (init ∅) "loops" 5 None None None).1 = [Fin (2 ^ 1073)] /\
  ~ (forall r, r ∈ (query search (init ∅) "loops" 5 None None None).1 ->
               distance r = raw).
Proof.
  intros raw search.
  assert (Hd : distance <$> (query search (init ∅) "loops" 5 None None None).1
               = [Fin (2 ^ 1073)]) by (vm_compute; reflexivity).
  split; [vm_compute; reflexivity |]. split; [exact Hd |].
  intros Hall.
  destruct (query search (init ∅) "loops" 5 None None None).1 as [| r rest];
    [discriminate Hd |].
  injection Hd as Hr _. specialize (Hall r ltac:(left)).
  rewrite Hall in Hr. vm_compute in Hr. discriminate Hr.
Qed.

(** An ingestion, by contrast, changes both. *)
Lemma ingest_units_mutates :
  let self := init ∅ in
  let after := (ingest_units [("COMP1000"%string, Demo.comp1000)] self).1 in
  indexed_ids after <> indexed_ids self /\ vector_store after <> vector_store self.
Proof.
  cbv zeta. split; intros E.
  - assert (H : doc_id Demo.comp1000_outcome
                ∈ indexed_ids (ingest_units [("COMP1000"%string, Demo.comp1000)] (init ∅)).1)
      by (vm_compute; reflexivity).
    rewrite E in H. cbn in H. now apply elem_of_empty in H.
  - assert (H : vector_store (ingest_units [("COMP1000"%string, Demo.comp1000)] (init ∅)).1
                  !! doc_id Demo.comp1000_outcome = Some Demo.comp1000_outcome)
      by (vm_compute; reflexivity).
    rewrite E in H. cbn in H. now rewrite lookup_empty in H.
Qed.

(** C10. [query] leaves the object it is called on as it was: neither
    [indexed_ids] nor the indexed corpus changes, so an ingestion that
    follows a query does what it would have done without the query. *)
Theorem query_read_only (search : index) (self : RAGSystem)
    (query_text : string) (k : Z) (fs ft fu : option string) :
  let after := (query search self query_text k fs ft fu).2 in
  after = self /\
  indexed_ids after = indexed_ids self /\
  vector_store after = vector_store self /\
  (forall units, ingest_units units after = ingest_units units self) /\
  (forall data, ingest_skills data after = ingest_skills data self) /\
  (forall data, ingest_materials data after = ingest_materials data self).
Proof.
  intros after.
  assert (E : after = self) by reflexivity.
  rewrite E. repeat split; reflexivity.
Qed.

Lemma table_index_honours (rows : list (Document * float)) :
  honours_filter (table_index rows).
Proof.
  intros store q n w c Hc. unfold table_index in Hc.
  pose proof (elem_of_sublist _ _ _ Hc (sublist_take _ _)) as Hf.
  now apply list_elem_of_filter in Hf as [Hm _].
Qed.

Lemma where_filter_lookup (fs ft fu : option string) :
  where_filter fs ft fu !! "source"%string = (if truthy fs then fs else None) /\
  where_filter fs ft fu !! "type"%string = (if truthy ft then ft else None) /\
  where_filter fs ft fu !! "unit_code"%string = (if truthy fu then fu else None) /\
  (forall key, key <> "source"%string -> key <> "type"%string ->
               key <> "unit_code"%string -> where_filter fs ft fu !! key = None).
Proof.
  unfold where_filter, set_if.
  destruct fs as [s |], ft as [t |], fu as [u |];
    repeat match goal with
           | |- context [truthy ?o] => destruct (truthy o)
           end;
    repeat split; intros; simplify_map_eq; reflexivity.
Qed.

(** C5, as the code has it. The filter handed to the index has exactly
    the keys of the filter parameters for which [if filter_x:] holds,
    those that are neither [None] nor the empty string: an empty filter
    parameter is dropped like an absent one.  No filter is passed when
    none is left; and with an index that returns only documents matching
    all pairs of its filter, every result matches all pairs of the
    filter: with [filter_type="skill"] every result has type
    ["skill"]. *)
Theorem query_filter (search : index) (self : RAGSystem)
    (query_text : string) (k : Z) (fs ft fu : option string) :
  honours_filter search ->
  let w := where_filter fs ft fu in
  let res := (query search self query_text k fs ft fu).1 in
  (w !! "source"%string = (if truthy fs then fs else None) /\
   w !! "type"%string = (if truthy ft then ft else None) /\
   w !! "unit_code"%string = (if truthy fu then fu else None) /\
   (forall key, key <> "source"%string -> key <> "type"%string ->
                key <> "unit_code"%string -> w !! key = None)) /\
  candidates search self query_text k fs ft fu =
    search (vector_store self) (_expand_query query_text) (k * 2)
      (if truthy fs || truthy ft || truthy fu then Some w else None) /\
  (forall r, r ∈ res -> matches w (metadata r)) /\
  (ft = Some "skill"%string ->
   forall r, r ∈ res -> metadata r !! "type"%string = Some (PStr "skill")).
Proof.
  intros Hidx w res.
  pose proof (where_filter_lookup fs ft fu) as Hw. fold w in Hw.
  assert (Hcands : candidates search self query_text k fs ft fu =
    search (vector_store self) (_expand_query query_text) (k * 2)
      (if truthy fs || truthy ft || truthy fu then Some w else None)).
  { unfold candidates. fold w. destruct Hw as (Hs & Ht & Hu & _).
    destruct (decide (w = ∅)) as [E | Hne].
    - rewrite E, lookup_empty in Hs, Ht, Hu.
      destruct (truthy fs) eqn:Es; [destruct fs; cbn in Es; discriminate |].
      destruct (truthy ft) eqn:Et; [destruct ft; cbn in Et; discriminate |].
      destruct (truthy fu) eqn:Eu; [destruct fu; cbn in Eu; discriminate |].
      reflexivity.
    - destruct (truthy fs) eqn:Es, (truthy ft) eqn:Et, (truthy fu) eqn:Eu;
        try reflexivity.
      exfalso. apply Hne. unfold w, where_filter, set_if.
      rewrite Es, Et, Eu. now destruct fs, ft, fu. }
  assert (Hmatch : forall r, r ∈ res -> matches w (metadata r)).
  { intros r Hr. unfold res in Hr. rewrite query_results in Hr.
    apply list_elem_of_fmap in Hr as (c & -> & Hc).
    apply (elem_of_sublist _ (candidates search self query_text k fs ft fu)) in Hc;
      [| etransitivity; [apply sublist_take | apply accepted_sublist]].
    rewrite Hcands in Hc.
    destruct (truthy fs || truthy ft || truthy fu) eqn:Eany.
    - exact (Hidx _ _ _ _ _ Hc).
    - destruct Hw as (Hs & Ht & Hu & Hk).
      apply orb_false_iff in Eany as [[Es Et]%orb_false_iff Eu].
      rewrite Es in Hs. rewrite Et in Ht. rewrite Eu in Hu.
      intros key v Hkey.
      destruct (decide (key = "source"%string)) as [-> | ?]; [congruence |].
      destruct (decide (key = "type"%string)) as [-> | ?]; [congruence |].
      destruct (decide (key = "unit_code"%string)) as [-> | ?]; [congruence |].
      rewrite Hk in Hkey by assumption. discriminate. }
  split; [exact Hw |]. split; [exact Hcands |]. split; [exact Hmatch |].
  intros -> r Hr. apply (Hmatch r Hr "type"%string).
  destruct Hw as (_ & Ht & _). exact Ht.
Qed.

Lemma query_filter_witness :
  metadata (formatted (Demo.skill_sql, Fin (3 * 2 ^ 1073))) !! "type"%string
    = Some (PStr "skill").
Proof.
  apply (proj2 (proj2 (proj2
           (query_filter (table_index Demo.ranking) (init ∅) "python" 5
              None (Some "skill"%string) None (table_index_honours Demo.ranking))))
           eq_refl).
  vm_compute. right. left.
Defined.

(** A filter parameter that is present but empty is not matched: with
    [filter_type=""] no filter reaches the index, and the results are
    documents of the types "skill" and "learning_outcome", none of
    type [""]. *)
Lemma query_empty_filter_not_matched :
  let search := table_index Demo.ranking in
  let res := (query search (init ∅) "python" 5 None (Some ""%string) None).1 in
  where_filter None (Some ""%string) None = ∅ /\
  candidates search (init ∅) "python" 5 None (Some ""%string) None = Demo.ranking /\
  (metadata <$> res) !! 0%nat = Some (doc_metadata Demo.skill_python) /\
  doc_metadata Demo.skill_python !! "type"%string = Some (PStr "skill") /\
  ~ (forall r, r ∈ res -> matches {[ "type"%string := ""%string ]} (metadata r)).
Proof.
  intros search res.
  assert (Hfirst : (metadata <$> res) !! 0%nat = Some (doc_metadata Demo.skill_python))
    by (vm_compute; reflexivity).
  assert (Htype : doc_metadata Demo.skill_python !! "type"%string = Some (PStr "skill"))
    by (vm_compute; reflexivity).
  split; [reflexivity |]. split; [vm_compute; reflexivity |].
  split; [exact Hfirst |]. split; [exact Htype |].
  intros Hall. rewrite list_lookup_fmap in Hfirst.
  destruct (res !! 0%nat) as [r |] eqn:Er; [| discriminate Hfirst].
  injection Hfirst as Hm. apply list_elem_of_lookup_2 in Er.
  specialize (Hall r Er "type"%string ""%string (lookup_singleton_eq _ _)).
  rewrite Hm in Hall. vm_compute in Hall. discriminate Hall.
Qed.

End QueryLoop.

(* ===================================================================== *)
(** ** Document identity *)
(* ===================================================================== *)

Section DocumentIdentity.

Import PyStr Rag.

Lemma key_split (k k' r r' : string) :
  contains ":" k = false -> contains ":" k' = false ->
  k +:+ ":" +:+ r = k' +:+ ":" +:+ r' -> k = k' /\ r = r'.
Proof.
  revert k'. induction k as [| c k IH]; intros [| c' k'] Hk Hk' E; cbn in *.
  - now injection E.
  - injection E as <- _. cbn in Hk'. discriminate.
  - injection E as -> _. cbn in Hk. discriminate.
  - injection E as -> E.
    apply orb_false_elim in Hk as [_ Hk]. apply orb_false_elim in Hk' as [_ Hk'].
    destruct (IH k' Hk Hk' E) as [-> ->]. now split.
Qed.

(** C3, as the code has it. The id is a function of the printed
    [unit_code], the printed [type] and the first 100 characters of the
    content: arguments that agree on these three get the same id; and
    when [unit_code] and [type] hold no colon, a change of one of the
    three changes the string that is hashed. *)
Theorem doc_id_of_key_prefix :
  (forall c c' m m',
     meta_get m "unit_code" = meta_get m' "unit_code" ->
     meta_get m "type" = meta_get m' "type" ->
     slice 100 c = slice 100 c' ->
     _generate_doc_id c m = _generate_doc_id c' m') /\
  (forall c c' m m',
     contains ":" (meta_get m "unit_code") = false ->
     contains ":" (meta_get m' "unit_code") = false ->
     contains ":" (meta_get m "type") = false ->
     contains ":" (meta_get m' "type") = false ->
     doc_key c m = doc_key c' m' ->
     meta_get m "unit_code" = meta_get m' "unit_code" /\
     meta_get m "type" = meta_get m' "type" /\
     slice 100 c = slice 100 c').
Proof.
  split.
  - intros c c' m m' Hk Ht Hc. unfold _generate_doc_id, doc_key.
    now rewrite Hk, Ht, Hc.
  - intros c c' m m' Hk Hk' Ht Ht' E. unfold doc_key in E.
    apply key_split in E as [Ek E]; [| assumption | assumption].
    apply key_split in E as [Et E]; [| assumption | assumption].
    now repeat split.
Qed.

Lemma doc_id_of_key_prefix_witness :
  _generate_doc_id (Demo.long_text "x") (skill_meta (PStr "Python"))
    = _generate_doc_id (Demo.long_text "y") (skill_meta (PStr "Python")).
Proof.
  apply (proj1 doc_id_of_key_prefix); vm_compute; reflexivity.
Defined.

(** Two skills with different descriptions and no [unit_code] get the same
    id, and ingesting both leaves one document in the corpus. *)
Lemma doc_id_not_unique_per_content :
  let m := skill_meta (PStr "Python") in
  Demo.long_text "x" <> Demo.long_text "y" /\
  meta_get m "unit_code" = "" /\
  skill_docs (Demo.skill_long "x") = Ok [(Demo.long_text "x", m)] /\
  skill_docs (Demo.skill_long "y") = Ok [(Demo.long_text "y", m)] /\
  _generate_doc_id (Demo.long_text "x") m = _generate_doc_id (Demo.long_text "y") m /\
  size (vector_store
          (ingest_skills (Some [Demo.skill_long "x"; Demo.skill_long "y"]) (init ∅)).1)
    = 1%nat.
Proof.
  cbv zeta. split; [intros E; vm_compute in E; discriminate E |].
  split; [vm_compute; reflexivity |].
  split; [reflexivity |]. split; [reflexivity |].
  split; vm_compute; reflexivity.
Qed.

End DocumentIdentity.

(* ===================================================================== *)
(** ** Query expansion *)
(* ===================================================================== *)

Section QueryExpansion.

Import PyStr Rag.

Lemma startswith_empty (s : string) : startswith "" s = true.
Proof. now destruct s. Qed.













End QueryExpansion.

(* ===================================================================== *)
(** ** Ingestion *)
(* ===================================================================== *)

Section Ingestion.

Import Rag.

Lemma offer_ids (c : candidate) (p : pending) :
  (offer c.1 c.2 p).2 = p.2 ∪ {[candidate_id c]}.
Proof.
  unfold offer, candidate_id. destruct (decide _) as [Hin | Hin]; cbn [snd];
    apply set_eq; intros x; rewrite !elem_of_union, !elem_of_singleton;
    [split; [tauto | intros [? | ->]; assumption] | tauto].
Qed.

Lemma offers_ids (l : list candidate) (p : pending) :
  (offers l p).2 = p.2 ∪ ids l.
Proof.
  revert p. induction l as [| c l IH]; intros p; unfold offers, ids in *; cbn.
  - now rewrite union_empty_r_L.
  - rewrite IH, offer_ids. apply set_eq. intros x.
    rewrite !elem_of_union, elem_of_singleton. tauto.
Qed.

Lemma offers_seen (l : list candidate) (p : pending) :
  ids l ⊆ p.2 -> offers l p = p.
Proof.
  revert p. induction l as [| c l IH]; intros p Hsub; [reflexivity |].
  unfold offers, ids in *. cbn in *.
  assert (Hc : candidate_id c ∈ p.2)
    by (apply Hsub, elem_of_union; left; now apply elem_of_singleton).
  unfold offer at 2. fold (candidate_id c).
  destruct (decide (candidate_id c ∈ p.2)); [| contradiction].
  apply IH. intros x Hx. apply Hsub, elem_of_union. now right.
Qed.

Lemma offers_new (l : list candidate) (p : pending) :
  exists new,
    (offers l p).1 = p.1 ++ new /\
    list_to_set (doc_id <$> new) = ids l ∖ p.2.
Proof.
  revert p. induction l as [| c l IH]; intros p.
  - exists []. cbn. split; [now rewrite app_nil_r |].
    apply set_eq. intros x. unfold ids. cbn.
    rewrite elem_of_difference. split; [intros H | intros [H _]];
      now apply elem_of_empty in H.
  - unfold offers. cbn [fold_left]. fold (offers l (offer c.1 c.2 p)).
    destruct (IH (offer c.1 c.2 p)) as (new & Hdocs & Hset).
    pose proof (offer_ids c p) as Hids.
    unfold offer in Hdocs, Hids, Hset. fold (candidate_id c) in Hdocs, Hids, Hset.
    unfold offer. fold (candidate_id c).
    destruct (decide (candidate_id c ∈ p.2)) as [Hin | Hin].
    + exists new. split; [exact Hdocs |]. rewrite Hset.
      apply set_eq. intros x. unfold ids. cbn.
      rewrite !elem_of_difference, elem_of_union, elem_of_singleton.
      split; [tauto | intros [[-> | ?] ?]; [contradiction | tauto]].
    + cbn [fst snd] in *.
      exists (mkDocument c.1 c.2 (candidate_id c) :: new).
      split; [now rewrite Hdocs, <- app_assoc |].
      cbn. rewrite Hset. apply set_eq. intros x. unfold ids. cbn.
      rewrite !elem_of_union, !elem_of_difference, !elem_of_union,
        !elem_of_singleton.
      destruct (decide (x = candidate_id c)) as [-> | Hne]; tauto.
Qed.

Lemma add_documents_dom (documents : list Document) (store : gmap string Document) :
  dom (add_documents documents store) = dom store ∪ list_to_set (doc_id <$> documents).
Proof.
  revert store. induction documents as [| d l IH]; intros store; cbn.
  - now rewrite union_empty_r_L.
  - unfold add_documents in *. cbn. rewrite IH, dom_insert_L.
    apply set_eq. intros x. rewrite !elem_of_union, elem_of_singleton. tauto.
Qed.

Lemma run_ids (l : list candidate) (e : option exn) (self : RAGSystem) :
  indexed_ids (run l e self).1 = indexed_ids self ∪ ids l.
Proof.
  unfold run, finish. pose proof (offers_ids l ([], indexed_ids self)) as H.
  destruct (offers l ([], indexed_ids self)) as [documents seen].
  cbn [snd] in H. subst seen. now destruct e.
Qed.

Lemma run_dom (l : list candidate) (e : option exn) (self : RAGSystem) :
  dom (vector_store (run l e self).1) =
    match e with
    | None => dom (vector_store self) ∪ (ids l ∖ indexed_ids self)
    | Some _ => dom (vector_store self)
    end.
Proof.
  unfold run, finish.
  destruct (offers_new l ([], indexed_ids self)) as (new & Hdocs & Hset).
  destruct (offers l ([], indexed_ids self)) as [documents seen].
  cbn [fst snd app] in *. subst documents. destruct e; [reflexivity |].
  cbn [fst vector_store]. rewrite <- Hset.
  destruct new; [cbn; now rewrite union_empty_r_L | apply add_documents_dom].
Qed.


Lemma run_outcome (l : list candidate) (e : option exn) (self : RAGSystem) :
  (run l e self).2 = e /\
  (e <> None -> vector_store (run l e self).1 = vector_store self).
Proof.
  unfold run, finish. destruct (offers l ([], indexed_ids self)) as [documents seen].
  destruct e; cbn; split; congruence.
Qed.


Lemma for_each_gather {A : Type} (body : A -> pending -> result pending)
    (docs : A -> result (list candidate)) (items : list A) (p : pending) :
  (forall item q,
     body item q = match docs item with
                   | Ok l => Ok (offers l q)
                   | Raise e => Raise e
                   end) ->
  for_each body items p = (offers (gather docs items).1 p, (gather docs items).2).
Proof.
  intros Hbody. revert p. induction items as [| item rest IH]; intros p; cbn.
  - reflexivity.
  - rewrite Hbody. destruct (docs item) as [l | e]; [| reflexivity].
    rewrite IH. destruct (gather docs rest) as [l' e']. cbn [fst snd].
    unfold offers. now rewrite fold_left_app.
Qed.

Lemma outcomes_loop_offers (unit_code : string) (i : Z) (outcomes : list pyval)
    (p : pending) :
  outcomes_loop unit_code i outcomes p = offers (outcome_docs unit_code i outcomes) p.
Proof.
  revert i p. induction outcomes as [| o rest IH]; intros i p; cbn; [reflexivity |].
  now rewrite IH.
Qed.

Lemma unit_body_docs (entry : string * Unit) (p : pending) :
  unit_body entry p = match unit_docs entry with
                      | Ok l => Ok (offers l p)
                      | Raise e => Raise e
                      end.
Proof.
  destruct entry as [unit_code unit]. unfold unit_body, unit_docs.
  destruct (unit_title unit), (unit_description unit); cbn; try reflexivity.
  now rewrite outcomes_loop_offers.
Qed.

Lemma skill_body_docs (item : Skill) (p : pending) :
  skill_body item p = match skill_docs item with
                      | Ok l => Ok (offers l p)
                      | Raise e => Raise e
                      end.
Proof.
  unfold skill_body, skill_docs.
  now destruct (skill_skill item), (skill_roles item), (skill_description item).
Qed.

Lemma material_body_docs (item : Material) (p : pending) :
  material_body item p = match material_docs item with
                         | Ok l => Ok (offers l p)
                         | Raise e => Raise e
                         end.
Proof.
  unfold material_body, material_docs.
  now destruct (material_title item), (material_type item),
    (material_description item), (material_url item).
Qed.

Lemma ingest_units_run (units : list (string * Unit)) (self : RAGSystem) :
  ingest_units units self =
    run (gather unit_docs units).1 (gather unit_docs units).2 self.
Proof.
  unfold ingest_units, run.
  now rewrite (for_each_gather unit_body unit_docs) by apply unit_body_docs.
Qed.

Lemma ingest_skills_run (items : list Skill) (self : RAGSystem) :
  ingest_skills (Some items) self =
    run (gather skill_docs items).1 (gather skill_docs items).2 self.
Proof.
  unfold ingest_skills, run.
  now rewrite (for_each_gather skill_body skill_docs) by apply skill_body_docs.
Qed.

Lemma ingest_materials_run (items : list Material) (self : RAGSystem) :
  ingest_materials (Some items) self =
    run (gather material_docs items).1 (gather material_docs items).2 self.
Proof.
  unfold ingest_materials, run.
  now rewrite (for_each_gather material_body material_docs)
    by apply material_body_docs.
Qed.






Lemma gather_complete {A : Type} (docs : A -> result (list candidate))
    (items : list A) :
  (gather docs items).2 = None <-> Forall (fun item => exists l, docs item = Ok l) items.
Proof.
  induction items as [| item rest IH]; cbn.
  - split; [constructor | reflexivity].
  - destruct (docs item) as [l | e] eqn:E.
    + destruct (gather docs rest) as [l' e']. cbn [snd] in *. rewrite IH.
      split; [intros H; constructor; eauto | now inversion 1].
    + cbn [snd]. split; [discriminate |].
      inversion 1 as [| ? ? [l Hl] ?]. congruence.
Qed.

Lemma skill_docs_complete (item : Skill) :
  (exists l, skill_docs item = Ok l) <-> skill_complete item = true.
Proof.
  unfold skill_docs, skill_complete.
  destruct (skill_skill item), (skill_roles item), (skill_description item); cbn;
    split; intros H; try reflexivity; try discriminate;
    try (destruct H; discriminate); eauto.
Qed.

Lemma material_docs_complete (item : Material) :
  (exists l, material_docs item = Ok l) <-> material_complete item = true.
Proof.
  unfold material_docs, material_complete.
  destruct (material_title item), (material_type item),
    (material_description item), (material_url item); cbn;
    split; intros H; try reflexivity; try discriminate;
    try (destruct H; discriminate); eauto.
Qed.

(** What a batch does, given the records with all required fields. *)
Lemma batch_outcome {A : Type} (docs : A -> result (list candidate))
    (complete : A -> bool) (items : list A) (self : RAGSystem) :
  (forall item, (exists l, docs item = Ok l) <-> complete item = true) ->
  let r := run (gather docs items).1 (gather docs items).2 self in
  (r.2 = None <-> Forall (fun item => complete item = true) items) /\
  (r.2 <> None -> vector_store r.1 = vector_store self) /\
  (r.2 = None ->
   dom (vector_store r.1) =
     dom (vector_store self) ∪ (ids (gather docs items).1 ∖ indexed_ids self)).
Proof.
  intros Hc r. subst r.
  destruct (run_outcome (gather docs items).1 (gather docs items).2 self) as [He Hs].
  rewrite He. split; [| split].
  - rewrite gather_complete. apply Forall_iff. exact Hc.
  - exact Hs.
  - intros E. rewrite run_dom, E. reflexivity.
Qed.

(** C8, as the code has it. A skill or material record without a
    required field makes the ingestion raise at that record: the call
    returns without error exactly when every record of the batch has its
    required fields; when it raises, no document of the batch is
    submitted and the corpus is as before; when it does not, the corpus
    gains the ids of the batch that the process had not seen. *)
Theorem malformed_record_aborts_batch :
  (forall items self,
     let r := ingest_skills (Some items) self in
     (r.2 = None <-> Forall (fun item => skill_complete item = true) items) /\
     (r.2 <> None -> vector_store r.1 = vector_store self) /\
     (r.2 = None ->
      dom (vector_store r.1) =
        dom (vector_store self) ∪ (ids (gather skill_docs items).1 ∖ indexed_ids self))) /\
  (forall items self,
     let r := ingest_materials (Some items) self in
     (r.2 = None <-> Forall (fun item => material_complete item = true) items) /\
     (r.2 <> None -> vector_store r.1 = vector_store self) /\
     (r.2 = None ->
      dom (vector_store r.1) =
        dom (vector_store self) ∪ (ids (gather material_docs items).1 ∖ indexed_ids self))).
Proof.
  split; intros items self.
  - rewrite ingest_skills_run. apply batch_outcome, skill_docs_complete.
  - rewrite ingest_materials_run. apply batch_outcome, material_docs_complete.
Qed.

Lemma malformed_record_aborts_batch_witness :
  vector_store (ingest_skills (Some Demo.skills_batch) (init ∅)).1
    = vector_store (init ∅).
Proof.
  apply (proj1 malformed_record_aborts_batch Demo.skills_batch (init ∅)).
  vm_compute. discriminate.
Defined.

(** A batch of three skills, the second without description: the call
    raises [KeyError], and neither the first nor the third record reaches
    the index.  The same for materials, with a record without url. *)
Lemma malformed_record_not_skipped :
  let skills := ingest_skills (Some Demo.skills_batch) (init ∅) in
  let materials := ingest_materials (Some Demo.materials_batch) (init ∅) in
  skills.2 = Some (KeyError "description") /\
  vector_store skills.1 = ∅ /\
  materials.2 = Some (KeyError "url") /\
  vector_store materials.1 = ∅ /\
  size (vector_store skills.1) = 0%nat /\
  size (vector_store materials.1) = 0%nat.
Proof. cbv zeta. repeat apply conj; vm_compute; reflexivity. Qed.

End Ingestion.

(* ===================================================================== *)
(** ** Further properties of the score and of the document id *)
(* ===================================================================== *)

Section ScoreAndId.

Import Float Rag Ops.

Lemma fle_pinf (d : float) : d <> NaN -> fle d PInf = true.
Proof. destruct d; cbn; congruence. Qed.

Lemma score_of_nan : _normalize_score NaN = Fin 0.
Proof. vm_compute. reflexivity. Qed.

Lemma score_of_pinf : _normalize_score PInf = Fin 0.
Proof.
  unfold _normalize_score. rewrite (clamp_at_two PInf); [exact score_of_clamped |].
  rewrite float_two. reflexivity.
Qed.

(** The score is never negative and never NaN, whatever the distance,
    also for NaN and the infinities; and for a distance that is not
    negative it is at most 100. *)
Theorem score_in_range (d : float) :
  fle (Fin 0) (_normalize_score d) = true /\
  (fle (Fin 0) d = true -> fle (_normalize_score d) (of_Z 100) = true).
Proof.
  split.
  - assert (Hd : d = NaN \/ d <> NaN) by (destruct d; (now left) || (now right)).
    destruct Hd as [-> | Hd].
    + rewrite score_of_nan. reflexivity.
    + rewrite <- score_of_pinf. apply normalize_score_antitone. now apply fle_pinf.
  - intros H. rewrite <- score_of_zero. now apply normalize_score_antitone.
Qed.

Lemma score_of_minus_one :
  _normalize_score (Fin (- 2 ^ 1074)) = Fin (150 * 2 ^ 1074).
Proof. vm_compute. reflexivity. Qed.

(** The distance is clamped from above only: for every distance of at
    most -1.0 the score is at least 150.0. *)
Theorem score_above_100_for_negative_distance (d : float) :
  fle d (Fin (- 2 ^ 1074)) = true ->
  fle (Fin (150 * 2 ^ 1074)) (_normalize_score d) = true.
Proof.
  intros H. rewrite <- score_of_minus_one. now apply normalize_score_antitone.
Qed.

Lemma score_above_100_for_negative_distance_witness :
  fle (Fin (150 * 2 ^ 1074)) (_normalize_score (Fin (- 2 ^ 1075))) = true.
Proof.
  apply score_above_100_for_negative_distance. vm_compute. reflexivity.
Defined.

Lemma le_bytes_spec (n : nat) (x : Z) :
  length (MD5.le_bytes n x) = n /\
  Forall (fun b => 0 <= b < 256) (MD5.le_bytes n x).
Proof.
  revert x. induction n as [| n IH]; intros x; cbn [MD5.le_bytes].
  - split; [reflexivity | constructor].
  - destruct (IH (x / 256)) as [Hlen Hall]. split; [cbn; now rewrite Hlen |].
    constructor; [apply Z.mod_pos_bound; lia | exact Hall].
Qed.

Lemma hex_digit_is_hex (n : Z) : 0 <= n < 16 -> is_hex (MD5.hex_digit n) = true.
Proof.
  intros H.
  assert (Hk : exists k : nat, (k < 16)%nat /\ n = Z.of_nat k)
    by (exists (Z.to_nat n); lia).
  destruct Hk as (k & Hk & ->).
  do 16 (destruct k as [| k]; [reflexivity |]). lia.
Qed.

Lemma hex_spec (bs : list Z) :
  Forall (fun b => 0 <= b < 256) bs ->
  String.length (MD5.hex bs) = (2 * length bs)%nat /\
  forallb is_hex (list_ascii_of_string (MD5.hex bs)) = true.
Proof.
  induction 1 as [| b bs Hb Hall [IHlen IHhex]]; [now split |].
  cbn [MD5.hex String.length list_ascii_of_string forallb length].
  rewrite IHlen, IHhex.
  rewrite !hex_digit_is_hex.
  - split; [lia | reflexivity].
  - apply Z.mod_pos_bound. lia.
  - split; [apply Z.div_pos; lia | apply Z.div_lt_upper_bound; lia].
Qed.

(** Every document id is a string of 32 characters among [0-9a-f],
    whatever the content and the metadata. *)
Theorem doc_id_format (content : string) (metadata : gmap string pyval) :
  String.length (_generate_doc_id content metadata) = 32%nat /\
  forallb is_hex (list_ascii_of_string (_generate_doc_id content metadata)) = true.
Proof.
  unfold _generate_doc_id, MD5.hexdigest, MD5.digest.
  set (r := MD5.blocks _ _ _).
  destruct (le_bytes_spec 4 (MD5.rA r)) as [La Ha].
  destruct (le_bytes_spec 4 (MD5.rB r)) as [Lb Hb].
  destruct (le_bytes_spec 4 (MD5.rC r)) as [Lc Hc].
  destruct (le_bytes_spec 4 (MD5.rD r)) as [Ld Hd].
  destruct (hex_spec (MD5.le_bytes 4 (MD5.rA r) ++ MD5.le_bytes 4 (MD5.rB r)
                        ++ MD5.le_bytes 4 (MD5.rC r) ++ MD5.le_bytes 4 (MD5.rD r)))
    as [Hlen Hhex].
  - repeat (apply Forall_app; split); assumption.
  - split; [| exact Hhex]. rewrite Hlen, !length_app, La, Lb, Lc, Ld. reflexivity.
Qed.

End ScoreAndId.

(* ===================================================================== *)
(** ** Further properties of ingestion *)
(* ===================================================================== *)

Section IngestionFrame.

Import Rag Ops.

Lemma ingest_plan (src : source) (self : RAGSystem) :
  ingest src self = run (plan src).1 (plan src).2 self.
Proof.
  destruct src as [units | [items |] | [items |]]; cbn [ingest plan].
  - apply ingest_units_run.
  - apply ingest_skills_run.
  - now destruct self.
  - apply ingest_materials_run.
  - now destruct self.
Qed.

(** The batch of a run: documents with their own ids, pairwise distinct,
    none of them seen before. *)
Lemma offers_fresh (l : list candidate) (p : pending) :
  exists new,
    (offers l p).1 = p.1 ++ new /\
    list_to_set (doc_id <$> new) = ids l ∖ p.2 /\
    Forall keyed new /\
    NoDup (doc_id <$> new).
Proof.
  revert p. induction l as [| c l IH]; intros p.
  - exists []. cbn. split; [now rewrite app_nil_r |].
    split; [| split; constructor].
    apply set_eq. intros x. unfold ids. cbn.
    rewrite elem_of_difference. split; [intros H | intros [H _]];
      now apply elem_of_empty in H.
  - unfold offers. cbn [fold_left]. fold (offers l (offer c.1 c.2 p)).
    destruct (IH (offer c.1 c.2 p)) as (new & Hdocs & Hset & Hkey & Hnd).
    pose proof (offer_ids c p) as Hids.
    unfold offer in Hdocs, Hids, Hset. fold (candidate_id c) in Hdocs, Hids, Hset.
    unfold offer. fold (candidate_id c).
    destruct (decide (candidate_id c ∈ p.2)) as [Hin | Hin].
    + exists new. split; [exact Hdocs |]. split; [| now split]. rewrite Hset.
      apply set_eq. intros x. unfold ids. cbn.
      rewrite !elem_of_difference, elem_of_union, elem_of_singleton.
      split; [tauto | intros [[-> | ?] ?]; [contradiction | tauto]].
    + cbn [fst snd] in *.
      exists (mkDocument c.1 c.2 (candidate_id c) :: new).
      split; [now rewrite Hdocs, <- app_assoc |]. split; [| split].
      * cbn. rewrite Hset. apply set_eq. intros x. unfold ids. cbn.
        rewrite !elem_of_union, !elem_of_difference, !elem_of_union,
          !elem_of_singleton.
        destruct (decide (x = candidate_id c)) as [-> | Hne]; tauto.
      * constructor; [reflexivity | exact Hkey].
      * cbn. constructor; [| exact Hnd].
        intros Hc. apply (elem_of_list_to_set (C := gset string)) in Hc.
        rewrite Hset in Hc. apply elem_of_difference in Hc as [_ Hc].
        apply Hc, elem_of_union. left. now apply elem_of_singleton.
Qed.

Lemma add_documents_lookup_other (documents : list Document)
    (store : gmap string Document) (id : string) :
  id ∉ doc_id <$> documents -> add_documents documents store !! id = store !! id.
Proof.
  revert store. induction documents as [| d l IH]; intros store Hid; [reflexivity |].
  unfold add_documents in *. cbn in *.
  apply not_elem_of_cons in Hid as [Hne Hid].
  rewrite IH by exact Hid. now apply lookup_insert_ne.
Qed.

Lemma add_documents_lookup (documents : list Document)
    (store : gmap string Document) (id : string) (d : Document) :
  add_documents documents store !! id = Some d ->
  store !! id = Some d \/ (d ∈ documents /\ doc_id d = id).
Proof.
  revert store. induction documents as [| x l IH]; intros store H; [now left |].
  unfold add_documents in *. cbn in H.
  destruct (IH _ H) as [Hs | [Hin Hid]].
  - destruct (decide (doc_id x = id)) as [E | Hne].
    + rewrite <- E, lookup_insert_eq in Hs. injection Hs as ->.
      right. split; [now left | exact E].
    + rewrite lookup_insert_ne in Hs by exact Hne. now left.
  - right. split; [now right | exact Hid].
Qed.

(** The store after a run, in terms of the batch. *)
Lemma run_store (l : list candidate) (e : option exn) (self : RAGSystem) :
  exists new,
    (offers l ([], indexed_ids self)).1 = new /\
    list_to_set (doc_id <$> new) = ids l ∖ indexed_ids self /\
    Forall keyed new /\
    NoDup (doc_id <$> new) /\
    vector_store (run l e self).1 =
      match e with
      | None => add_documents new (vector_store self)
      | Some _ => vector_store self
      end.
Proof.
  destruct (offers_fresh l ([], indexed_ids self)) as (new & Hdocs & Hset & Hkey & Hnd).
  exists new. cbn [fst snd app] in *. repeat (split; [assumption |]).
  unfold run, finish. destruct (offers l ([], indexed_ids self)) as [documents seen].
  cbn [fst] in Hdocs. subst documents. destruct e; [reflexivity |].
  now destruct new.
Qed.

(** An ingestion only adds: the seen ids grow, no document is removed,
    a document whose id the process has seen is not written again, and
    documents under ids that the source does not produce are left as they
    are. *)
Theorem ingest_only_adds (src : source) (self : RAGSystem) :
  let after := (ingest src self).1 in
  indexed_ids self ⊆ indexed_ids after /\
  dom (vector_store self) ⊆ dom (vector_store after) /\
  (forall id, id ∈ indexed_ids self ->
              vector_store after !! id = vector_store self !! id) /\
  (forall id, id ∉ ids (plan src).1 ->
              vector_store after !! id = vector_store self !! id).
Proof.
  intros after. subst after. rewrite ingest_plan.
  set (l := (plan src).1). set (e := (plan src).2).
  destruct (run_store l e self) as (new & _ & Hset & _ & _ & Hstore).
  assert (Hother : forall id, id ∉ ids l ∖ indexed_ids self ->
            vector_store (run l e self).1 !! id = vector_store self !! id).
  { intros id Hid. rewrite Hstore. destruct e; [reflexivity |].
    apply add_documents_lookup_other. intros Hin. apply Hid. rewrite <- Hset.
    now apply elem_of_list_to_set. }
  split; [rewrite run_ids; intros x Hx; apply elem_of_union; now left |].
  split; [| split].
  - rewrite run_dom. destruct e; [reflexivity |].
    intros x Hx. apply elem_of_union. now left.
  - intros id Hid. apply Hother. rewrite elem_of_difference. tauto.
  - intros id Hid. apply Hother. rewrite elem_of_difference. tauto.
Qed.

(** A store in which every document sits under its own id, the id of its
    content and metadata, stays so under ingestion, whether it raises or
    not. *)
Theorem ingest_keeps_well_keyed (src : source) (self : RAGSystem) :
  well_keyed (vector_store self) ->
  well_keyed (vector_store (ingest src self).1).
Proof.
  intros Hwk. rewrite ingest_plan.
  destruct (run_store (plan src).1 (plan src).2 self)
    as (new & _ & _ & Hkey & _ & Hstore).
  rewrite Hstore. destruct (plan src).2; [exact Hwk |].
  intros id d Hd. apply add_documents_lookup in Hd as [Hd | [Hin Hid]].
  - now apply Hwk.
  - split; [exact Hid |]. rewrite Forall_forall in Hkey. now apply Hkey.
Qed.

Lemma ingest_keeps_well_keyed_witness :
  let stored : gmap string Document :=
    {[ doc_id Demo.skill_python := Demo.skill_python ]} in
  let after :=
    vector_store
      (ingest (Skills (Some [Demo.skill_ok "Python"; Demo.skill_ok "Rust"]))
         (init stored)).1 in
  well_keyed stored /\ size after = 3%nat /\ well_keyed after.
Proof.
  intros stored after.
  assert (Hstored : well_keyed stored).
  { intros id d Hd. apply lookup_singleton_Some in Hd as [<- <-]. now split. }
  split; [exact Hstored |]. split; [vm_compute; reflexivity |].
  apply (ingest_keeps_well_keyed
           (Skills (Some [Demo.skill_ok "Python"; Demo.skill_ok "Rust"]))
           (init stored)).
  exact Hstored.
Defined.

(** The documents that one ingestion call submits have pairwise distinct
    ids, none of which the process had seen, and each is submitted under
    the id of its content and metadata. *)
Theorem batch_ids_fresh (src : source) (self : RAGSystem) :
  let batch := (offers (plan src).1 ([], indexed_ids self)).1 in
  NoDup (doc_id <$> batch) /\
  Forall (fun d => (doc_id d ∉ indexed_ids self) /\ keyed d) batch.
Proof.
  intros batch. subst batch.
  destruct (run_store (plan src).1 None self) as (new & -> & Hset & Hkey & Hnd & _).
  split; [exact Hnd |]. rewrite Forall_forall in Hkey |- *. intros d Hd.
  split; [| now apply Hkey].
  assert (Hin : doc_id d ∈ (list_to_set (doc_id <$> new) : gset string))
    by (apply elem_of_list_to_set; now apply list_elem_of_fmap_2).
  rewrite Hset in Hin. now apply elem_of_difference in Hin as [_ Hin].
Qed.

(** Two ingestions that both return without error commute on the ids of
    the corpus and on the seen ids. *)
Theorem ingest_commutes (a b : source) (self : RAGSystem) :
  (ingest a self).2 = None -> (ingest b self).2 = None ->
  let ab := (ingest b (ingest a self).1).1 in
  let ba := (ingest a (ingest b self).1).1 in
  (ingest b (ingest a self).1).2 = None /\
  (ingest a (ingest b self).1).2 = None /\
  dom (vector_store ab) = dom (vector_store ba) /\
  indexed_ids ab = indexed_ids ba.
Proof.
  intros Ha Hb ab ba. subst ab ba. rewrite !ingest_plan in *.
  destruct (run_outcome (plan a).1 (plan a).2 self) as [Ea _].
  destruct (run_outcome (plan b).1 (plan b).2 self) as [Eb _].
  rewrite Ea in Ha. rewrite Eb in Hb. rewrite Ha, Hb.
  split; [apply run_outcome |]. split; [apply run_outcome |].
  rewrite !run_dom, !run_ids. split; apply set_eq; intros x;
    rewrite ?elem_of_union, ?elem_of_difference, ?elem_of_union;
    destruct (decide (x ∈ indexed_ids self)), (decide (x ∈ ids (plan a).1)),
      (decide (x ∈ ids (plan b).1)); tauto.
Qed.

Lemma ingest_commutes_witness :
  let a := Skills (Some [Demo.skill_ok "Python"]) in
  let b := Units [("COMP1000"%string, Demo.comp1000)] in
  (ingest b (ingest a (init ∅)).1).2 = None /\
  (ingest a (ingest b (init ∅)).1).2 = None /\
  dom (vector_store (ingest b (ingest a (init ∅)).1).1)
    = dom (vector_store (ingest a (ingest b (init ∅)).1).1) /\
  indexed_ids (ingest b (ingest a (init ∅)).1).1
    = indexed_ids (ingest a (ingest b (init ∅)).1).1.
Proof.
  apply (ingest_commutes (Skills (Some [Demo.skill_ok "Python"]))
           (Units [("COMP1000"%string, Demo.comp1000)]) (init ∅));
    reflexivity.
Defined.

Lemma gather_app_raise {A : Type} (docs : A -> result (list candidate))
    (before after : list A) (bad : A) (e : exn) :
  (gather docs before).2 = None -> docs bad = Raise e ->
  gather docs (before ++ bad :: after) = ((gather docs before).1, Some e).
Proof.
  intros Hok Hbad. induction before as [| item rest IH]; cbn in *.
  - now rewrite Hbad.
  - destruct (docs item) as [l |]; [| discriminate].
    destruct (gather docs rest) as [l' e']. cbn [snd] in *.
    rewrite (IH Hok). cbn [fst]. reflexivity.
Qed.

(** After a batch of skills has raised at a record, the records before
    it are in the seen ids although nothing was submitted; so in the same
    process ingesting these records again submits nothing, and the corpus
    stays as it was before the failed call. *)
Theorem failed_batch_blocks_retry (before after : list Skill) (bad : Skill)
    (self : RAGSystem) :
  Forall (fun item => skill_complete item = true) before ->
  skill_complete bad = false ->
  let failed := ingest_skills (Some (before ++ bad :: after)) self in
  let retry := ingest_skills (Some before) failed.1 in
  failed.2 <> None /\
  vector_store failed.1 = vector_store self /\
  ids (gather skill_docs before).1 ⊆ indexed_ids failed.1 /\
  retry.2 = None /\
  vector_store retry.1 = vector_store self.
Proof.
  intros Hbefore Hbad failed retry. subst retry failed.
  assert (Hok : (gather skill_docs before).2 = None).
  { apply gather_complete. eapply Forall_impl; [exact Hbefore |].
    intros item. apply skill_docs_complete. }
  assert (Hraise : exists e, skill_docs bad = Raise e).
  { destruct (skill_docs bad) as [l | e] eqn:E; [| eauto].
    assert (Hc : skill_complete bad = true) by (apply skill_docs_complete; eauto).
    congruence. }
  destruct Hraise as [e He].
  rewrite !ingest_skills_run, (gather_app_raise _ _ _ _ _ Hok He), Hok.
  cbn [fst snd].
  set (l := (gather skill_docs before).1).
  destruct (run_outcome l (Some e) self) as [E1 Hs1].
  assert (Hstore : vector_store (run l (Some e) self).1 = vector_store self)
    by (apply Hs1; discriminate).
  assert (Hseen : ids l ⊆ indexed_ids (run l (Some e) self).1)
    by (rewrite run_ids; intros x Hx; apply elem_of_union; now right).
  split; [rewrite E1; discriminate |]. split; [exact Hstore |].
  split; [exact Hseen |]. split; [apply run_outcome |].
  unfold run at 1. rewrite offers_seen by exact Hseen.
  cbn [finish vector_store fst]. exact Hstore.
Qed.

Lemma failed_batch_blocks_retry_witness :
  let failed := ingest_skills (Some Demo.skills_batch) (init ∅) in
  let retry := ingest_skills (Some [Demo.skill_ok "Python"]) failed.1 in
  failed.2 <> None /\
  vector_store failed.1 = vector_store (init ∅) /\
  ids (gather skill_docs [Demo.skill_ok "Python"]).1 ⊆ indexed_ids failed.1 /\
  retry.2 = None /\
  vector_store retry.1 = vector_store (init ∅).
Proof.
  apply (failed_batch_blocks_retry [Demo.skill_ok "Python"] [Demo.skill_ok "Rust"]
           Demo.skill_broken (init ∅)).
  - repeat constructor.
  - reflexivity.
Defined.

End IngestionFrame.

(* ===================================================================== *)
(** ** Further properties of the query *)
(* ===================================================================== *)

Section QueryMore.

Import Float Rag Ops.

(** The first candidate of the index is always the first result, for
    every [k]; and without candidates there is no result. *)
Theorem query_keeps_first (search : index) (self : RAGSystem)
    (query_text : string) (k : Z) (fs ft fu : option string) :
  match candidates search self query_text k fs ft fu with
  | [] => (query search self query_text k fs ft fu).1 = []
  | c :: _ => exists rest,
      (query search self query_text k fs ft fu).1 = formatted c :: rest
  end.
Proof.
  rewrite query_results.
  destruct (candidates search self query_text k fs ft fu) as [| c rest].
  - cbn. now rewrite take_nil.
  - cbn [Spec.accepted]. destruct (decide (_ ∈ ∅)) as [Hin | _];
      [now apply elem_of_empty in Hin |].
    destruct (Z.to_nat (Z.max 1 k)) as [| n] eqn:En; [lia |].
    cbn [take fmap list_fmap]. eauto.
Qed.

(** With candidates in ascending distance, the results come in
    non-increasing similarity. *)
Theorem query_similarity_descending (search : index) (self : RAGSystem)
    (query_text : string) (k : Z) (fs ft fu : option string) :
  Spec.ascending (candidates search self query_text k fs ft fu).*2 ->
  StronglySorted ge_float
    (similarity_percent <$> (query search self query_text k fs ft fu).1).
Proof.
  intros Hasc. rewrite query_results, <- list_fmap_compose.
  change (similarity_percent ∘ formatted)
    with (_normalize_score ∘ @snd Document float).
  rewrite list_fmap_compose.
  apply (StronglySorted_fmap _ Spec.le_float).
  - intros x y. apply normalize_score_antitone.
  - apply (StronglySorted_sublist _ _
             ((candidates search self query_text k fs ft fu).*2)).
    + apply fmap_sublist. etransitivity; [apply sublist_take | apply accepted_sublist].
    + now apply Sorted_StronglySorted; [apply le_float_trans |].
Qed.

Lemma query_similarity_descending_witness :
  StronglySorted ge_float
    (similarity_percent
       <$> (query (table_index Demo.ranking) (init ∅) "python" 3 None None None).1).
Proof.
  apply query_similarity_descending. vm_compute. repeat constructor.
Defined.

Lemma accepted_all (results : list (Document * float)) (seen : gset string) :
  NoDup (content_hash <$> results) ->
  Forall (fun c => content_hash c ∉ seen) results ->
  Spec.accepted results seen = results.
Proof.
  revert seen. induction results as [| c rest IH]; intros seen Hnd Hfresh;
    [reflexivity |].
  cbn [Spec.accepted]. fold (content_hash c).
  apply NoDup_cons in Hnd as [Hc Hnd]. apply Forall_cons in Hfresh as [Hcs Hfresh].
  destruct (decide (content_hash c ∈ seen)); [contradiction |].
  f_equal. apply IH; [exact Hnd |].
  rewrite Forall_forall in Hfresh |- *. intros x Hx Hin.
  apply elem_of_union in Hin as [Hin | Hin].
  - apply elem_of_singleton in Hin. apply Hc. rewrite <- Hin.
    now apply list_elem_of_fmap_2.
  - now apply (Hfresh x).
Qed.

(** When the candidates have pairwise distinct content hashes and the
    index returns at most the [2 * k] entries asked for, no candidate is
    skipped: the results are the first [k] candidates, formatted. *)
Theorem query_without_duplicates (search : index) (self : RAGSystem)
    (query_text : string) (k : Z) (fs ft fu : option string) :
  let cands := candidates search self query_text k fs ft fu in
  NoDup (content_hash <$> cands) ->
  Z.of_nat (length cands) <= k * 2 ->
  (query search self query_text k fs ft fu).1 = formatted <$> take (Z.to_nat k) cands.
Proof.
  intros cands Hnd Hlen. rewrite query_results_capped by exact Hlen.
  fold cands. rewrite accepted_all; [reflexivity | exact Hnd |].
  apply Forall_forall. intros c _ Hin. now apply elem_of_empty in Hin.
Qed.

Lemma query_without_duplicates_witness :
  (query (table_index Demo.ranking) (init ∅) "python" 2
     None (Some "skill"%string) None).1
  = formatted
      <$> take 2 (candidates (table_index Demo.ranking) (init ∅) "python" 2
                    None (Some "skill"%string) None).
Proof.
  apply (query_without_duplicates (table_index Demo.ranking) (init ∅) "python" 2
           None (Some "skill"%string) None).
  - vm_compute. repeat constructor; intros H; inversion H as [| ? ? ? H']; subst;
      try discriminate; inversion H'.
  - vm_compute. congruence.
Defined.

End QueryMore.

(* ===================================================================== *)
(** ** The unit database *)
(* ===================================================================== *)

Section UnitDatabase.

Import Rag Database.

Lemma add_prereq_fold (unit_code : string) (l : list string)
    (u : gmap string UnitRow) (p : gset (string * string)) :
  (forall x, (fold_left (add_prereq unit_code) l (u, p)).1 !! x =
     match u !! x with
     | Some r => Some r
     | None => if decide (x ∈ l) then Some placeholder else None
     end) /\
  (forall c q, (c, q) ∈ (fold_left (add_prereq unit_code) l (u, p)).2 <->
               (c, q) ∈ p \/ (c = unit_code /\ q ∈ l)).
Proof.
  revert u p. induction l as [| a l IH]; intros u p; cbn [fold_left fst snd].
  - split.
    + intros x. destruct (u !! x); [reflexivity |].
      destruct (decide (x ∈ [])) as [H | _]; [inversion H | reflexivity].
    + intros c q. split; [tauto | intros [H | [_ H]]; [exact H | inversion H]].
  - destruct (IH (add_prereq unit_code (u, p) a).1 (add_prereq unit_code (u, p) a).2)
      as [Hu Hp].
    replace (add_prereq unit_code (u, p) a)
      with ((add_prereq unit_code (u, p) a).1, (add_prereq unit_code (u, p) a).2)
      by (now destruct (add_prereq unit_code (u, p) a)).
    split.
    + intros x. rewrite Hu. unfold add_prereq. cbn [fst snd].
      destruct (decide (x = a)) as [-> | Hne].
      * destruct (u !! a) as [r |] eqn:Ea; [now rewrite Ea |].
        rewrite lookup_insert_eq.
        destruct (decide (a ∈ a :: l)) as [_ | Hn]; [reflexivity |].
        exfalso. apply Hn. now left.
      * assert (Hx : (match u !! a with
                      | Some _ => u
                      | None => <[a := placeholder]> u
                      end) !! x = u !! x).
        { destruct (u !! a); [reflexivity | now apply lookup_insert_ne]. }
        rewrite Hx. destruct (u !! x); [reflexivity |].
        destruct (decide (x ∈ l)) as [Hl | Hl], (decide (x ∈ a :: l)) as [Hal | Hal];
          try reflexivity.
        -- exfalso. apply Hal. now right.
        -- exfalso. apply elem_of_cons in Hal as [? | ?]; contradiction.
    + intros c q. rewrite Hp. unfold add_prereq. cbn [fst snd].
      rewrite elem_of_union, elem_of_singleton, elem_of_cons.
      split.
      * intros [[E | H] | [Hc Hq]]; [injection E as -> ->; tauto | tauto | tauto].
      * intros [H | [Hc [-> | Hq]]]; [tauto | subst c; tauto | tauto].
Qed.

Lemma found_in_elements (unit_code raw q : string) :
  q ∈ elements (found_in unit_code raw) <->
  q ∈ findall_codes raw /\ q <> unit_code.
Proof.
  rewrite elem_of_elements. unfold found_in.
  rewrite elem_of_difference, elem_of_list_to_set, elem_of_singleton. tauto.
Qed.

(** The three tables after [save_rows]. *)
Lemma save_rows_units (unit_code title description : string) (unit_data : UnitData)
    (db : DB) (x : string) :
  units (save_rows unit_code title description unit_data db) !! x =
    if decide (x = unit_code)
    then Some (mkRow (PStr title) (PStr description)
                 (PInt (default 10 (ud_credit_points unit_data)))
                 (PInt (default 1 (ud_year_level unit_data)))
                 (PStr (default ""%string (ud_raw_prerequisites unit_data)))
                 (PStr (default ""%string (ud_raw_corequisites unit_data))))
    else match units db !! x with
         | Some r => Some r
         | None =>
             if decide (x ∈ findall_codes
                              (default ""%string (ud_raw_prerequisites unit_data)))
             then Some placeholder else None
         end.
Proof.
  unfold save_rows. cbn [units].
  match goal with
  | |- (fold_left _ ?l (?u, ?p)).1 !! _ = _ =>
      destruct (add_prereq_fold unit_code l u p) as [Hu _]
  end.
  rewrite Hu. destruct (decide (x = unit_code)) as [-> | Hne].
  - now rewrite lookup_insert_eq.
  - rewrite lookup_insert_ne by congruence.
    destruct (units db !! x); [reflexivity |].
    fold (found_in unit_code (default ""%string (ud_raw_prerequisites unit_data))).
    destruct (decide (x ∈ elements _)) as [H | H], (decide (x ∈ findall_codes _))
      as [H' | H']; try reflexivity; exfalso.
    + apply found_in_elements in H. tauto.
    + apply H, found_in_elements. tauto.
Qed.

Lemma save_rows_prerequisites (unit_code title description : string)
    (unit_data : UnitData) (db : DB) (c q : string) :
  (c, q) ∈ prerequisites (save_rows unit_code title description unit_data db) <->
  (c <> unit_code /\ (c, q) ∈ prerequisites db) \/
  (c = unit_code /\ q <> unit_code /\
   q ∈ findall_codes (default ""%string (ud_raw_prerequisites unit_data))).
Proof.
  unfold save_rows. cbn [prerequisites].
  match goal with
  | |- _ ∈ (fold_left _ ?l (?u, ?p)).2 <-> _ =>
      destruct (add_prereq_fold unit_code l u p) as [_ Hp]
  end.
  rewrite Hp, elem_of_filter.
  fold (found_in unit_code (default ""%string (ud_raw_prerequisites unit_data))).
  rewrite found_in_elements. cbn [fst]. tauto.
Qed.

Lemma save_rows_outcomes (unit_code title description : string)
    (unit_data : UnitData) (db : DB) :
  learning_outcomes (save_rows unit_code title description unit_data db) =
    filter (fun r => r.1 <> unit_code) (learning_outcomes db)
      ++ ((fun outcome => (unit_code, outcome))
            <$> default [] (ud_learning_outcomes unit_data)).
Proof. reflexivity. Qed.

Lemma save_unit_rows (unit_data : UnitData) (db : DB)
    (unit_code title description : string) :
  ud_unit_code unit_data = Some unit_code ->
  ud_title unit_data = Some title ->
  ud_description unit_data = Some description ->
  storable unit_data = true ->
  save_unit unit_data db = save_rows unit_code title description unit_data db.
Proof. intros Hc Ht Hd Hs. unfold save_unit. now rewrite Hc, Ht, Hd, Hs. Qed.

(** [save_unit] either changes nothing or runs its statements. *)
Lemma save_unit_cases (unit_data : UnitData) (db : DB) :
  save_unit unit_data db = db \/
  exists unit_code title description,
    ud_unit_code unit_data = Some unit_code /\
    save_unit unit_data db = save_rows unit_code title description unit_data db.
Proof.
  unfold save_unit.
  destruct (ud_unit_code unit_data) as [unit_code |]; [| now left].
  destruct (ud_title unit_data) as [title |]; [| now left].
  destruct (ud_description unit_data) as [description |]; [| now left].
  cbn [getitem bind]. destruct (storable unit_data); [| now left].
  right. now exists unit_code, title, description.
Qed.

#[local] Instance text_le_total : Total text_le.
Proof. intros a b. apply String.leb_total. Qed.

Lemma by_key_elem (q : string) (keys : list string) : q ∈ by_key keys <-> q ∈ keys.
Proof. unfold by_key. now rewrite merge_sort_Permutation. Qed.

Lemma by_key_NoDup (keys : list string) : NoDup keys -> NoDup (by_key keys).
Proof. unfold by_key. now rewrite merge_sort_Permutation. Qed.

Lemma by_key_Sorted (keys : list string) : Sorted text_le (by_key keys).
Proof. apply Sorted_merge_sort, _. Qed.

Lemma filter_other_then_own (c : string) (l : list (string * string)) :
  filter (fun r => r.1 = c) (filter (fun r => r.1 <> c) l) = [].
Proof.
  induction l as [| r l IH]; [reflexivity |].
  rewrite (filter_cons (fun r => r.1 <> c)).
  destruct (decide (r.1 <> c)) as [Hne | He]; [| exact IH].
  rewrite filter_cons. destruct (decide (r.1 = c)); [contradiction | exact IH].
Qed.

Lemma filter_own_tagged (c : string) (outs : list string) :
  filter (fun r : string * string => r.1 = c) ((fun o => (c, o)) <$> outs)
    = (fun o => (c, o)) <$> outs.
Proof.
  induction outs as [| o outs IH]; [reflexivity |].
  cbn [fmap list_fmap]. rewrite filter_cons. cbn [fst].
  destruct (decide (c = c)); [| contradiction]. f_equal. exact IH.
Qed.

Lemma filter_stranger (c x : string) (l : list (string * string)) (outs : list string) :
  x <> c ->
  filter (fun r => r.1 = x)
    (filter (fun r => r.1 <> c) l ++ ((fun o => (c, o)) <$> outs))
    = filter (fun r => r.1 = x) l.
Proof.
  intros Hne. rewrite filter_app.
  assert (Htag : filter (fun r : string * string => r.1 = x) ((fun o => (c, o)) <$> outs)
                 = []).
  { induction outs as [| o outs IH]; [reflexivity |].
    cbn [fmap list_fmap]. rewrite filter_cons. cbn [fst].
    destruct (decide (c = x)); [congruence | exact IH]. }
  rewrite Htag, app_nil_r.
  induction l as [| r l IH]; [reflexivity |].
  rewrite (filter_cons (fun r => r.1 <> c)), (filter_cons (fun r => r.1 = x)).
  destruct (decide (r.1 <> c)) as [H1 | H1], (decide (r.1 = x)) as [H2 | H2].
  - rewrite filter_cons. destruct (decide (r.1 = x)); [| contradiction].
    now rewrite IH.
  - rewrite filter_cons. destruct (decide (r.1 = x)); [contradiction | exact IH].
  - exfalso. apply H1. congruence.
  - exact IH.
Qed.

Lemma prerequisites_of (db : DB) (c q : string) :
  q ∈ by_key (snd <$> elements (filter (fun r => r.1 = c) (prerequisites db))) <->
  (c, q) ∈ prerequisites db.
Proof.
  rewrite by_key_elem, list_elem_of_fmap. split.
  - intros ([c' q'] & -> & H). apply elem_of_elements, elem_of_filter in H as [E H].
    cbn in E. now subst c'.
  - intros H. exists (c, q). split; [reflexivity |].
    apply elem_of_elements, elem_of_filter. now split.
Qed.

Lemma prerequisites_of_NoDup (db : DB) (c : string) :
  NoDup (by_key (snd <$> elements (filter (fun r => r.1 = c) (prerequisites db)))).
Proof.
  apply by_key_NoDup, NoDup_fmap_2_strong; [| apply NoDup_elements].
  intros [c1 q1] [c2 q2] H1 H2 E. cbn in E. subst q2.
  apply elem_of_elements, elem_of_filter in H1 as [E1 _].
  apply elem_of_elements, elem_of_filter in H2 as [E2 _].
  cbn in E1, E2. congruence.
Qed.

Lemma saved_unit_prerequisites (unit_data : UnitData) (db : DB)
    (unit_code title description : string) :
  ud_unit_code unit_data = Some unit_code ->
  ud_title unit_data = Some title ->
  ud_description unit_data = Some description ->
  storable unit_data = true ->
  exists unit,
    get_unit unit_code (save_unit unit_data db) = Some unit /\
    (forall q, q ∈ d_prerequisites unit <->
       q ∈ findall_codes (default ""%string (ud_raw_prerequisites unit_data))
       /\ q <> unit_code).
Proof.
  intros Hc Ht Hd Hs. rewrite (save_unit_rows _ _ _ _ _ Hc Ht Hd Hs).
  unfold get_unit. rewrite save_rows_units.
  destruct (decide (unit_code = unit_code)); [| contradiction].
  eexists. split; [reflexivity |]. cbn [d_prerequisites].
  intros q. rewrite prerequisites_of, save_rows_prerequisites. tauto.
Qed.

(** Round trip. A unit saved with its three required keys, and with
    credit points and a year level that fit in 64 bits, is read back by
    [get_unit] with the saved title and description, the defaults 10, 1
    and the empty string for the keys that were missing, the learning
    outcomes in the saved order whatever outcomes it had before, and as
    prerequisites, each once and in the order of the codes, the unit
    codes found in the raw prerequisite text other than its own. *)
Theorem save_then_get (unit_data : UnitData) (db : DB)
    (unit_code title description : string) :
  ud_unit_code unit_data = Some unit_code ->
  ud_title unit_data = Some title ->
  ud_description unit_data = Some description ->
  storable unit_data = true ->
  exists unit,
    get_unit unit_code (save_unit unit_data db) = Some unit /\
    d_unit_code unit = unit_code /\
    d_row unit =
      mkRow (PStr title) (PStr description)
        (PInt (default 10 (ud_credit_points unit_data)))
        (PInt (default 1 (ud_year_level unit_data)))
        (PStr (default ""%string (ud_raw_prerequisites unit_data)))
        (PStr (default ""%string (ud_raw_corequisites unit_data))) /\
    d_learning_outcomes unit = default [] (ud_learning_outcomes unit_data) /\
    NoDup (d_prerequisites unit) /\
    Sorted text_le (d_prerequisites unit) /\
    (forall q, q ∈ d_prerequisites unit <->
       q ∈ findall_codes (default ""%string (ud_raw_prerequisites unit_data))
       /\ q <> unit_code).
Proof.
  intros Hc Ht Hd Hs. rewrite (save_unit_rows _ _ _ _ _ Hc Ht Hd Hs).
  unfold get_unit. rewrite save_rows_units.
  destruct (decide (unit_code = unit_code)); [| contradiction].
  eexists. split; [reflexivity |]. cbn [d_unit_code d_row d_learning_outcomes
    d_prerequisites]. split; [reflexivity |]. split; [reflexivity |].
  split; [| split; [| split]].
  - rewrite save_rows_outcomes, filter_app, filter_other_then_own, filter_own_tagged.
    cbn [app]. rewrite <- list_fmap_compose. apply list_fmap_id.
  - apply prerequisites_of_NoDup.
  - apply by_key_Sorted.
  - intros q. rewrite prerequisites_of, save_rows_prerequisites. tauto.
Qed.

Lemma save_then_get_witness :
  exists unit,
    get_unit "COMP2000"
      (save_unit
         (mkUnitData (Some "COMP2000"%string) (Some "Data"%string)
            (Some "Structures"%string) None None
            (Some "COMP1000 and COMP1010, not COMP2000"%string) None
            (Some ["Use lists"%string]))
         init_db) = Some unit /\
    d_unit_code unit = "COMP2000"%string /\
    d_row unit =
      mkRow (PStr "Data") (PStr "Structures") (PInt 10) (PInt 1)
        (PStr "COMP1000 and COMP1010, not COMP2000") (PStr "") /\
    d_learning_outcomes unit = ["Use lists"%string] /\
    NoDup (d_prerequisites unit) /\
    Sorted text_le (d_prerequisites unit) /\
    (forall q, q ∈ d_prerequisites unit <->
       q ∈ findall_codes "COMP1000 and COMP1010, not COMP2000"
       /\ q <> "COMP2000"%string).
Proof.
  apply (save_then_get
           (mkUnitData (Some "COMP2000"%string) (Some "Data"%string)
              (Some "Structures"%string) None None
              (Some "COMP1000 and COMP1010, not COMP2000"%string) None
              (Some ["Use lists"%string]))
           init_db "COMP2000" "Data" "Structures"); reflexivity.
Defined.

(** Frame. Saving a unit leaves every other unit of the database as
    [get_unit] read it before: its row is not overwritten, not even by a
    placeholder, and its outcomes and prerequisites stay. *)
Theorem save_leaves_other_units (unit_data : UnitData) (db : DB) (other : string) :
  ud_unit_code unit_data <> Some other ->
  is_Some (units db !! other) ->
  get_unit other (save_unit unit_data db) = get_unit other db.
Proof.
  intros Hne [row Hrow].
  destruct (save_unit_cases unit_data db)
    as [-> | (unit_code & title & description & Hc & ->)]; [reflexivity |].
  assert (Hx : other <> unit_code) by congruence.
  unfold get_unit. rewrite save_rows_units, Hrow.
  destruct (decide (other = unit_code)); [contradiction |].
  rewrite save_rows_outcomes, filter_stranger by exact Hx.
  assert (Hset : filter (fun r => r.1 = other)
                   (prerequisites (save_rows unit_code title description unit_data db))
                 = filter (fun r => r.1 = other) (prerequisites db)).
  { apply set_eq. intros [c q].
    rewrite !elem_of_filter, save_rows_prerequisites. cbn [fst].
    split; [intros [-> [[_ H] | [H _]]]; [tauto | contradiction]
           | intros [-> H]; tauto]. }
  now rewrite Hset.
Qed.

Lemma save_leaves_other_units_witness :
  get_unit "COMP1000"
    (save_unit
       (mkUnitData (Some "COMP2000"%string) (Some "Data"%string)
          (Some "Structures"%string) None None (Some "COMP1000"%string) None None)
       (save_unit
          (mkUnitData (Some "COMP1000"%string) (Some "Intro"%string)
             (Some "Programming"%string) None None None None None)
          init_db))
  = get_unit "COMP1000"
      (save_unit
         (mkUnitData (Some "COMP1000"%string) (Some "Intro"%string)
            (Some "Programming"%string) None None None None None)
         init_db).
Proof.
  apply save_leaves_other_units; [discriminate |].
  vm_compute. eexists. reflexivity.
Defined.

Lemma db_eq (a b : DB) :
  units a = units b -> learning_outcomes a = learning_outcomes b ->
  prerequisites a = prerequisites b -> a = b.
Proof. destruct a, b. cbn. now intros -> -> ->. Qed.

(** Saving the same unit twice is saving it once. *)
Theorem save_unit_idempotent (unit_data : UnitData) (db : DB) :
  save_unit unit_data (save_unit unit_data db) = save_unit unit_data db.
Proof.
  unfold save_unit.
  destruct (ud_unit_code unit_data) as [unit_code |]; [| reflexivity].
  destruct (ud_title unit_data) as [title |]; [| reflexivity].
  destruct (ud_description unit_data) as [description |]; [| reflexivity].
  cbn [getitem bind]. destruct (storable unit_data); [| reflexivity].
  apply db_eq.
  - apply map_eq. intros x. rewrite !save_rows_units.
    destruct (decide (x = unit_code)); [reflexivity |].
    destruct (units db !! x); [reflexivity |].
    now destruct (decide (x ∈ findall_codes _)).
  - rewrite !save_rows_outcomes, filter_app.
    assert (H : forall outs : list string,
              filter (fun r : string * string => r.1 <> unit_code)
                ((fun o => (unit_code, o)) <$> outs) = []).
    { induction outs as [| o outs IH]; [reflexivity |].
      cbn [fmap list_fmap]. rewrite filter_cons. cbn [fst].
      destruct (decide (unit_code <> unit_code)); [contradiction | exact IH]. }
    rewrite H, app_nil_r.
    rewrite (list_filter_filter (fun r => r.1 <> unit_code) (fun r => r.1 <> unit_code)).
    f_equal. apply list_filter_iff. tauto.
  - apply set_eq. intros [c q]. rewrite !save_rows_prerequisites. tauto.
Qed.

(** Integrity. In a database where both ends of every prerequisite link
    are units and no unit is its own prerequisite, this still holds after
    [save_unit], for every argument: the unknown codes of the raw text get
    a placeholder row, and the unit's own code is dropped. *)
Theorem save_unit_keeps_integrity (unit_data : UnitData) (db : DB) :
  integrity db -> integrity (save_unit unit_data db).
Proof.
  intros Hdb.
  destruct (save_unit_cases unit_data db)
    as [-> | (unit_code & title & description & _ & ->)]; [exact Hdb |].
  intros c q Hcq.
  assert (Hkeep : forall x, is_Some (units db !! x) ->
            is_Some (units (save_rows unit_code title description unit_data db) !! x)).
  { intros x [r Hr]. rewrite save_rows_units, Hr.
    destruct (decide (x = unit_code)); eauto. }
  apply save_rows_prerequisites in Hcq as [[Hc Hold] | (-> & Hq & Hfound)].
  - destruct (Hdb c q Hold) as (H1 & H2 & H3). auto.
  - split; [| split; [| congruence]].
    + rewrite save_rows_units. destruct (decide (unit_code = unit_code)); eauto.
      contradiction.
    + rewrite save_rows_units. destruct (decide (q = unit_code)); [contradiction |].
      destruct (units db !! q); [eauto |].
      destruct (decide (q ∈ findall_codes _)); [eauto | contradiction].
Qed.

Lemma save_unit_keeps_integrity_witness :
  integrity
    (save_unit
       (mkUnitData (Some "COMP2000"%string) (Some "Data"%string)
          (Some "Structures"%string) None None
          (Some "COMP1000 and COMP2000"%string) None None)
       init_db).
Proof.
  apply save_unit_keeps_integrity. intros c q H. cbn in H.
  now apply elem_of_empty in H.
Defined.

(** A unit saved with a raw prerequisite text (and with integers that
    fit in 64 bits, so that it is saved) is, for [check_prereqs], open
    to exactly the students who completed every unit code that
    occurs in the text, other than the unit's own: the words between the
    codes ("or", "and") play no part.  The missing list holds the codes
    not completed. *)
Theorem saved_unit_eligibility (unit_data : UnitData) (db : DB)
    (unit_code title description : string) (completed_units : list string) :
  ud_unit_code unit_data = Some unit_code ->
  ud_title unit_data = Some title ->
  ud_description unit_data = Some description ->
  storable unit_data = true ->
  let raw := default ""%string (ud_raw_prerequisites unit_data) in
  let r := Logic.check_prereqs completed_units unit_code (save_unit unit_data db) in
  (Logic.eligible r = true <->
     forall q, q ∈ findall_codes raw -> q <> unit_code -> q ∈ completed_units) /\
  (forall q, q ∈ Logic.missing r <->
     q ∈ findall_codes raw /\ q <> unit_code /\ q ∉ completed_units) /\
  Logic.error r = None.
Proof.
  intros Hc Ht Hd Hs raw r. subst r.
  destruct (saved_unit_prerequisites unit_data db unit_code title description
              Hc Ht Hd Hs) as (unit & Hget & Hpre).
  unfold Logic.check_prereqs. rewrite Hget.
  cbn [Logic.eligible Logic.missing Logic.error].
  assert (Hmiss : forall q,
            q ∈ filter (fun p => p ∉ completed_units)
                  (filter (fun p => p <> unit_code) (d_prerequisites unit)) <->
            q ∈ findall_codes raw /\ q <> unit_code /\ q ∉ completed_units).
  { intros q. rewrite !list_elem_of_filter, Hpre. fold raw. tauto. }
  split; [| split; [exact Hmiss | reflexivity]].
  rewrite bool_decide_eq_true, length_zero_iff_nil. split.
  - intros Hnil q Hq Hne. destruct (decide (q ∈ completed_units)) as [|Hn]; [assumption |].
    assert (Hin : q ∈ @nil string) by (rewrite <- Hnil; apply Hmiss; tauto).
    inversion Hin.
  - intros Hall.
    destruct (filter _ (filter _ (d_prerequisites unit))) as [| q rest] eqn:E;
      [reflexivity |].
    assert (Hq : q ∈ q :: rest) by (now left).
    apply Hmiss in Hq as (Hq & Hne & Hn).
    exfalso. apply Hn. now apply Hall.
Qed.

Lemma saved_unit_eligibility_witness :
  let unit_data :=
    mkUnitData (Some "COMP2000"%string) (Some "Data"%string)
      (Some "Structures"%string) None None
      (Some "COMP1000 or COMP1010"%string) None None in
  let r := Logic.check_prereqs ["COMP1000"%string] "COMP2000"
             (save_unit unit_data init_db) in
  (Logic.eligible r = true <->
     forall q, q ∈ findall_codes "COMP1000 or COMP1010" -> q <> "COMP2000"%string ->
               q ∈ ["COMP1000"%string]) /\
  (forall q, q ∈ Logic.missing r <->
     q ∈ findall_codes "COMP1000 or COMP1010" /\ q <> "COMP2000"%string
     /\ q ∉ ["COMP1000"%string]) /\
  Logic.error r = None.
Proof.
  apply (saved_unit_eligibility
           (mkUnitData (Some "COMP2000"%string) (Some "Data"%string)
              (Some "Structures"%string) None None
              (Some "COMP1000 or COMP1010"%string) None None)
           init_db "COMP2000" "Data" "Structures" ["COMP1000"%string]);
    reflexivity.
Defined.

Lemma gather_member {A : Type} (docs : A -> result (list candidate))
    (items : list A) (item : A) (l : list candidate) (c : candidate) :
  (gather docs items).2 = None -> item ∈ items -> docs item = Ok l -> c ∈ l ->
  c ∈ (gather docs items).1.
Proof.
  intros Hok Hitem Hdocs Hc. induction items as [| x rest IH]; [inversion Hitem |].
  cbn in *. destruct (docs x) as [lx |] eqn:Ex; [| discriminate].
  destruct (gather docs rest) as [l' e']. cbn [fst snd] in *.
  apply elem_of_app. apply elem_of_cons in Hitem as [-> | Hitem].
  - left. congruence.
  - right. now apply IH.
Qed.

Lemma get_unit_row (c : string) (db : DB) (d : UnitDict) :
  get_unit c db = Some d -> units db !! c = Some (d_row d) /\ d_unit_code d = c.
Proof.
  unfold get_unit. destruct (units db !! c); [| discriminate].
  intros [= <-]. now split.
Qed.

Lemma get_all_units_member (db : DB) (unit_code : string) (row : UnitRow) :
  units db !! unit_code = Some row ->
  exists unit, get_unit unit_code db = Some unit /\
               d_unit_code unit = unit_code /\ d_row unit = row /\
               (unit_code, unit) ∈ get_all_units db.
Proof.
  intros Hrow. unfold get_all_units.
  assert (Hget : exists unit, get_unit unit_code db = Some unit /\
                   d_unit_code unit = unit_code /\ d_row unit = row)
    by (unfold get_unit; rewrite Hrow; eauto).
  destruct Hget as (unit & Hget & Hcode & Hr). exists unit.
  repeat (split; [assumption |]).
  apply list_elem_of_omap. exists unit_code. split.
  - apply by_key_elem, list_elem_of_fmap. exists (unit_code, row).
    split; [reflexivity |]. now apply elem_of_map_to_list.
  - now rewrite Hget, Hcode.
Qed.

(** [ingest_units] on the units of the database never raises: every dict
    of [get_unit] has its title and description keys.  Every row of
    [units], placeholder rows included, has its description document
    offered: its id is among the seen ids afterwards. *)
Theorem ingest_from_database (db : DB) (self : RAGSystem) :
  (ingest_units_from db self).2 = None /\
  (forall unit_code row,
     units db !! unit_code = Some row ->
     exists unit,
       get_unit unit_code db = Some unit /\
       _generate_doc_id
         (desc_text unit_code (as_unit unit) (row_title row) (row_description row))
         (unit_meta unit_code)
       ∈ indexed_ids (ingest_units_from db self).1).
Proof.
  unfold ingest_units_from. rewrite ingest_units_run.
  set (items := (fun item => (item.1, as_unit item.2)) <$> get_all_units db).
  assert (Hok : (gather unit_docs items).2 = None).
  { apply gather_complete, Forall_forall. intros [c u] Hin.
    apply list_elem_of_fmap in Hin as ([c' d] & E & _). injection E as -> ->.
    cbn. eauto. }
  split; [rewrite Hok; apply run_outcome |].
  intros unit_code row Hrow.
  destruct (get_all_units_member db unit_code row Hrow) as (unit & Hget & _ & Hr & Hin).
  exists unit. split; [exact Hget |].
  rewrite run_ids. apply elem_of_union. right. unfold ids.
  apply elem_of_list_to_set.
  apply (list_elem_of_fmap_2' candidate_id _
           (desc_text unit_code (as_unit unit) (row_title row) (row_description row),
            unit_meta unit_code)); [| reflexivity].
  eapply (gather_member unit_docs items (unit_code, as_unit unit)); [exact Hok | | |].
  - apply list_elem_of_fmap. exists (unit_code, unit). split; [reflexivity | exact Hin].
  - cbn. rewrite Hr. reflexivity.
  - now left.
Qed.

Lemma get_all_units_keys (db : DB) :
  (get_all_units db).*1 = by_key (map_to_list (units db)).*1.
Proof.
  unfold get_all_units.
  assert (H : Forall (fun k => is_Some (units db !! k))
                (by_key (map_to_list (units db)).*1)).
  { apply Forall_forall. intros k Hk.
    apply by_key_elem, list_elem_of_fmap in Hk as ([k' r] & -> & Hk).
    apply elem_of_map_to_list in Hk. cbn. eauto. }
  induction H as [| k keys [r Hr] _ IH]; [reflexivity |].
  cbn [omap list_omap]. unfold get_unit at 1. rewrite Hr.
  cbn [d_unit_code fmap list_fmap fst]. f_equal. exact IH.
Qed.

(** [get_all_units] has every row of [units] once, placeholder rows
    included, under its own code and as [get_unit] reads it, in the order
    of the codes. *)
Theorem get_all_units_complete (db : DB) :
  NoDup (get_all_units db).*1 /\
  (forall c unit, (c, unit) ∈ get_all_units db <-> get_unit c db = Some unit) /\
  (forall c, c ∈ (get_all_units db).*1 <-> is_Some (units db !! c)) /\
  Sorted text_le (get_all_units db).*1.
Proof.
  split; [| split; [| split]].
  - rewrite get_all_units_keys. apply by_key_NoDup, NoDup_fst_map_to_list.
  - intros c unit. unfold get_all_units. rewrite list_elem_of_omap. split.
    + intros (k & _ & Hk). destruct (get_unit k db) as [u |] eqn:E; [| discriminate].
      injection Hk as <- <-. apply get_unit_row in E as E'. destruct E' as [_ ->].
      exact E.
    + intros E. exists c. apply get_unit_row in E as E'. destruct E' as [Hrow Hc].
      split.
      * apply by_key_elem, list_elem_of_fmap. exists (c, d_row unit).
        split; [reflexivity |]. now apply elem_of_map_to_list.
      * now rewrite E, Hc.
  - intros c. rewrite get_all_units_keys, by_key_elem. split.
    + intros Hc. apply list_elem_of_fmap in Hc as ([k r] & -> & Hk).
      apply elem_of_map_to_list in Hk. cbn. eauto.
    + intros [r Hr]. apply list_elem_of_fmap. exists (c, r). split; [reflexivity |].
      now apply elem_of_map_to_list.
  - rewrite get_all_units_keys. apply by_key_Sorted.
Qed.

End UnitDatabase.

(* ===================================================================== *)
(** ** The endpoints *)
(* ===================================================================== *)

Section Endpoints.

Import PyStr Float Rag Database Api.

Lemma chr_code (a : ascii) : chr (code a) = a.
Proof. unfold chr, code. now rewrite Nat2Z.id, ascii_nat_embedding. Qed.

Lemma code_at_points_string (s : string) :
  code_at_points (points s) = code_at s.
Proof.
  destruct s as [| a [| b [| c [| d [| e [| f [| g [| h r]]]]]]]]; try reflexivity.
  unfold points. cbn [list_ascii_of_string fmap list_fmap code_at_points code_at].
  unfold is_upper, is_digit, in_A_Z, in_d.
  destruct (_ && _ && _ && _ && _ && _ && _ && _); [| reflexivity].
  cbn [fmap list_fmap string_of_list_ascii slice]. now rewrite !chr_code.
Qed.

Lemma findall_points_go_string (s : string) (skip : nat) :
  findall_points_go skip (points s) = findall_go skip s.
Proof.
  revert skip. induction s as [| a r IH]; intros skip; [reflexivity |].
  change (points (String a r)) with (code a :: points r).
  cbn [findall_points_go findall_go]. destruct skip as [| k]; [| apply IH].
  change (code a :: points r) with (points (String a r)).
  rewrite code_at_points_string. destruct (code_at (String a r)); now rewrite IH.
Qed.

Lemma findall_points_string (s : string) :
  findall_points (points s) = findall_codes s.
Proof. apply findall_points_go_string. Qed.

Lemma latin1_points (s : string) : latin1 (points s) = Some s.
Proof.
  induction s as [| a r IH]; [reflexivity |].
  change (points (String a r)) with (code a :: points r). cbn [latin1].
  assert (H : 0 <= code a < 256).
  { unfold code. pose proof (nat_ascii_bounded a). lia. }
  destruct (Z.leb_spec 0 (code a)); [| lia].
  destruct (Z.ltb_spec (code a) 256); [| lia].
  cbn [andb]. now rewrite IH, chr_code.
Qed.

Lemma upper_point_fixed (n : Z) : n < 97 -> upper_point n = [n].
Proof.
  intros H. unfold upper_point.
  replace (97 <=? n) with false by (symmetry; apply Z.leb_gt; lia).
  replace (n =? 181) with false by (symmetry; apply Z.eqb_neq; lia).
  replace (n =? 223) with false by (symmetry; apply Z.eqb_neq; lia).
  replace (n =? 255) with false by (symmetry; apply Z.eqb_neq; lia).
  replace (224 <=? n) with false by (symmetry; apply Z.leb_gt; lia).
  reflexivity.
Qed.

Lemma in_A_Z_small (n : Z) : in_A_Z n = true -> n < 97.
Proof. unfold in_A_Z. rewrite andb_true_iff, !Z.leb_le. lia. Qed.

Lemma in_d_small (n : Z) : in_d n = true -> n < 97.
Proof. unfold in_d. rewrite andb_true_iff, !Z.leb_le. lia. Qed.

(** A unit code is its own upper case, and the only code found in it. *)
Lemma unit_code_fixed (c : string) :
  is_unit_code c ->
  str_upper c = points c /\ findall_codes c = [c].
Proof.
  unfold is_unit_code. intros H.
  assert (Hall : findall_codes c = [c]).
  { unfold findall_codes.
    destruct c as [| a [| b [| c [| d [| e [| f [| g [| h r]]]]]]]]; try discriminate.
    cbn [findall_go]. rewrite H. f_equal.
    assert (r = EmptyString) as ->.
    { cbn [code_at] in H. destruct (_ && _); [| discriminate].
      cbn [slice] in H. now injection H. }
    reflexivity. }
  split; [| exact Hall].
  destruct c as [| a [| b [| c [| d [| e [| f [| g [| h r]]]]]]]]; try discriminate.
  cbn [code_at] in H.
  destruct (is_upper a) eqn:Ea; [| discriminate].
  destruct (is_upper b) eqn:Eb; [| discriminate].
  destruct (is_upper c) eqn:Ec; [| discriminate].
  destruct (is_upper d) eqn:Ed; [| discriminate].
  destruct (is_digit e) eqn:Ee; [| discriminate].
  destruct (is_digit f) eqn:Ef; [| discriminate].
  destruct (is_digit g) eqn:Eg; [| discriminate].
  destruct (is_digit h) eqn:Eh; [| discriminate].
  cbn [andb slice] in H.
  assert (r = EmptyString) as -> by now injection H.
  unfold str_upper, upper_points, points.
  cbn [list_ascii_of_string fmap list_fmap mbind list_bind].
  rewrite !upper_point_fixed
    by ((apply in_A_Z_small; assumption) || (apply in_d_small; assumption)).
  reflexivity.
Qed.

Context {W : Type}.
Variable search : index.
Variable search_unit : web W.

Lemma titled_spec (o : option UnitDict) (d : UnitDict) :
  titled o = Some d ->
  o = Some d /\ truthy_value (row_title (d_row d)) = true /\
  row_title (d_row d) <> PStr "Placeholder Unit".
Proof.
  destruct o as [d' |]; [| discriminate]. cbn [titled].
  destruct (truthy_value _) eqn:E; [| discriminate].
  case_bool_decide; [discriminate |]. cbn [negb andb]. intros [= ->]. auto.
Qed.

Lemma save_unit_described (unit_data : UnitData) (db : DB) :
  described db -> described (save_unit unit_data db).
Proof.
  intros Hdb.
  destruct (save_unit_cases unit_data db)
    as [-> | (unit_code & title & description & _ & ->)]; [exact Hdb |].
  intros c row Hrow Hne Htr.
  rewrite save_rows_units in Hrow. destruct (decide (c = unit_code)).
  - injection Hrow as <-. now exists description.
  - destruct (units db !! c) as [r |] eqn:Er.
    + injection Hrow as <-. now apply (Hdb c r).
    + destruct (decide (c ∈ _)); [| discriminate].
      injection Hrow as <-. now contradiction Hne.
Qed.

(** The unit that was saved from a live result is read back with the
    live row and outcomes. *)
Lemma live_storable (live : LiveData) : storable (live_unit_data live) = true.
Proof.
  pose proof (live_bounded live) as H. unfold storable, sqlite_int. cbn.
  rewrite !andb_true_iff, !Z.leb_le in H. rewrite !andb_true_iff, !Z.leb_le, !Z.ltb_lt.
  lia.
Qed.

Lemma live_saved (live : LiveData) (db : DB) :
  exists d,
    get_unit (live_unit_code live) (save_unit (live_unit_data live) db) = Some d /\
    d_row d = d_row (live_dict live) /\
    d_learning_outcomes d = live_learning_outcomes live.
Proof.
  rewrite (save_unit_rows _ _ (live_unit_code live) (live_title live)
             (live_description live)) by (reflexivity || apply live_storable).
  unfold get_unit. rewrite save_rows_units.
  destruct (decide (live_unit_code live = live_unit_code live)); [| contradiction].
  eexists. split; [reflexivity |]. cbn [d_row d_learning_outcomes live_dict].
  split; [reflexivity |].
  rewrite save_rows_outcomes, filter_app, filter_other_then_own, filter_own_tagged.
  cbn [app]. rewrite <- list_fmap_compose. apply list_fmap_id.
Qed.

(** [get_unit_with_live_first] never answers with a placeholder or an
    untitled row of the database; what it answers from the web it has
    saved, and the saved unit is read back with the same row and
    learning outcomes; and when it finds nothing the database is as
    before. *)
Theorem live_first_answer (unit_code : list Z) (use_cache : bool) (st : W * DB) :
  let r := get_unit_with_live_first search_unit unit_code use_cache st in
  match r.1 with
  | None => r.2.2 = st.2
  | Some f =>
      (found_source f = Some "live_web"%string /\
       exists d,
         get_unit (d_unit_code (found_unit f)) r.2.2 = Some d /\
         d_row d = d_row (found_unit f) /\
         d_learning_outcomes d = d_learning_outcomes (found_unit f))
      \/
      (found_source f <> Some "live_web"%string /\
       r.2.2 = st.2 /\
       get_unit_points (upper_points unit_code) st.2 = Some (found_unit f) /\
       truthy_value (row_title (d_row (found_unit f))) = true /\
       row_title (d_row (found_unit f)) <> PStr "Placeholder Unit")
  end.
Proof.
  destruct st as [w db]. unfold get_unit_with_live_first. cbn [fst snd].
  set (u := upper_points unit_code).
  assert (Hdb : forall (src : option string) (w1 : W),
            src <> Some "live_web"%string ->
            match (match titled (get_unit_points u db) with
                   | Some unit_data => (Some (mkFound unit_data src), (w1, db))
                   | None => (None, (w1, db))
                   end).1 with
            | None => True
            | Some f =>
                found_source f <> Some "live_web"%string /\
                get_unit_points u db = Some (found_unit f) /\
                truthy_value (row_title (d_row (found_unit f))) = true /\
                row_title (d_row (found_unit f)) <> PStr "Placeholder Unit"
            end).
  { intros src w1 Hsrc. destruct (titled (get_unit_points u db)) as [d |] eqn:E;
      [| exact I].
    apply titled_spec in E as (E1 & E2 & E3). cbn. auto. }
  assert (Hlive : let r := live_then_database search_unit u w db in
            match r.1 with
            | None => r.2.2 = db
            | Some f =>
                (found_source f = Some "live_web"%string /\
                 exists d,
                   get_unit (d_unit_code (found_unit f)) r.2.2 = Some d /\
                   d_row d = d_row (found_unit f) /\
                   d_learning_outcomes d = d_learning_outcomes (found_unit f))
                \/
                (found_source f <> Some "live_web"%string /\
                 r.2.2 = db /\
                 get_unit_points u db = Some (found_unit f) /\
                 truthy_value (row_title (d_row (found_unit f))) = true /\
                 row_title (d_row (found_unit f)) <> PStr "Placeholder Unit")
            end).
  { unfold live_then_database. destruct (search_unit u w) as [live_data w1].
    pose proof (Hdb (Some "database_fallback"%string) w1 ltac:(discriminate)) as Hf.
    destruct live_data as [live |].
    - destruct (String.eqb (live_unit_code live) "").
      + destruct (titled (get_unit_points u db)); cbn in *; [right; tauto | reflexivity].
      + cbn. left. split; [reflexivity |]. apply live_saved.
    - destruct (titled (get_unit_points u db)); cbn in *; [right; tauto | reflexivity]. }
  destruct use_cache; [| exact Hlive].
  pose proof (Hdb None w ltac:(discriminate)) as Hc.
  destruct (titled (get_unit_points u db)); [| exact Hlive].
  cbn in *. right. tauto.
Qed.

(** What [get_unit] reads of a unit saved from a live result. *)
Lemma live_saved_unit (live : LiveData) (db : DB) :
  exists d,
    get_unit (live_unit_code live) (save_unit (live_unit_data live) db) = Some d /\
    d_row d = d_row (live_dict live) /\
    d_learning_outcomes d = live_learning_outcomes live /\
    (forall q, q ∈ d_prerequisites d <->
       q ∈ findall_codes (live_raw_prerequisites live) /\ q <> live_unit_code live).
Proof.
  destruct (live_saved live db) as (d & Hget & Hrow & Hout).
  destruct (saved_unit_prerequisites (live_unit_data live) db (live_unit_code live)
              (live_title live) (live_description live) eq_refl eq_refl eq_refl
              (live_storable live))
    as (d' & Hget' & Hpre).
  rewrite Hget in Hget'. injection Hget' as <-.
  exists d. repeat (split; [assumption |]). exact Hpre.
Qed.

(** A unit answered from the web is answered from the database the next
    time it is asked for with [use_cache], without a call of the web
    search: with the same row and learning outcomes, but with the
    prerequisites that [save_unit] found in the raw prerequisite text,
    not the list of the web search. *)
Theorem live_answer_then_cached (unit_code again : list Z) (use_cache : bool)
    (st st1 : W * DB) (f : Found) :
  get_unit_with_live_first search_unit unit_code use_cache st = (Some f, st1) ->
  found_source f = Some "live_web"%string ->
  truthy_value (row_title (d_row (found_unit f))) = true ->
  row_title (d_row (found_unit f)) <> PStr "Placeholder Unit" ->
  upper_points again = points (d_unit_code (found_unit f)) ->
  exists d raw,
    get_unit_with_live_first search_unit again true st1 = (Some (mkFound d None), st1) /\
    d_row d = d_row (found_unit f) /\
    d_learning_outcomes d = d_learning_outcomes (found_unit f) /\
    row_raw_prerequisites (d_row (found_unit f)) = PStr raw /\
    (forall q, q ∈ d_prerequisites d <->
       q ∈ findall_codes raw /\ q <> d_unit_code (found_unit f)).
Proof.
  intros Hcall Hsrc Ht Hp Hup.
  assert (Hlive : exists live w1,
            f = mkFound (live_dict live) (Some "live_web"%string) /\
            st1 = (w1, save_unit (live_unit_data live) st.2)).
  { destruct st as [w db]. unfold get_unit_with_live_first in Hcall. cbn [fst snd] in *.
    assert (Hl : live_then_database search_unit (upper_points unit_code) w db
                 = (Some f, st1) ->
                 exists live w1,
                   f = mkFound (live_dict live) (Some "live_web"%string) /\
                   st1 = (w1, save_unit (live_unit_data live) db)).
    { unfold live_then_database.
      destruct (search_unit (upper_points unit_code) w) as [live_data w1].
      assert (Hf : (match titled (get_unit_points (upper_points unit_code) db) with
                    | Some unit_data =>
                        (Some (mkFound unit_data (Some "database_fallback"%string)),
                         (w1, db))
                    | None => (None, (w1, db))
                    end) = (Some f, st1) -> False).
      { destruct (titled _); [| discriminate]. intros [= <- _].
        cbn in Hsrc. discriminate. }
      destruct live_data as [live |]; [| intros H; now apply Hf in H].
      destruct (String.eqb (live_unit_code live) ""); [intros H; now apply Hf in H |].
      intros [= <- <-]. eauto. }
    destruct use_cache; [| exact (Hl Hcall)].
    destruct (titled _); [| exact (Hl Hcall)].
    injection Hcall as <- _. cbn in Hsrc. discriminate. }
  destruct Hlive as (live & w1 & -> & ->). cbn [found_unit live_dict d_unit_code] in *.
  destruct (live_saved_unit live st.2) as (d & Hget & Hrow & Hout & Hpre).
  exists d, (live_raw_prerequisites live).
  unfold get_unit_with_live_first. cbn [fst snd]. rewrite Hup.
  unfold get_unit_points. rewrite latin1_points, Hget. cbn [titled].
  rewrite Hrow. cbn [d_row live_dict row_title] in *. rewrite Ht.
  case_bool_decide; [contradiction |]. cbn [negb andb].
  repeat (split; [reflexivity || assumption |]). exact Hpre.
Qed.

Lemma live_first_described (unit_code : list Z) (use_cache : bool) (st : W * DB) :
  described st.2 ->
  described (get_unit_with_live_first search_unit unit_code use_cache st).2.2.
Proof.
  destruct st as [w db]. cbn [snd]. intros Hdb.
  assert (Hlive : forall u, described (live_then_database search_unit u w db).2.2).
  { intros u. unfold live_then_database. destruct (search_unit u w) as [live_data w1].
    destruct live_data as [live |].
    - destruct (String.eqb (live_unit_code live) "").
      + now destruct (titled (get_unit_points u db)).
      + cbn [fst snd]. now apply save_unit_described.
    - now destruct (titled (get_unit_points u db)). }
  unfold get_unit_with_live_first. cbn [fst snd].
  destruct use_cache; [| apply Hlive].
  destruct (titled _); [exact Hdb | apply Hlive].
Qed.

Lemma titled_description (u : list Z) (db : DB) (d : UnitDict) :
  described db -> titled (get_unit_points u db) = Some d ->
  exists s, row_description (d_row d) = PStr s.
Proof.
  intros Hdb E. apply titled_spec in E as (E1 & E2 & E3).
  unfold get_unit_points in E1. destruct (latin1 u) as [c |]; [| discriminate].
  apply get_unit_row in E1 as [E1 _]. now apply (Hdb c (d_row d)).
Qed.

Lemma live_first_description (unit_code : list Z) (use_cache : bool) (st : W * DB)
    (f : Found) :
  described st.2 ->
  (get_unit_with_live_first search_unit unit_code use_cache st).1 = Some f ->
  exists s, row_description (d_row (found_unit f)) = PStr s.
Proof.
  destruct st as [w db]. cbn [snd]. intros Hdb.
  assert (Hlive : forall u,
            (live_then_database search_unit u w db).1 = Some f ->
            exists s, row_description (d_row (found_unit f)) = PStr s).
  { intros u. unfold live_then_database. destruct (search_unit u w) as [live_data w1].
    assert (Hf : (match titled (get_unit_points u db) with
                  | Some unit_data =>
                      (Some (mkFound unit_data (Some "database_fallback"%string)), (w1, db))
                  | None => (None, (w1, db))
                  end).1 = Some f ->
                 exists s, row_description (d_row (found_unit f)) = PStr s).
    { destruct (titled (get_unit_points u db)) as [d |] eqn:E; [| discriminate].
      cbn. intros [= <-]. cbn. now apply (titled_description u db). }
    destruct live_data as [live |]; [| exact Hf].
    destruct (String.eqb (live_unit_code live) ""); [exact Hf |].
    cbn. intros [= <-]. cbn. eauto. }
  unfold get_unit_with_live_first. cbn [fst snd].
  destruct use_cache; [| apply Hlive].
  destruct (titled _) as [d |] eqn:E; [| apply Hlive].
  cbn. intros [= <-]. cbn. now apply (titled_description (upper_points unit_code) db).
Qed.

Lemma live_steps (codes : list string) (acc : list Entry) (w : W) :
  exists live,
    (fold_left (live_step search_unit) codes (acc, w)).1 = acc ++ live /\
    (length live <= length codes)%nat /\
    Forall (live_result codes) live.
Proof.
  revert acc w. induction codes as [| code rest IH]; intros acc w.
  - exists []. cbn. now rewrite app_nil_r.
  - cbn [fold_left]. unfold live_step at 2. cbn [fst snd].
    destruct (search_unit (points code) w) as [live_data w1].
    assert (Hrest : forall live, Forall (live_result rest) live ->
                                 Forall (live_result (code :: rest)) live).
    { intros live Hl. eapply Forall_impl; [exact Hl |].
      intros e (H1 & H2 & H3 & H4 & c & Hc & H5).
      repeat (split; [assumption |]). exists c. split; [now right | assumption]. }
    destruct live_data as [live |].
    + destruct (IH (acc ++ [live_entry code live]) w1) as (l & E & Hlen & Hall).
      exists (live_entry code live :: l). rewrite E, <- app_assoc. split; [reflexivity |].
      split; [cbn [length]; lia |]. constructor; [| now apply Hrest].
      repeat (split; [reflexivity |]). exists code. split; [now left | reflexivity].
    + destruct (IH acc w1) as (l & E & Hlen & Hall).
      exists l. split; [exact E |]. split; [cbn [length]; lia | now apply Hrest].
Qed.

(** The response of [/rag/query] for a request that passed validation
    ([k >= 1]): [count] is the length of [results], at most three of
    them are live results, so there can be up to [k + 3] results, and
    the retrieval system is left as it was. *)
Theorem query_rag_counts (request : RAGQueryRequest) (rag_system : RAGSystem) (w : W) :
  1 <= rq_k request ->
  let out := query_rag search search_unit request rag_system w in
  let r := out.1.1 in
  rr_count r = Z.of_nat (length (rr_results r)) /\
  0 <= rr_live_count r <= 3 /\
  rr_live_count r <= rr_count r <= rq_k request + 3 /\
  out.1.2 = rag_system.
Proof.
  intros Hk. unfold query_rag.
  pose proof (query_results search rag_system (rq_query request) (rq_k request)
                (rq_filter_source request) (rq_filter_type request)
                (rq_filter_unit_code request)) as Hq.
  destruct (query search rag_system _ _ _ _ _) as [results rag1] eqn:Eq.
  assert (Hrag : rag1 = rag_system) by (unfold query in Eq; now injection Eq).
  cbn [fst] in Hq.
  assert (Hlen : Z.of_nat (length results) <= rq_k request).
  { rewrite Hq, length_fmap, length_take. lia. }
  assert (Hlive : exists live w1,
            (if rq_include_live request
             then fold_left (live_step search_unit)
                    (take 3 (findall_points (str_upper (rq_query request)))) ([], w)
             else ([], w)) = (live, w1) /\ (length live <= 3)%nat).
  { destruct (rq_include_live request).
    - destruct (live_steps (take 3 (findall_points (str_upper (rq_query request)))) [] w)
        as (live & E & Hl & _).
      destruct (fold_left _ _ _) as [live' w1]. cbn in E. subst live'.
      exists live, w1. split; [reflexivity |]. rewrite length_take in Hl. lia.
    - exists [], w. split; [reflexivity | cbn; lia]. }
  destruct Hlive as (live & w1 & -> & Hl).
  cbn [fst snd rr_count rr_results rr_live_count].
  rewrite length_app, length_fmap. repeat split; try lia. exact Hrag.
Qed.

(** The results of [/rag/query] are the live results followed by the
    results of [query], in its order.  Every live result has distance 0
    and similarity 100, whatever its content, and is for one of the first
    three codes found in the upper-cased query; without [include_live]
    there is none and the web search is not called. *)
Theorem query_rag_live_first (request : RAGQueryRequest) (rag_system : RAGSystem)
    (w : W) :
  let out := query_rag search search_unit request rag_system w in
  let r := out.1.1 in
  let codes := take 3 (findall_points (str_upper (rq_query request))) in
  exists live,
    rr_results r =
      live ++ (of_result <$>
                 (query search rag_system (rq_query request) (rq_k request)
                    (rq_filter_source request) (rq_filter_type request)
                    (rq_filter_unit_code request)).1) /\
    rr_live_count r = Z.of_nat (length live) /\
    Forall (live_result codes) live /\
    (rq_include_live request = false -> live = [] /\ out.2 = w).
Proof.
  unfold query_rag.
  destruct (query search rag_system _ _ _ _ _) as [results rag1].
  destruct (rq_include_live request).
  - destruct (live_steps (take 3 (findall_points (str_upper (rq_query request)))) [] w)
      as (live & E & _ & Hall).
    destruct (fold_left _ _ _) as [live' w1]. cbn in E. subst live'.
    exists live. cbn [fst snd rr_results rr_live_count]. repeat split; try assumption.
    all: discriminate.
  - exists []. cbn [fst snd rr_results rr_live_count]. repeat split. constructor.
Qed.

(** *** The prerequisite chains *)

Lemma visit_chain (st : list string * list string * (W * DB)) (prereq : string) :
  let st' := visit search_unit st prereq in
  (NoDup st.1.1 -> NoDup st'.1.1) /\
  (exists ext, st'.1.1 = st.1.1 ++ ext) /\
  (described st.2.2 -> described st'.2.2).
Proof.
  destruct st as [[chain next_prereqs] s]. unfold visit. cbn [fst snd].
  destruct (decide (prereq ∈ chain)) as [Hin | Hin].
  - cbn [fst snd]. split; [auto |]. split; [| auto]. exists []. now rewrite app_nil_r.
  - pose proof (live_first_described (points prereq) true s) as Hd.
    destruct (get_unit_with_live_first search_unit (points prereq) true s)
      as [prereq_data s1].
    assert (Hnd : NoDup chain -> NoDup (chain ++ [prereq])).
    { intros H. apply NoDup_app. split; [exact H |]. split.
      - intros x Hx Hx'. apply list_elem_of_singleton in Hx'. now subst x.
      - apply NoDup_singleton. }
    destruct prereq_data; cbn [fst snd] in *; (split; [exact Hnd |]);
      (split; [now exists [prereq] | exact Hd]).
Qed.

Lemma visits_chain (prereqs : list string) (st : list string * list string * (W * DB)) :
  let st' := fold_left (visit search_unit) prereqs st in
  (NoDup st.1.1 -> NoDup st'.1.1) /\
  (exists ext, st'.1.1 = st.1.1 ++ ext) /\
  (described st.2.2 -> described st'.2.2).
Proof.
  revert st. induction prereqs as [| p rest IH]; intros st.
  - cbn. split; [auto |]. split; [| auto]. exists []. now rewrite app_nil_r.
  - cbn [fold_left]. destruct (visit_chain st p) as (H1 & (e1 & H2) & H3).
    destruct (IH (visit search_unit st p)) as (I1 & (e2 & I2) & I3).
    cbn zeta in *. split; [auto |]. split; [| auto].
    exists (e1 ++ e2). now rewrite I2, H2, app_assoc.
Qed.

Lemma levels_chain (n : nat) (chain prereqs : list string) (s : W * DB) :
  let r := levels search_unit n chain prereqs s in
  (NoDup chain -> NoDup r.1) /\
  (exists ext, r.1 = chain ++ ext) /\
  (described s.2 -> described r.2.2).
Proof.
  revert chain prereqs s. induction n as [| n IH]; intros chain prereqs s.
  - cbn. split; [auto |]. split; [| auto]. exists []. now rewrite app_nil_r.
  - cbn [levels].
    destruct (visits_chain prereqs (chain, [], s)) as (H1 & (e1 & H2) & H3).
    cbn zeta in *. cbn [fst snd] in *.
    destruct (fold_left (visit search_unit) prereqs (chain, [], s))
      as [[chain1 next_prereqs] s1].
    cbn [fst snd] in *. destruct next_prereqs as [| p next].
    + cbn [fst snd]. split; [auto |]. split; [| auto]. now exists e1.
    + destruct (IH chain1 (p :: next) s1) as (I1 & (e2 & I2) & I3).
      cbn zeta in *. split; [auto |]. split; [| auto].
      exists (e1 ++ e2). now rewrite I2, H2, app_assoc.
Qed.

Lemma unit_step_collected (include_prerequisites : bool) (done : list string)
    (p : Progress W) (code : string) :
  collected done p ->
  match unit_step search_unit include_prerequisites p code with
  | inl p1 =>
      collected (done ++ [code]) p1 /\
      (include_prerequisites = false -> p_chains p1 = p_chains p)
  | inr _ => True
  end.
Proof.
  intros (Hu & Hc & Hw). unfold unit_step.
  destruct (get_unit_with_live_first search_unit (points code) true (p_state p))
    as [unit_data s1].
  destruct unit_data as [d |].
  2: { split; [| reflexivity]. split; [| split; assumption].
       cbn [p_units]. now apply sublist_inserts_r. }
  destruct (description_300 _) as [description |]; [| exact I].
  set (summary := mkUnitSummary _ _ _ _ _ _).
  assert (Hu1 : (s_unit_code <$> p_units p ++ [summary]) `sublist_of` done ++ [code]).
  { rewrite fmap_app. now apply sublist_app. }
  assert (Hplain : collected (done ++ [code])
                     (mkProgress (p_units p ++ [summary]) (p_chains p) s1)).
  { split; [exact Hu1 |]. split; [| exact Hw]. cbn [p_units p_chains].
    rewrite fmap_app. now apply sublist_inserts_r. }
  destruct include_prerequisites; [| now destruct (d_prerequisites _)].
  destruct (d_prerequisites (found_unit d)) as [| q prereqs] eqn:Ep;
    [split; [exact Hplain | discriminate] |].
  destruct (levels_chain 3 [code] (q :: prereqs) s1) as (H1 & (ext & H2) & _).
  cbn zeta in *.
  destruct (levels search_unit 3 [code] (q :: prereqs) s1) as [chain s2].
  cbn [fst] in *. split; [| discriminate].
  split; [exact Hu1 |]. cbn [p_units p_chains]. split.
  - rewrite !fmap_app. now apply sublist_app.
  - apply Forall_app. split; [exact Hw |]. constructor; [| constructor].
    split; cbn [c_chain c_unit].
    + apply H1, NoDup_singleton.
    + exists ext. now rewrite H2.
Qed.

Lemma units_loop_collected (include_prerequisites : bool) (codes done : list string)
    (p : Progress W) :
  collected done p ->
  match units_loop search_unit include_prerequisites codes p with
  | inl p1 =>
      collected (done ++ codes) p1 /\
      (include_prerequisites = false -> p_chains p1 = p_chains p)
  | inr _ => True
  end.
Proof.
  revert done p. induction codes as [| code rest IH]; intros done p Hp.
  - cbn. now rewrite app_nil_r.
  - cbn [units_loop].
    pose proof (unit_step_collected include_prerequisites done p code Hp) as Hs.
    destruct (unit_step search_unit include_prerequisites p code) as [p1 | e];
      [| exact I].
    destruct Hs as [Hs Hn]. specialize (IH (done ++ [code]) p1 Hs).
    destruct (units_loop search_unit include_prerequisites rest p1) as [p2 | e];
      [| exact I].
    rewrite <- app_assoc in IH. destruct IH as [IH Hn2].
    split; [exact IH |]. intros H. now rewrite Hn2, Hn.
Qed.

Lemma unit_step_described (include_prerequisites : bool) (p : Progress W)
    (code : string) :
  described (p_state p).2 ->
  exists p1, unit_step search_unit include_prerequisites p code = inl p1 /\
             described (p_state p1).2.
Proof.
  intros Hd. unfold unit_step.
  pose proof (live_first_described (points code) true (p_state p) Hd) as Hd1.
  pose proof (live_first_description (points code) true (p_state p)) as Hdesc.
  destruct (get_unit_with_live_first search_unit (points code) true (p_state p))
    as [unit_data s1].
  cbn [fst snd] in *. destruct unit_data as [d |]; [| eauto].
  destruct (Hdesc d Hd eq_refl) as [s ->]. cbn [description_300].
  destruct include_prerequisites; [| destruct (d_prerequisites _); eauto].
  destruct (d_prerequisites (found_unit d)) as [| q prereqs]; [eauto |].
  destruct (levels_chain 3 [code] (q :: prereqs) s1) as (_ & _ & H3).
  cbn zeta in *.
  destruct (levels search_unit 3 [code] (q :: prereqs) s1) as [chain s2].
  eexists. split; [reflexivity |]. now apply H3.
Qed.

Lemma units_loop_described (include_prerequisites : bool) (codes : list string)
    (p : Progress W) :
  described (p_state p).2 ->
  exists p1, units_loop search_unit include_prerequisites codes p = inl p1 /\
             described (p_state p1).2.
Proof.
  revert p. induction codes as [| code rest IH]; intros p Hd; [cbn; eauto |].
  cbn [units_loop].
  destruct (unit_step_described include_prerequisites p code Hd) as (p1 & -> & Hd1).
  now apply IH.
Qed.

(** The response of [/search/smart], when there is one: at most five
    units, for codes found in the upper-cased query and in their order; a
    chain only for units of the response; every chain starts with its
    unit and names no unit twice; without [include_prerequisites] there
    is no chain; and the retrieval results are those of [query] for
    [max_results], without filters, or none without [include_rag]. *)
Theorem smart_search_response (request : SmartSearchRequest) (rag_system : RAGSystem)
    (st : W * DB) :
  let out := smart_search search search_unit request rag_system st in
  let codes := findall_points (str_upper (sq_query request)) in
  out.1.2 = rag_system /\
  match out.1.1 with
  | inr _ => True
  | inl r =>
      (length (sr_units r) <= 5)%nat /\
      (s_unit_code <$> sr_units r) `sublist_of` take 5 codes /\
      (c_unit <$> sr_prerequisite_chains r) `sublist_of` (s_unit_code <$> sr_units r) /\
      Forall well_formed (sr_prerequisite_chains r) /\
      (sq_include_prerequisites request = false -> sr_prerequisite_chains r = []) /\
      sr_rag_results r =
        (if sq_include_rag request
         then (query search rag_system (sq_query request) (sq_max_results request)
                 None None None).1
         else [])
  end.
Proof.
  unfold smart_search.
  pose proof (units_loop_collected (sq_include_prerequisites request)
                (take 5 (findall_points (str_upper (sq_query request)))) []
                (mkProgress [] [] st)) as Hc.
  destruct (units_loop search_unit _ _ _) as [p | [e st1]]; [| now split].
  destruct Hc as [(Hu & Hc & Hw) Hn].
  { split; [constructor |]. split; [constructor | constructor]. }
  cbn [app] in Hu.
  assert (Hlen : (length (p_units p) <= 5)%nat).
  { apply sublist_length in Hu. rewrite length_fmap, length_take in Hu. lia. }
  destruct (sq_include_rag request).
  - destruct (query search rag_system _ _ _ _ _) as [rag_results rag1] eqn:Eq.
    assert (rag1 = rag_system) as -> by (unfold query in Eq; now injection Eq).
    cbn [fst snd sr_units sr_prerequisite_chains sr_rag_results].
    split; [reflexivity |]. split; [exact Hlen |]. split; [exact Hu |].
    split; [exact Hc |]. split; [exact Hw |]. split; [exact Hn | reflexivity].
  - cbn [fst snd sr_units sr_prerequisite_chains sr_rag_results].
    split; [reflexivity |]. split; [exact Hlen |]. split; [exact Hu |].
    split; [exact Hc |]. split; [exact Hw |]. split; [exact Hn | reflexivity].
Qed.

(** In a database where every titled row that is not a placeholder has a
    string as description, which [save_unit] keeps, [/search/smart]
    returns a response and leaves the database so. *)
Theorem smart_search_returns (request : SmartSearchRequest) (rag_system : RAGSystem)
    (st : W * DB) :
  described st.2 ->
  let out := smart_search search search_unit request rag_system st in
  (exists r, out.1.1 = inl r) /\ described out.2.2.
Proof.
  intros Hd. unfold smart_search.
  destruct (units_loop_described (sq_include_prerequisites request)
              (take 5 (findall_points (str_upper (sq_query request))))
              (mkProgress [] [] st) Hd) as (p & -> & Hp).
  destruct (sq_include_rag request).
  - destruct (query search rag_system _ _ _ _ _) as [rag_results rag1].
    cbn [fst snd]. split; [eauto | exact Hp].
  - cbn [fst snd]. split; [eauto | exact Hp].
Qed.

(** A titled row without description makes [/search/smart] raise: for a
    query that is the code of a unit whose title is set and is not the
    placeholder's and whose description is not a string, the slice
    [description[:300]] raises [TypeError], and the web search was not
    called. *)
Theorem smart_search_raises (request : SmartSearchRequest) (rag_system : RAGSystem)
    (st : W * DB) (row : UnitRow) :
  is_unit_code (sq_query request) ->
  units st.2 !! sq_query request = Some row ->
  truthy_value (row_title row) = true ->
  row_title row <> PStr "Placeholder Unit" ->
  (forall s, row_description row <> PStr s) ->
  smart_search search search_unit request rag_system st = (inr TypeError, rag_system, st).
Proof.
  intros Hcode Hrow Ht Hp Hnot.
  assert (Hdesc : description_300 (row_description row) = None).
  { destruct (row_description row) as [| s |]; [reflexivity | | reflexivity].
    now contradiction (Hnot s). }
  unfold smart_search.
  destruct (unit_code_fixed _ Hcode) as [Hup Hall].
  rewrite Hup, findall_points_string, Hall. cbn [take units_loop].
  unfold unit_step, get_unit_with_live_first. cbn [p_state].
  fold (str_upper (sq_query request)). rewrite Hup.
  unfold get_unit_points. rewrite latin1_points.
  unfold get_unit. rewrite Hrow. cbn [titled d_row].
  rewrite Ht. case_bool_decide; [contradiction |]. cbn [negb andb found_unit d_row].
  rewrite Hdesc. now destruct st.
Qed.

(** *** Eligibility *)

Lemma check_incompatibles_none (completed_units : list string) (target_unit : list Z)
    (db : DB) :
  check_incompatibles_points completed_units target_unit db = [].
Proof.
  unfold check_incompatibles_points, Logic.check_incompatibles.
  destruct (latin1 target_unit); [| reflexivity]. now destruct (get_unit _ _).
Qed.

(** [/eligibility] reads the first query unit only, and compares unit
    codes without regard to case: two requests whose first query units
    and whose completed units agree in upper case get the same response
    and leave the same state, whatever their degrees and further query
    units. *)
Theorem eligibility_case_insensitive (request request' : EligibilityRequest)
    (st : W * DB) :
  str_upper <$> head (er_query_units request) =
    str_upper <$> head (er_query_units request') ->
  str_upper <$> er_completed_units request =
    str_upper <$> er_completed_units request' ->
  check_eligibility search_unit request st = check_eligibility search_unit request' st.
Proof.
  intros Hq Hc. unfold check_eligibility.
  destruct (er_query_units request) as [| q rest],
           (er_query_units request') as [| q' rest']; try discriminate;
    [reflexivity |].
  cbn in Hq. injection Hq as ->.
  destruct (get_unit_with_live_first search_unit (str_upper q') false st)
    as [unit_data st1].
  destruct unit_data as [d |]; [| reflexivity].
  now rewrite Hc, !check_incompatibles_none.
Qed.

(** The verdict of [/eligibility] for the first query unit: when the
    unit is not found, an error and no verdict; otherwise the missing
    prerequisites are the prerequisites of the unit whose upper case is
    not the upper case of a completed unit (the unit's own code
    included, when it is among its prerequisites), and the student is
    eligible exactly when none is missing.  No unit is ever reported as
    incompatible. *)
Theorem eligibility_verdict (request : EligibilityRequest) (st : W * DB)
    (first : string) (others : list string) :
  er_query_units request = first :: others ->
  let found := get_unit_with_live_first search_unit (str_upper first) false st in
  let r := (check_eligibility search_unit request st).1 in
  let completed_upper := str_upper <$> er_completed_units request in
  ev_incompatible_units r = [] /\
  match found.1 with
  | None => ev_eligible r = false /\ ev_missing_prerequisites r = [] /\ ev_errors r <> []
  | Some d =>
      ev_errors r = [] /\
      ev_missing_prerequisites r =
        filter (fun p => str_upper p ∉ completed_upper)
          (d_prerequisites (found_unit d)) /\
      (ev_eligible r = true <->
         forall p, p ∈ d_prerequisites (found_unit d) ->
                   str_upper p ∈ completed_upper)
  end.
Proof.
  intros Hq. unfold check_eligibility. rewrite Hq.
  destruct (get_unit_with_live_first search_unit (str_upper first) false st)
    as [unit_data st1].
  cbn [fst]. destruct unit_data as [d |]; [| now repeat split].
  rewrite check_incompatibles_none.
  cbn [fst ev_eligible ev_missing_prerequisites ev_incompatible_units ev_errors length].
  split; [reflexivity |]. split; [reflexivity |]. split; [reflexivity |].
  rewrite andb_true_r, bool_decide_eq_true, length_zero_iff_nil.
  set (prerequisites := d_prerequisites (found_unit d)).
  set (completed_upper := str_upper <$> er_completed_units request).
  split.
  - intros Hnil p Hp.
    destruct (decide (str_upper p ∈ completed_upper)) as [| Hn]; [assumption |].
    assert (Hin : p ∈ filter (fun p => str_upper p ∉ completed_upper) prerequisites)
      by (apply list_elem_of_filter; now split).
    rewrite Hnil in Hin. inversion Hin.
  - intros Hall.
    destruct (filter _ prerequisites) as [| p rest] eqn:E; [reflexivity |].
    assert (Hin : p ∈ filter (fun p => str_upper p ∉ completed_upper) prerequisites)
      by (rewrite E; now left).
    apply list_elem_of_filter in Hin as [Hn Hp]. now contradiction Hn; apply Hall.
Qed.

End Endpoints.

Section EndpointSamples.

Import PyStr Float Rag Database Api.

Lemma query_rag_counts_witness :
  let request := mkRAGQueryRequest "what is comp2000 about" 2 None None None true in
  let out := query_rag (table_index Demo.ranking) Sample.web_comp2000 request
               (init ∅) 0%nat in
  let r := out.1.1 in
  rr_count r = Z.of_nat (length (rr_results r)) /\
  0 <= rr_live_count r <= 3 /\
  rr_live_count r <= rr_count r <= 2 + 3 /\
  out.1.2 = init ∅.
Proof.
  apply (query_rag_counts (table_index Demo.ranking) Sample.web_comp2000
           (mkRAGQueryRequest "what is comp2000 about" 2 None None None true)
           (init ∅) 0%nat).
  cbn. lia.
Defined.

Lemma eligibility_case_insensitive_witness :
  check_eligibility Sample.web_comp2000
    (mkEligibilityRequest "BIT" ["comp1000"%string; "Comp1010"%string]
       ["comp2000"%string; "COMP3000"%string]) (0%nat, init_db) =
  check_eligibility Sample.web_comp2000
    (mkEligibilityRequest "BSc" ["COMP1000"%string; "COMP1010"%string]
       ["COMP2000"%string]) (0%nat, init_db).
Proof.
  apply (eligibility_case_insensitive Sample.web_comp2000); reflexivity.
Defined.

Lemma eligibility_verdict_witness :
  let request :=
    mkEligibilityRequest "BIT" ["comp1000"%string] ["comp2000"%string] in
  let found := get_unit_with_live_first Sample.web_comp2000 (str_upper "comp2000")
                 false (0%nat, init_db) in
  let r := (check_eligibility Sample.web_comp2000 request (0%nat, init_db)).1 in
  let completed_upper := str_upper <$> ["comp1000"%string] in
  ev_incompatible_units r = [] /\
  match found.1 with
  | None => ev_eligible r = false /\ ev_missing_prerequisites r = [] /\ ev_errors r <> []
  | Some d =>
      ev_errors r = [] /\
      ev_missing_prerequisites r =
        filter (fun p => str_upper p ∉ completed_upper)
          (d_prerequisites (found_unit d)) /\
      (ev_eligible r = true <->
         forall p, p ∈ d_prerequisites (found_unit d) ->
                   str_upper p ∈ completed_upper)
  end.
Proof.
  apply (eligibility_verdict Sample.web_comp2000
           (mkEligibilityRequest "BIT" ["comp1000"%string] ["comp2000"%string])
           (0%nat, init_db) "comp2000" []).
  reflexivity.
Defined.

Lemma smart_search_returns_witness :
  let out := smart_search (table_index Demo.ranking) Sample.web_comp2000
               (mkSmartSearchRequest "comp2000 and COMP1000" true true 5)
               (init ∅) (0%nat, init_db) in
  (exists r, out.1.1 = inl r) /\ described out.2.2.
Proof.
  apply (smart_search_returns (table_index Demo.ranking) Sample.web_comp2000
           (mkSmartSearchRequest "comp2000 and COMP1000" true true 5)
           (init ∅) (0%nat, init_db)).
  intros c row H. cbn in H. now rewrite lookup_empty in H.
Defined.

Lemma smart_search_raises_witness :
  smart_search (table_index Demo.ranking) Sample.web_comp2000
    (mkSmartSearchRequest "COMP3000" true true 5) (init ∅)
    (0%nat, Sample.untitled_db) =
  (inr TypeError, init ∅, (0%nat, Sample.untitled_db)).
Proof.
  apply (smart_search_raises (table_index Demo.ranking) Sample.web_comp2000
           (mkSmartSearchRequest "COMP3000" true true 5) (init ∅)
           (0%nat, Sample.untitled_db)
           (mkRow (PStr "Project") PNone PNone PNone PNone PNone)).
  - reflexivity.
  - reflexivity.
  - reflexivity.
  - discriminate.
  - discriminate.
Defined.

Lemma live_answer_then_cached_witness :
  exists d raw,
    get_unit_with_live_first Sample.web_comp2000 (points "comp2000") true
      (1%nat, save_unit (live_unit_data Sample.comp2000) init_db)
    = (Some (mkFound d None),
       (1%nat, save_unit (live_unit_data Sample.comp2000) init_db)) /\
    d_row d = d_row (live_dict Sample.comp2000) /\
    d_learning_outcomes d = d_learning_outcomes (live_dict Sample.comp2000) /\
    row_raw_prerequisites (d_row (live_dict Sample.comp2000)) = PStr raw /\
    (forall q, q ∈ d_prerequisites d <->
       q ∈ findall_codes raw /\ q <> "COMP2000"%string).
Proof.
  apply (live_answer_then_cached Sample.web_comp2000 (points "Comp2000")
           (points "comp2000") false (0%nat, init_db)
           (1%nat, save_unit (live_unit_data Sample.comp2000) init_db)
           (mkFound (live_dict Sample.comp2000) (Some "live_web"%string))).
  - reflexivity.
  - reflexivity.
  - reflexivity.
  - discriminate.
  - reflexivity.
Defined.

End EndpointSamples.

(* ===================================================================== *)
(** ** Checks of the model against CPython and SQLite *)
(* ===================================================================== *)

(** Values of [hashlib.md5], of [round], of [_normalize_score], of
    [str.upper] and of [re.findall] as CPython 3 computes them, and rows as
    SQLite 3 returns them. *)

Example md5_empty : MD5.hexdigest "" = "d41d8cd98f00b204e9800998ecf8427e"%string.
Proof. vm_compute. reflexivity. Qed.

Example md5_abc : MD5.hexdigest "abc" = "900150983cd24fb0d6963f7d28e17f72"%string.
Proof. vm_compute. reflexivity. Qed.

Example md5_two_blocks :
  MD5.hexdigest (PyStr.times "a" 64) = "014842d480b571495a4a0363793f7367"%string.
Proof. vm_compute. reflexivity. Qed.

Example replace_overlap : PyStr.replace "aaa" "aa" "b" = "ba"%string.
Proof. reflexivity. Qed.

(** [round(0.125, 2) == 0.12]: a tie goes to the even digit. *)
Example round_tie :
  Float.pyround (Float.Fin (2 ^ 1071)) 2 = Float.Fin (1080863910568919 * 2 ^ 1021).
Proof. vm_compute. reflexivity. Qed.

(** [round(2.675, 2) == 2.67]: the double below 2.675 is rounded. *)
Example round_binary :
  Float.pyround (Float.Fin (3011782250804019 * 2 ^ 1024)) 2
    = Float.Fin (1503076375634903 * 2 ^ 1025).
Proof. vm_compute. reflexivity. Qed.

(** [round(0.12345, 4) == 0.1235] *)
Example round_four :
  Float.pyround (Float.Fin (2223877495995551 * 2 ^ 1020)) 4
    = Float.Fin (2224778215921025 * 2 ^ 1020).
Proof. vm_compute. reflexivity. Qed.

(** [_normalize_score(0.3) == 85.0] *)
Example score_03 :
  Rag._normalize_score (Float.Fin (5404319552844595 * 2 ^ 1020))
    = Float.Fin (85 * 2 ^ 1074).
Proof. vm_compute. reflexivity. Qed.

(** [_normalize_score(1.23456) == 38.27] *)
Example score_123456 :
  Rag._normalize_score (Float.Fin (694995494495815 * 2 ^ 1025))
    = Float.Fin (5386023679358403 * 2 ^ 1027).
Proof. vm_compute. reflexivity. Qed.

(** [_normalize_score(1.99999) == 0.0] *)
Example score_199999 :
  Rag._normalize_score (Float.Fin (4503577109372359 * 2 ^ 1023)) = Float.Fin 0.
Proof. vm_compute. reflexivity. Qed.

(** [re.findall(r"([A-Z]{4}\d{4})", "ABCDE1234 ABCDEFGH12345678")]: the
    matches do not overlap. *)
Example findall_without_overlap :
  Database.findall_codes "ABCDE1234 ABCDEFGH12345678"
    = ["BCDE1234"%string; "EFGH1234"%string].
Proof. vm_compute. reflexivity. Qed.

(** The code points of [s.upper()] for the string [s] of the 256
    characters below 256, in order. *)
Example upper_of_every_character :
  Api.str_upper (string_of_list_ascii (PyStr.chr <$> (Z.of_nat <$> seq 0 256)))
    = [
     0; 1; 2; 3; 4; 5; 6; 7; 8; 9; 10; 11; 12; 13; 14; 15; 16; 17; 18;
     19; 20; 21; 22; 23; 24; 25; 26; 27; 28; 29; 30; 31; 32; 33; 34; 35;
     36; 37; 38; 39; 40; 41; 42; 43; 44; 45; 46; 47; 48; 49; 50; 51; 52;
     53; 54; 55; 56; 57; 58; 59; 60; 61; 62; 63; 64; 65; 66; 67; 68; 69;
     70; 71; 72; 73; 74; 75; 76; 77; 78; 79; 80; 81; 82; 83; 84; 85; 86;
     87; 88; 89; 90; 91; 92; 93; 94; 95; 96; 65; 66; 67; 68; 69; 70; 71;
     72; 73; 74; 75; 76; 77; 78; 79; 80; 81; 82; 83; 84; 85; 86; 87; 88;
     89; 90; 123; 124; 125; 126; 127; 128; 129; 130; 131; 132; 133; 134;
     135; 136; 137; 138; 139; 140; 141; 142; 143; 144; 145; 146; 147;
     148; 149; 150; 151; 152; 153; 154; 155; 156; 157; 158; 159; 160;
     161; 162; 163; 164; 165; 166; 167; 168; 169; 170; 171; 172; 173;
     174; 175; 176; 177; 178; 179; 180; 924; 182; 183; 184; 185; 186;
     187; 188; 189; 190; 191; 192; 193; 194; 195; 196; 197; 198; 199;
     200; 201; 202; 203; 204; 205; 206; 207; 208; 209; 210; 211; 212;
     213; 214; 215; 216; 217; 218; 219; 220; 221; 222; 83; 83; 192; 193;
     194; 195; 196; 197; 198; 199; 200; 201; 202; 203; 204; 205; 206;
     207; 208; 209; 210; 211; 212; 213; 214; 247; 216; 217; 218; 219;
     220; 221; 222; 376].
Proof. vm_compute. reflexivity. Qed.

(** [re.findall(r'[A-Z]{4}\d{4}', s.upper())] for [s] the character 223
    followed by ["ab1234 comp1010COMP10201"]. *)
Example findall_in_upper_case :
  Api.findall_points
    (Api.str_upper (String (PyStr.chr 223) "ab1234 comp1010COMP10201"))
    = ["SSAB1234"%string; "COMP1010"%string; "COMP1020"%string].
Proof. vm_compute. reflexivity. Qed.

(** The content of a live result, and the text of a chain. *)
Example live_entry_content :
  Api.e_content (Api.live_entry "COMP2000" Sample.comp2000)
    = ("Unit: COMP2000 - Data Structures" +:+ PyStr.nl
         +:+ "Description: Lists and trees" +:+ PyStr.nl
         +:+ "Prerequisites: COMP1000, COMP1010")%string.
Proof. vm_compute. reflexivity. Qed.

Example chain_description_text :
  Api.chain_description "COMP2000" ["COMP2000"; "COMP1000"; "COMP1010"]%string
    = "To take COMP2000, you need: COMP1010 -> COMP1000 -> COMP2000"%string.
Proof. vm_compute. reflexivity. Qed.

(** The rows as SQLite 3 returns them: a unit saved with the raw
    prerequisite text ["COMP1010 or COMP1000"] into an empty database. *)
Example rows_in_key_order :
  let db :=
    Database.save_unit
      (Database.mkUnitData (Some "COMP2000"%string) (Some "Data"%string)
         (Some "Structures"%string) None None
         (Some "COMP1010 or COMP1000"%string) None None)
      Database.init_db in
  (Database.get_all_units db).*1
    = ["COMP1000"%string; "COMP1010"%string; "COMP2000"%string] /\
  Database.d_prerequisites <$> Database.get_unit "COMP2000" db
    = Some ["COMP1000"%string; "COMP1010"%string].
Proof. vm_compute. split; reflexivity. Qed.

(** [credit_points = 2 ** 63]: [OverflowError], and nothing is saved. *)
Example overflow_is_not_saved :
  Database.save_unit
    (Database.mkUnitData (Some "COMP2000"%string) (Some "Data"%string)
       (Some "Structures"%string) (Some (2 ^ 63)) None None None None)
    Database.init_db
  = Database.init_db.
Proof. reflexivity. Qed.

(** The description document that [ingest_units] stores for this unit. *)
Example description_of_saved_unit :
  let db :=
    Database.save_unit
      (Database.mkUnitData (Some "COMP2000"%string) (Some "Data"%string)
         (Some "Structures"%string) None None
         (Some "COMP1010 or COMP1000"%string) None None)
      Database.init_db in
  Rag.page_content
    <$> Rag.vector_store (Database.ingest_units_from db (Rag.init ∅)).1
          !! "8fb6a8bd2e1b5a74bac69cf745f18b95"%string
    = Some ("Unit Code: COMP2000" +:+ PyStr.nl +:+ "Title: Data" +:+ PyStr.nl
              +:+ "Description: Structures" +:+ PyStr.nl
              +:+ "Prerequisites: COMP1000, COMP1010" +:+ PyStr.nl
              +:+ "Credit Points: 10")%string.
Proof. vm_compute. reflexivity. Qed.
